(** * aws-c-http: the websocket client bootstrap (source/websocket_bootstrap.c)

    A shallow embedding of the websocket bootstrap: the synchronous
    [aws_websocket_client_connect] and the four callbacks the bootstrap
    registers with the HTTP layer.  The C code mutates one heap-allocated
    [struct aws_websocket_client_bootstrap], two byte buffers and the
    thread-local last error, and calls out to the user's callbacks and to
    the HTTP connection; here all of that is a state ([world]) threaded
    through a small state-and-fault monad, with the calls that leave the
    bootstrap recorded in a [trace]. *)

From Stdlib Require Import ZArith List Bool Lia.
From Stdlib.Strings Require Import Byte String.
From stdpp Require Import base option list.

Local Open Scope Z_scope.

(** ** Constants declared outside this translation unit *)

(** Values of macros and enumerators that websocket_bootstrap.c uses but
    that are declared in headers of aws-c-common and aws-c-http.  The
    development is parametric in them; a theorem that needs a fact about
    one of them (an error code differs from zero) says so. *)
Class Platform := {
  SIZE_MAX : Z;
  AWS_ERROR_OOM : Z;
  AWS_ERROR_UNKNOWN : Z;
  AWS_ERROR_INVALID_ARGUMENT : Z;
  AWS_ERROR_HTTP_WEBSOCKET_UPGRADE_FAILURE : Z;
  AWS_HTTP_STATUS_UNKNOWN : Z;
}.

Definition AWS_OP_SUCCESS : Z := 0.
Definition AWS_OP_ERR : Z := -1.
Definition AWS_HTTP_STATUS_101_SWITCHING_PROTOCOLS : Z := 101.

(** Arithmetic on [size_t] wraps around. *)
Definition size_wrap `{Platform} (z : Z) : Z := z mod (SIZE_MAX + 1).

(** ** Handles *)

(** Pointers to objects the bootstrap never looks into are identifiers;
    a nullable pointer is an [option]. *)
Definition aws_allocator := nat.
Definition aws_client_bootstrap := nat.
Definition aws_socket_options := nat.
Definition aws_tls_connection_options := nat.
Definition aws_http_connection := nat.
Definition aws_channel := nat.
Definition aws_websocket := nat.
Definition fn_ptr := nat.
Definition void_ptr := Z.

Definition non_null {A} (p : option A) : bool :=
  match p with Some _ => true | None => false end.

(** ** Byte strings and byte buffers *)

Definition bytes := list byte.

Definition byte_len (s : bytes) : Z := Z.of_nat (length s).

(** Memory owned by the bootstrap's byte buffers: a block has the size it
    was acquired with and the bytes written to it so far, from its start.
    The heap lists every block ever acquired, a released one as [None]:
    block identifiers are never reused, so a pointer into a released block
    stays dangling. *)
Record block := { blk_size : Z; blk_bytes : bytes }.

Definition heap_get (h : list (option block)) (b : nat) : option block :=
  match h !! b with
  | Some (Some blk) => Some blk
  | _ => None
  end.

Record pointer := { p_base : option nat; p_off : Z }.

Record aws_byte_cursor := { cur_len : Z; cur_ptr : pointer }.

Record aws_byte_buf := {
  buf_len : Z;
  buf_buffer : option nat;
  buf_capacity : Z;
}.

Record aws_http_header := {
  hdr_name : aws_byte_cursor;
  hdr_value : aws_byte_cursor;
}.

(** A header whose cursors point into memory of the caller (the user's
    options, the HTTP decoder's scratch space) is given by the bytes the
    cursors denote during the call. *)
Record header_bytes := { hb_name : bytes; hb_value : bytes }.

(** [buf->buffer + buf->len] *)
Definition buf_end (b : aws_byte_buf) : pointer :=
  {| p_base := buf_buffer b; p_off := buf_len b |}.

Definition zero_buf : aws_byte_buf :=
  {| buf_len := 0; buf_buffer := None; buf_capacity := 0 |}.

Definition null_cursor : aws_byte_cursor :=
  {| cur_len := 0; cur_ptr := {| p_base := None; p_off := 0 |} |}.

(** Reading [n] bytes through a pointer: defined only inside the written
    part of a live block (or for no bytes at all through NULL). *)
Definition load (h : list (option block)) (p : pointer) (n : Z) : option bytes :=
  match p_base p with
  | None => if n =? 0 then Some [] else None
  | Some b =>
      match heap_get h b with
      | None => None
      | Some blk =>
          if (0 <=? p_off p) && (0 <=? n) && (p_off p + n <=? byte_len (blk_bytes blk))
          then Some (take (Z.to_nat n) (drop (Z.to_nat (p_off p)) (blk_bytes blk)))
          else None
      end
  end.

Definition load_cursor (h : list (option block)) (c : aws_byte_cursor) : option bytes :=
  load h (cur_ptr c) (cur_len c).

Definition load_header (h : list (option block)) (hd : aws_http_header) : option header_bytes :=
  match load_cursor h (hdr_name hd), load_cursor h (hdr_value hd) with
  | Some n, Some v => Some {| hb_name := n; hb_value := v |}
  | _, _ => None
  end.

(** The header list a callback sees when it reads the records it is
    handed: every record resolved, or nothing if one of them cannot be
    read. *)
Fixpoint load_headers (h : list (option block)) (hs : list aws_http_header)
  : option (list header_bytes) :=
  match hs with
  | [] => Some []
  | hd :: rest =>
      match load_header h hd, load_headers h rest with
      | Some x, Some xs => Some (x :: xs)
      | _, _ => None
      end
  end.

(** [struct aws_array_list] of [struct aws_http_header]: the items and the
    number of items the current allocation holds. *)
Record aws_array_list := {
  al_capacity : Z;
  al_items : list aws_http_header;
}.

Definition zero_array_list : aws_array_list :=
  {| al_capacity := 0; al_items := [] |}.

Definition aws_array_list_length (l : aws_array_list) : Z :=
  Z.of_nat (length (al_items l)).

(** ** URIs *)

(** [struct aws_uri] as its accessors show it: [aws_uri_scheme],
    [aws_uri_host_name], [aws_uri_port] (a [uint16_t], 0 when the URI has
    none) and [aws_uri_path_and_query]. *)
Record aws_uri := {
  uri_scheme : bytes;
  uri_host_name : bytes;
  uri_port : Z;
  uri_path_and_query : bytes;
}.

Definition to_lower (b : byte) : byte :=
  let n := Byte.to_N b in
  if ((65 <=? n) && (n <=? 90))%N
  then match Byte.of_N (n + 32) with Some c => c | None => b end
  else b.

Fixpoint bytes_eq_ignore_case (a b : bytes) : bool :=
  match a, b with
  | [], [] => true
  | x :: a', y :: b' => Byte.eqb (to_lower x) (to_lower y) && bytes_eq_ignore_case a' b'
  | _, _ => false
  end.

(** aws-c-common's [aws_byte_cursor_eq_ignore_case]: same length and the
    same bytes up to ASCII case. *)
Definition aws_byte_cursor_eq_ignore_case (a b : bytes) : bool :=
  bytes_eq_ignore_case a b.

Record scheme_port := { sp_scheme : bytes; sp_port : Z }.

Definition s_scheme_ports : list scheme_port :=
  [ {| sp_scheme := list_byte_of_string "http"; sp_port := 80 |};
    {| sp_scheme := list_byte_of_string "https"; sp_port := 443 |};
    {| sp_scheme := list_byte_of_string "ws"; sp_port := 80 |};
    {| sp_scheme := list_byte_of_string "wss"; sp_port := 443 |} ].

(** ** Option structs *)

(** [struct aws_websocket_client_connection_options].  The header array
    and [num_handhake_headers] are one field: the array with its length
    ([None] is the NULL array). *)
Record aws_websocket_client_connection_options := {
  co_allocator : option aws_allocator;
  co_bootstrap : option aws_client_bootstrap;
  co_socket_options : option aws_socket_options;
  co_tls_options : option aws_tls_connection_options;
  co_uri : option aws_uri;
  co_initial_window_size : Z;
  co_user_data : void_ptr;
  co_handshake_header_array : option (list header_bytes);
  co_on_connection_setup : option fn_ptr;
  co_on_connection_shutdown : option fn_ptr;
  co_on_incoming_frame_begin : option fn_ptr;
  co_on_incoming_frame_payload : option fn_ptr;
  co_on_incoming_frame_complete : option fn_ptr;
}.

Definition co_num_handhake_headers (o : aws_websocket_client_connection_options) : Z :=
  match co_handshake_header_array o with
  | Some hs => Z.of_nat (length hs)
  | None => 0
  end.

(** [struct aws_http_client_connection_options] as the bootstrap fills it
    in; [user_data], [on_setup] and [on_shutdown] are always the bootstrap
    and its two handlers. *)
Record aws_http_client_connection_options := {
  ho_allocator : option aws_allocator;
  ho_bootstrap : option aws_client_bootstrap;
  ho_host_name : bytes;
  ho_socket_options : option aws_socket_options;
  ho_tls_options : option aws_tls_connection_options;
  ho_initial_window_size : Z;
  ho_port : Z;
}.

(** [struct aws_http_request_options] *)
Record aws_http_request_options := {
  ro_client_connection : aws_http_connection;
  ro_method : bytes;
  ro_uri : aws_byte_cursor;
  ro_header_array : option (list aws_http_header);
  ro_num_headers : Z;
}.

(** [struct aws_websocket_handler_options] *)
Record aws_websocket_handler_options := {
  wo_allocator : option aws_allocator;
  wo_channel : aws_channel;
  wo_initial_window_size : Z;
  wo_user_data : void_ptr;
  wo_on_incoming_frame_begin : option fn_ptr;
  wo_on_incoming_frame_payload : option fn_ptr;
  wo_on_incoming_frame_complete : option fn_ptr;
  wo_is_server : bool;
}.

(** [struct aws_http_stream] (request_response_impl.h), the fields the
    bootstrap reads through the stream's accessors. *)
Record aws_http_stream := {
  owning_connection : aws_http_connection;
  incoming_response_status : Z;
}.

(** ** The bootstrap *)

Record aws_websocket_client_bootstrap := {
  bs_alloc : option aws_allocator;
  bs_initial_window_size : Z;
  bs_user_data : void_ptr;
  bs_websocket_setup_callback : option fn_ptr;
  bs_websocket_shutdown_callback : option fn_ptr;
  bs_websocket_frame_begin_callback : option fn_ptr;
  bs_websocket_frame_payload_callback : option fn_ptr;
  bs_websocket_frame_complete_callback : option fn_ptr;
  bs_request_path : aws_byte_cursor;
  bs_request_header_array : option (list aws_http_header);
  bs_num_request_headers : Z;
  bs_request_storage : aws_byte_buf;
  bs_response_status : Z;
  bs_response_headers : aws_array_list;
  bs_response_storage : aws_byte_buf;
  bs_setup_error_code : Z;
  bs_websocket : option aws_websocket;
}.

Definition set_bs_websocket_setup_callback (v : option fn_ptr)
  (b : aws_websocket_client_bootstrap) : aws_websocket_client_bootstrap :=
  {| bs_alloc := bs_alloc b;
     bs_initial_window_size := bs_initial_window_size b;
     bs_user_data := bs_user_data b;
     bs_websocket_setup_callback := v;
     bs_websocket_shutdown_callback := bs_websocket_shutdown_callback b;
     bs_websocket_frame_begin_callback := bs_websocket_frame_begin_callback b;
     bs_websocket_frame_payload_callback := bs_websocket_frame_payload_callback b;
     bs_websocket_frame_complete_callback := bs_websocket_frame_complete_callback b;
     bs_request_path := bs_request_path b;
     bs_request_header_array := bs_request_header_array b;
     bs_num_request_headers := bs_num_request_headers b;
     bs_request_storage := bs_request_storage b;
     bs_response_status := bs_response_status b;
     bs_response_headers := bs_response_headers b;
     bs_response_storage := bs_response_storage b;
     bs_setup_error_code := bs_setup_error_code b;
     bs_websocket := bs_websocket b |}.

Definition set_bs_response_status (v : Z)
  (b : aws_websocket_client_bootstrap) : aws_websocket_client_bootstrap :=
  {| bs_alloc := bs_alloc b;
     bs_initial_window_size := bs_initial_window_size b;
     bs_user_data := bs_user_data b;
     bs_websocket_setup_callback := bs_websocket_setup_callback b;
     bs_websocket_shutdown_callback := bs_websocket_shutdown_callback b;
     bs_websocket_frame_begin_callback := bs_websocket_frame_begin_callback b;
     bs_websocket_frame_payload_callback := bs_websocket_frame_payload_callback b;
     bs_websocket_frame_complete_callback := bs_websocket_frame_complete_callback b;
     bs_request_path := bs_request_path b;
     bs_request_header_array := bs_request_header_array b;
     bs_num_request_headers := bs_num_request_headers b;
     bs_request_storage := bs_request_storage b;
     bs_response_status := v;
     bs_response_headers := bs_response_headers b;
     bs_response_storage := bs_response_storage b;
     bs_setup_error_code := bs_setup_error_code b;
     bs_websocket := bs_websocket b |}.

Definition set_bs_response_headers (v : aws_array_list)
  (b : aws_websocket_client_bootstrap) : aws_websocket_client_bootstrap :=
  {| bs_alloc := bs_alloc b;
     bs_initial_window_size := bs_initial_window_size b;
     bs_user_data := bs_user_data b;
     bs_websocket_setup_callback := bs_websocket_setup_callback b;
     bs_websocket_shutdown_callback := bs_websocket_shutdown_callback b;
     bs_websocket_frame_begin_callback := bs_websocket_frame_begin_callback b;
     bs_websocket_frame_payload_callback := bs_websocket_frame_payload_callback b;
     bs_websocket_frame_complete_callback := bs_websocket_frame_complete_callback b;
     bs_request_path := bs_request_path b;
     bs_request_header_array := bs_request_header_array b;
     bs_num_request_headers := bs_num_request_headers b;
     bs_request_storage := bs_request_storage b;
     bs_response_status := bs_response_status b;
     bs_response_headers := v;
     bs_response_storage := bs_response_storage b;
     bs_setup_error_code := bs_setup_error_code b;
     bs_websocket := bs_websocket b |}.

Definition set_bs_response_storage (v : aws_byte_buf)
  (b : aws_websocket_client_bootstrap) : aws_websocket_client_bootstrap :=
  {| bs_alloc := bs_alloc b;
     bs_initial_window_size := bs_initial_window_size b;
     bs_user_data := bs_user_data b;
     bs_websocket_setup_callback := bs_websocket_setup_callback b;
     bs_websocket_shutdown_callback := bs_websocket_shutdown_callback b;
     bs_websocket_frame_begin_callback := bs_websocket_frame_begin_callback b;
     bs_websocket_frame_payload_callback := bs_websocket_frame_payload_callback b;
     bs_websocket_frame_complete_callback := bs_websocket_frame_complete_callback b;
     bs_request_path := bs_request_path b;
     bs_request_header_array := bs_request_header_array b;
     bs_num_request_headers := bs_num_request_headers b;
     bs_request_storage := bs_request_storage b;
     bs_response_status := bs_response_status b;
     bs_response_headers := bs_response_headers b;
     bs_response_storage := v;
     bs_setup_error_code := bs_setup_error_code b;
     bs_websocket := bs_websocket b |}.

Definition set_bs_setup_error_code (v : Z)
  (b : aws_websocket_client_bootstrap) : aws_websocket_client_bootstrap :=
  {| bs_alloc := bs_alloc b;
     bs_initial_window_size := bs_initial_window_size b;
     bs_user_data := bs_user_data b;
     bs_websocket_setup_callback := bs_websocket_setup_callback b;
     bs_websocket_shutdown_callback := bs_websocket_shutdown_callback b;
     bs_websocket_frame_begin_callback := bs_websocket_frame_begin_callback b;
     bs_websocket_frame_payload_callback := bs_websocket_frame_payload_callback b;
     bs_websocket_frame_complete_callback := bs_websocket_frame_complete_callback b;
     bs_request_path := bs_request_path b;
     bs_request_header_array := bs_request_header_array b;
     bs_num_request_headers := bs_num_request_headers b;
     bs_request_storage := bs_request_storage b;
     bs_response_status := bs_response_status b;
     bs_response_headers := bs_response_headers b;
     bs_response_storage := bs_response_storage b;
     bs_setup_error_code := v;
     bs_websocket := bs_websocket b |}.

Definition set_bs_websocket (v : option aws_websocket)
  (b : aws_websocket_client_bootstrap) : aws_websocket_client_bootstrap :=
  {| bs_alloc := bs_alloc b;
     bs_initial_window_size := bs_initial_window_size b;
     bs_user_data := bs_user_data b;
     bs_websocket_setup_callback := bs_websocket_setup_callback b;
     bs_websocket_shutdown_callback := bs_websocket_shutdown_callback b;
     bs_websocket_frame_begin_callback := bs_websocket_frame_begin_callback b;
     bs_websocket_frame_payload_callback := bs_websocket_frame_payload_callback b;
     bs_websocket_frame_complete_callback := bs_websocket_frame_complete_callback b;
     bs_request_path := bs_request_path b;
     bs_request_header_array := bs_request_header_array b;
     bs_num_request_headers := bs_num_request_headers b;
     bs_request_storage := bs_request_storage b;
     bs_response_status := bs_response_status b;
     bs_response_headers := bs_response_headers b;
     bs_response_storage := bs_response_storage b;
     bs_setup_error_code := bs_setup_error_code b;
     bs_websocket := v |}.

(** ** Observable actions *)

(** What the bootstrap does to the outside: the user's callbacks it
    invokes (with their arguments; [header_array] and [num_headers] are
    one list) and the requests it makes of the HTTP layer. *)
Inductive event :=
| EvHttpClientConnect (http_options : aws_http_client_connection_options)
| EvSetupCallback (fn : fn_ptr) (websocket : option aws_websocket)
    (error_code : Z) (handshake_response_status : Z)
    (header_array : list aws_http_header) (user_data : void_ptr)
| EvShutdownCallback (fn : fn_ptr) (websocket : option aws_websocket)
    (error_code : Z) (user_data : void_ptr)
| EvConnectionClose (http_connection : aws_http_connection)
| EvConnectionRelease (http_connection : aws_http_connection)
| EvStreamRelease (stream : aws_http_stream)
| EvBootstrapDestroy.

(** ** The state *)

Record world := {
  http_library_initialized : bool;
  heap : list (option block);
  (** outcome of the allocations to come, in order ([false]: the
      allocator returns NULL); past its end every allocation succeeds *)
  alloc_plan : list bool;
  last_error : Z;
  (** the bootstrap handed to the HTTP layer as [user_data];
      [None] once it is released *)
  boot : option aws_websocket_client_bootstrap;
  trace : list event;
}.

Definition set_heap (v : list (option block)) (w : world) : world :=
  {| http_library_initialized := http_library_initialized w;
     heap := v; alloc_plan := alloc_plan w;
     last_error := last_error w; boot := boot w; trace := trace w |}.

Definition set_alloc_plan (v : list bool) (w : world) : world :=
  {| http_library_initialized := http_library_initialized w;
     heap := heap w; alloc_plan := v;
     last_error := last_error w; boot := boot w; trace := trace w |}.

Definition set_last_error (v : Z) (w : world) : world :=
  {| http_library_initialized := http_library_initialized w;
     heap := heap w; alloc_plan := alloc_plan w;
     last_error := v; boot := boot w; trace := trace w |}.

Definition set_boot (v : option aws_websocket_client_bootstrap) (w : world) : world :=
  {| http_library_initialized := http_library_initialized w;
     heap := heap w; alloc_plan := alloc_plan w;
     last_error := last_error w; boot := v; trace := trace w |}.

Definition set_trace (v : list event) (w : world) : world :=
  {| http_library_initialized := http_library_initialized w;
     heap := heap w; alloc_plan := alloc_plan w;
     last_error := last_error w; boot := boot w; trace := v |}.

(** ** The monad *)

(** How an execution leaves the defined behaviour of the C program. *)
Inductive fault :=
| AssertFailed     (* AWS_ASSERT, AWS_FATAL_ASSERT *)
| NullCall         (* call through a NULL function pointer, NULL dereference *)
| UseAfterFree     (* the bootstrap or a block is used after its release *)
| OutOfBounds.     (* write past the end of a block *)

Inductive result (A : Type) :=
| Ok (a : A) (w : world)
| Fault (f : fault).
Arguments Ok {A} a w.
Arguments Fault {A} f.

Definition M (A : Type) : Type := world -> result A.

Definition ret {A} (a : A) : M A := fun w => Ok a w.

Definition bind {A B} (m : M A) (k : A -> M B) : M B :=
  fun w => match m w with
           | Ok a w' => k a w'
           | Fault f => Fault f
           end.

Definition fail {A} (f : fault) : M A := fun _ => Fault f.

Notation "x <- c ;; k" := (bind c (fun x => k))
  (at level 100, c at next level, right associativity).
Notation "c ;; k" := (bind c (fun _ => k))
  (at level 100, right associativity).

Definition get : M world := fun w => Ok w w.
Definition modify (f : world -> world) : M unit := fun w => Ok tt (f w).
Definition emit (e : event) : M unit :=
  modify (fun w => set_trace (trace w ++ [e]) w).

Definition AWS_ASSERT (b : bool) : M unit :=
  if b then ret tt else fail AssertFailed.

Definition AWS_FATAL_ASSERT (b : bool) : M unit :=
  if b then ret tt else fail AssertFailed.

Definition aws_raise_error (e : Z) : M Z :=
  modify (set_last_error e) ;; ret AWS_OP_ERR.

Definition aws_last_error : M Z := fun w => Ok (last_error w) w.

Definition aws_http_fatal_assert_library_initialized : M unit :=
  w <- get ;; AWS_FATAL_ASSERT (http_library_initialized w).

(** [ws_bootstrap = user_data]: the handlers reach the bootstrap through
    the pointer the HTTP layer hands back. *)
Definition get_bootstrap : M aws_websocket_client_bootstrap :=
  fun w => match boot w with
           | Some b => Ok b w
           | None => Fault UseAfterFree
           end.

Definition put_bootstrap (b : aws_websocket_client_bootstrap) : M unit :=
  modify (set_boot (Some b)).

(** ** The allocator and the byte buffers of aws-c-common *)

(** One allocation: the next entry of the plan decides whether the
    allocator returns NULL, which raises [AWS_ERROR_OOM]. *)
Definition take_alloc `{Platform} : M bool :=
  fun w => match alloc_plan w with
           | false :: rest => Ok false (set_last_error AWS_ERROR_OOM (set_alloc_plan rest w))
           | true :: rest => Ok true (set_alloc_plan rest w)
           | [] => Ok true w
           end.

(** [aws_mem_calloc] for the bootstrap and its header array, which live in
    the state as values: only whether the allocation succeeded matters. *)
Definition aws_mem_calloc `{Platform} : M bool := take_alloc.

(** [aws_mem_acquire] for byte storage: a fresh, empty block. *)
Definition aws_mem_acquire `{Platform} (size : Z) : M (option nat) :=
  ok <- take_alloc ;;
  if ok
  then fun w =>
         Ok (Some (length (heap w)))
            (set_heap (heap w ++ [Some {| blk_size := size; blk_bytes := [] |}]) w)
  else ret None.

(** [aws_mem_release] of byte storage. *)
Definition aws_mem_release (b : nat) : M unit :=
  fun w => match heap_get (heap w) b with
           | Some _ => Ok tt (set_heap (<[b := None]> (heap w)) w)
           | None => Fault UseAfterFree
           end.

(** [memcpy(buffer + off, src, len)] into a byte buffer's storage. *)
Definition memcpy_to (buffer : option nat) (off : Z) (src : bytes) : M unit :=
  match buffer with
  | None => if byte_len src =? 0 then ret tt else fail NullCall
  | Some b =>
      fun w =>
        match heap_get (heap w) b with
        | None => Fault UseAfterFree
        | Some blk =>
            if (0 <=? off) && (off <=? byte_len (blk_bytes blk))
               && (off + byte_len src <=? blk_size blk)
            then Ok tt (set_heap
                          (<[b := Some {| blk_size := blk_size blk;
                                          blk_bytes := take (Z.to_nat off) (blk_bytes blk) ++ src
                                                       ++ drop (Z.to_nat (off + byte_len src)) (blk_bytes blk) |}]>
                             (heap w)) w)
            else Fault OutOfBounds
        end
  end.

(** [aws_byte_buf_init(buf, alloc, capacity)] *)
Definition aws_byte_buf_init `{Platform} (capacity : Z) : M (Z * aws_byte_buf) :=
  if capacity =? 0
  then ret (AWS_OP_SUCCESS, {| buf_len := 0; buf_buffer := None; buf_capacity := 0 |})
  else
    b <- aws_mem_acquire capacity ;;
    match b with
    | None => ret (AWS_OP_ERR, zero_buf)
    | Some blk =>
        ret (AWS_OP_SUCCESS, {| buf_len := 0; buf_buffer := Some blk; buf_capacity := capacity |})
    end.

(** [aws_byte_buf_clean_up(buf)] *)
Definition aws_byte_buf_clean_up (buf : aws_byte_buf) : M unit :=
  match buf_buffer buf with
  | Some b => aws_mem_release b
  | None => ret tt
  end.

(** Modelled from the spec: the fixed-mode [write] of the byte arena
    ([aws_byte_buf_write_from_whole_cursor] of aws-c-common, not part of
    these sources): the bytes must fit in the remaining capacity, or the
    write fails and changes nothing; it never grows the buffer. *)
Definition aws_byte_buf_write_from_whole_cursor (buf : aws_byte_buf) (src : bytes)
  : M (bool * aws_byte_buf) :=
  if buf_len buf + byte_len src <=? buf_capacity buf
  then
    memcpy_to (buf_buffer buf) (buf_len buf) src ;;
    ret (true, {| buf_len := buf_len buf + byte_len src;
                  buf_buffer := buf_buffer buf;
                  buf_capacity := buf_capacity buf |})
  else ret (false, buf).

(** Modelled from the spec: the growable-mode [write] of the byte arena
    ([aws_byte_buf_append_dynamic] of aws-c-common, not part of these
    sources): when the bytes do not fit, it acquires new storage (at least
    twice the old capacity), copies the existing bytes forward, appends,
    and releases the old storage; it fails, changing nothing, when the
    allocator does. *)
Definition aws_byte_buf_append_dynamic `{Platform} (buf : aws_byte_buf) (from : bytes)
  : M (Z * aws_byte_buf) :=
  if buf_capacity buf - buf_len buf <? byte_len from
  then
    let required_capacity := buf_len buf + byte_len from in
    let new_capacity := Z.max required_capacity (buf_capacity buf + buf_capacity buf) in
    w <- get ;;
    match load (heap w) {| p_base := buf_buffer buf; p_off := 0 |} (buf_len buf) with
    | None => fail UseAfterFree
    | Some old =>
        new_buffer <- aws_mem_acquire new_capacity ;;
        match new_buffer with
        | None => ret (AWS_OP_ERR, buf)
        | Some nb =>
            memcpy_to (Some nb) 0 old ;;
            memcpy_to (Some nb) (buf_len buf) from ;;
            aws_byte_buf_clean_up buf ;;
            ret (AWS_OP_SUCCESS, {| buf_len := buf_len buf + byte_len from;
                                    buf_buffer := Some nb;
                                    buf_capacity := new_capacity |})
        end
    end
  else
    memcpy_to (buf_buffer buf) (buf_len buf) from ;;
    ret (AWS_OP_SUCCESS, {| buf_len := buf_len buf + byte_len from;
                            buf_buffer := buf_buffer buf;
                            buf_capacity := buf_capacity buf |}).

(** [aws_array_list_init_dynamic(list, alloc, initial_item_allocation, item_size)] *)
Definition aws_array_list_init_dynamic `{Platform} (initial_item_allocation : Z)
  : M (Z * aws_array_list) :=
  if 0 <? initial_item_allocation
  then
    ok <- take_alloc ;;
    if ok
    then ret (AWS_OP_SUCCESS, {| al_capacity := initial_item_allocation; al_items := [] |})
    else ret (AWS_OP_ERR, zero_array_list)
  else ret (AWS_OP_SUCCESS, zero_array_list).

(** [aws_array_list_push_back(list, val)]: a full list grows by a new
    allocation, and the push fails, changing nothing, when that fails. *)
Definition aws_array_list_push_back `{Platform} (l : aws_array_list) (val : aws_http_header)
  : M (Z * aws_array_list) :=
  if aws_array_list_length l <? al_capacity l
  then ret (AWS_OP_SUCCESS, {| al_capacity := al_capacity l; al_items := al_items l ++ [val] |})
  else
    ok <- take_alloc ;;
    if ok
    then ret (AWS_OP_SUCCESS,
              {| al_capacity := Z.max (al_capacity l + al_capacity l) (aws_array_list_length l + 1);
                 al_items := al_items l ++ [val] |})
    else ret (AWS_OP_ERR, l).

(** ** The HTTP layer *)

(** Functions of aws-c-http outside these sources whose outcome the
    bootstrap branches on.  A failing call returns the error it raised. *)
Class Collaborators := {
  (** [None]: AWS_OP_SUCCESS; [Some e]: AWS_OP_ERR after raising [e] *)
  aws_http_client_connect : aws_http_client_connection_options -> option Z;
  (** [inl e]: NULL after raising [e] *)
  aws_http_stream_new_client_request : aws_http_request_options -> Z + aws_http_stream;
  aws_http_connection_get_channel : aws_http_connection -> aws_channel;
  (** [inl e]: NULL after raising [e] *)
  aws_websocket_handler_new : aws_websocket_handler_options -> Z + aws_websocket;
}.

Definition aws_http_connection_close (c : aws_http_connection) : M unit :=
  emit (EvConnectionClose c).

Definition aws_http_connection_release (c : aws_http_connection) : M unit :=
  emit (EvConnectionRelease c).

Definition aws_http_stream_release (s : aws_http_stream) : M unit :=
  emit (EvStreamRelease s).

Definition aws_http_stream_get_connection (s : aws_http_stream) : aws_http_connection :=
  owning_connection s.

(** Modelled from the spec: [aws_http_stream_get_incoming_response_status]
    (request_response.c is not part of these sources) reads the response
    status from the stream handle. *)
Definition aws_http_stream_get_incoming_response_status (s : aws_http_stream) : Z :=
  incoming_response_status s.

(** ** websocket_bootstrap.c *)

Section Bootstrap.
Context `{Platform} `{Collaborators}.

(** The bootstrap after [aws_mem_calloc] and the assignments that copy
    the options in, with the request and response data as given (all
    zero until they are set up). *)
Definition make_bootstrap (options : aws_websocket_client_connection_options)
    (request_path : aws_byte_cursor)
    (request_header_array : option (list aws_http_header))
    (num_request_headers : Z)
    (request_storage : aws_byte_buf)
    (response_headers : aws_array_list)
    (response_storage : aws_byte_buf) : aws_websocket_client_bootstrap :=
  {| bs_alloc := co_allocator options;
     bs_initial_window_size := co_initial_window_size options;
     bs_user_data := co_user_data options;
     bs_websocket_setup_callback := co_on_connection_setup options;
     bs_websocket_shutdown_callback := co_on_connection_shutdown options;
     bs_websocket_frame_begin_callback := co_on_incoming_frame_begin options;
     bs_websocket_frame_payload_callback := co_on_incoming_frame_payload options;
     bs_websocket_frame_complete_callback := co_on_incoming_frame_complete options;
     bs_request_path := request_path;
     bs_request_header_array := request_header_array;
     bs_num_request_headers := num_request_headers;
     bs_request_storage := request_storage;
     bs_response_status := AWS_HTTP_STATUS_UNKNOWN;
     bs_response_headers := response_headers;
     bs_response_storage := response_storage;
     bs_setup_error_code := 0;
     bs_websocket := None |}.

Definition s_ws_bootstrap_destroy (ws_bootstrap : option aws_websocket_client_bootstrap)
  : M unit :=
  match ws_bootstrap with
  | None => ret tt
  | Some b =>
      aws_byte_buf_clean_up (bs_request_storage b) ;;
      aws_byte_buf_clean_up (bs_response_storage b) ;;
      modify (set_boot None) ;;
      emit EvBootstrapDestroy
  end.

(** The first loop of [aws_websocket_client_connect]: the size of the
    request storage, summed in [size_t]. *)
Definition request_storage_size (path : bytes) (headers : list header_bytes) : Z :=
  fold_left
    (fun size h => size_wrap (size_wrap (size + byte_len (hb_name h)) + byte_len (hb_value h)))
    headers (byte_len path).

(** The second loop: each header's name and value written to the request
    storage, the destination record pointing at where each went;
    [write_success] accumulates the results of the writes. *)
Fixpoint copy_request_headers (src : list header_bytes) (storage : aws_byte_buf)
    (write_success : bool) : M (list aws_http_header * aws_byte_buf * bool) :=
  match src with
  | [] => ret ([], storage, write_success)
  | h :: rest =>
      let name := {| cur_len := byte_len (hb_name h); cur_ptr := buf_end storage |} in
      r1 <- aws_byte_buf_write_from_whole_cursor storage (hb_name h) ;;
      let value := {| cur_len := byte_len (hb_value h); cur_ptr := buf_end (snd r1) |} in
      r2 <- aws_byte_buf_write_from_whole_cursor (snd r1) (hb_value h) ;;
      r <- copy_request_headers rest (snd r2) (write_success && fst r1 && fst r2) ;;
      ret ({| hdr_name := name; hdr_value := value |} :: fst (fst r), snd (fst r), snd r)
  end.

(** The loop over [s_scheme_ports], leaving at the first match. *)
Fixpoint scheme_port_loop (scheme : bytes) (table : list scheme_port) (port : Z) : Z :=
  match table with
  | [] => port
  | entry :: rest =>
      if aws_byte_cursor_eq_ignore_case scheme (sp_scheme entry)
      then sp_port entry
      else scheme_port_loop scheme rest port
  end.

(** "Infer port, if not explicitly specified in URI" *)
Definition infer_port (uri : aws_uri) (tls_options : option aws_tls_connection_options) : Z :=
  let port := uri_port uri in
  if port =? 0
  then
    let port := scheme_port_loop (uri_scheme uri) s_scheme_ports port in
    if port =? 0
    then (if non_null tls_options then 443 else 80)
    else port
  else port.

(** The [error:] label of [aws_websocket_client_connect]. *)
Definition connect_error (ws_bootstrap : option aws_websocket_client_bootstrap) : M Z :=
  s_ws_bootstrap_destroy ws_bootstrap ;; ret AWS_OP_ERR.

Definition aws_websocket_client_connect
    (options : aws_websocket_client_connection_options) : M Z :=
  aws_http_fatal_assert_library_initialized ;;
  (* Validate options *)
  if negb (non_null (co_allocator options)) || negb (non_null (co_bootstrap options))
     || negb (non_null (co_socket_options options)) || negb (non_null (co_uri options))
     || negb (non_null (co_on_connection_setup options))
  then aws_raise_error AWS_ERROR_INVALID_ARGUMENT
  else
    let all_frame_callbacks_set :=
      non_null (co_on_incoming_frame_begin options)
      && non_null (co_on_incoming_frame_payload options)
      && non_null (co_on_incoming_frame_begin options) in
    let no_frame_callbacks_set :=
      negb (non_null (co_on_incoming_frame_begin options))
      && negb (non_null (co_on_incoming_frame_payload options))
      && negb (non_null (co_on_incoming_frame_begin options)) in
    if all_frame_callbacks_set || no_frame_callbacks_set
    then aws_raise_error AWS_ERROR_INVALID_ARGUMENT
    else if negb (non_null (co_handshake_header_array options))
            || (co_num_handhake_headers options =? 0)
    then aws_raise_error AWS_ERROR_INVALID_ARGUMENT
    else
      match co_uri options, co_handshake_header_array options with
      | Some uri, Some handshake_header_array =>
          (* Create bootstrap *)
          ok <- aws_mem_calloc ;;
          if negb ok then connect_error None
          else
            let num_handhake_headers := co_num_handhake_headers options in
            let path := uri_path_and_query uri in
            (* Deep-copy all request headers, plus the request path. *)
            let size := request_storage_size path handshake_header_array in
            r <- aws_byte_buf_init size ;;
            if negb (fst r =? 0)
            then connect_error
                   (Some (make_bootstrap options null_cursor None 0 (snd r)
                            zero_array_list zero_buf))
            else
              let request_path := {| cur_len := byte_len path; cur_ptr := buf_end (snd r) |} in
              wr <- aws_byte_buf_write_from_whole_cursor (snd r) path ;;
              ok <- aws_mem_calloc ;;
              if negb ok
              then connect_error
                     (Some (make_bootstrap options request_path None num_handhake_headers
                              (snd wr) zero_array_list zero_buf))
              else
                cp <- copy_request_headers handshake_header_array (snd wr) (fst wr) ;;
                let request_header_array := Some (fst (fst cp)) in
                let request_storage := snd (fst cp) in
                AWS_ASSERT (snd cp) ;;
                (* Pre-allocate space for response headers *)
                let estimated_response_headers := size_wrap (num_handhake_headers + 10) in
                let estimated_response_header_length := 64 in
                rh <- aws_array_list_init_dynamic estimated_response_headers ;;
                if negb (fst rh =? 0)
                then connect_error
                       (Some (make_bootstrap options request_path request_header_array
                                num_handhake_headers request_storage (snd rh) zero_buf))
                else
                  rs <- aws_byte_buf_init
                          (size_wrap (estimated_response_headers * estimated_response_header_length)) ;;
                  let ws_bootstrap :=
                    make_bootstrap options request_path request_header_array
                      num_handhake_headers request_storage (snd rh) (snd rs) in
                  if negb (fst rs =? 0) then connect_error (Some ws_bootstrap)
                  else
                    (* Initiate HTTP connection *)
                    let http_options :=
                      {| ho_allocator := bs_alloc ws_bootstrap;
                         ho_bootstrap := co_bootstrap options;
                         ho_host_name := uri_host_name uri;
                         ho_socket_options := co_socket_options options;
                         ho_tls_options := co_tls_options options;
                         ho_initial_window_size := 1024;
                         ho_port := infer_port uri (co_tls_options options) |} in
                    put_bootstrap ws_bootstrap ;;
                    emit (EvHttpClientConnect http_options) ;;
                    match aws_http_client_connect http_options with
                    | Some e =>
                        modify (set_last_error e) ;;
                        connect_error (Some ws_bootstrap)
                    | None => ret AWS_OP_SUCCESS
                    end
      | _, _ => fail NullCall
      end.

(** The user's setup callback, called through the bootstrap's pointer. *)
Definition call_websocket_setup_callback (ws_bootstrap : aws_websocket_client_bootstrap)
    (websocket : option aws_websocket) (error_code status : Z)
    (header_array : list aws_http_header) : M unit :=
  match bs_websocket_setup_callback ws_bootstrap with
  | Some fn =>
      emit (EvSetupCallback fn websocket error_code status header_array
              (bs_user_data ws_bootstrap))
  | None => fail NullCall
  end.

Definition s_ws_bootstrap_cancel_setup_due_to_err
    (http_connection : aws_http_connection) (error_code : Z) : M unit :=
  AWS_ASSERT (negb (error_code =? 0)) ;;
  ws_bootstrap <- get_bootstrap ;;
  if bs_setup_error_code ws_bootstrap =? 0
  then
    put_bootstrap (set_bs_setup_error_code error_code ws_bootstrap) ;;
    aws_http_connection_close http_connection
  else ret tt.

Definition s_ws_bootstrap_on_http_setup
    (http_connection : option aws_http_connection) (error_code : Z) : M unit :=
  ws_bootstrap <- get_bootstrap ;;
  (* Setup callback contract is: if error_code is non-zero then connection is NULL. *)
  AWS_FATAL_ASSERT (Bool.eqb (negb (error_code =? 0)) (negb (non_null http_connection))) ;;
  if negb (error_code =? 0)
  then
    call_websocket_setup_callback ws_bootstrap None error_code AWS_HTTP_STATUS_UNKNOWN [] ;;
    s_ws_bootstrap_destroy (Some ws_bootstrap)
  else
    match http_connection with
    | None => fail NullCall
    | Some connection =>
        (* Send the handshake request *)
        let options :=
          {| ro_client_connection := connection;
             ro_method := list_byte_of_string "GET";
             ro_uri := bs_request_path ws_bootstrap;
             ro_header_array := bs_request_header_array ws_bootstrap;
             ro_num_headers := bs_num_request_headers ws_bootstrap |} in
        match aws_http_stream_new_client_request options with
        | inr handshake_stream => ret tt
        | inl e =>
            modify (set_last_error e) ;;
            err <- aws_last_error ;;
            s_ws_bootstrap_cancel_setup_due_to_err connection err
        end
    end.

Definition s_ws_bootstrap_on_http_shutdown
    (http_connection : aws_http_connection) (error_code : Z) : M unit :=
  ws_bootstrap <- get_bootstrap ;;
  (if non_null (bs_websocket_setup_callback ws_bootstrap)
   then
     AWS_ASSERT (negb (non_null (bs_websocket ws_bootstrap))) ;;
     (* Ensure non-zero error_code is passed *)
     let error_code :=
       if error_code =? 0
       then
         let error_code := bs_setup_error_code ws_bootstrap in
         if error_code =? 0 then AWS_ERROR_UNKNOWN else error_code
       else error_code in
     (* Pass response data (if any) *)
     call_websocket_setup_callback ws_bootstrap None error_code
       (bs_response_status ws_bootstrap) (al_items (bs_response_headers ws_bootstrap))
   else if non_null (bs_websocket_shutdown_callback ws_bootstrap)
   then
     AWS_ASSERT (non_null (bs_websocket ws_bootstrap)) ;;
     match bs_websocket_shutdown_callback ws_bootstrap with
     | Some fn =>
         emit (EvShutdownCallback fn (bs_websocket ws_bootstrap) error_code
                 (bs_user_data ws_bootstrap))
     | None => fail NullCall
     end
   else ret tt) ;;
  (* Clean up HTTP connection and websocket-bootstrap. *)
  aws_http_connection_release http_connection ;;
  s_ws_bootstrap_destroy (Some ws_bootstrap).

(** The loop of [s_ws_bootstrap_on_handshake_response_headers]; it returns
    [false] where the C code jumps to [error:]. *)
Fixpoint copy_response_headers (header_array : list header_bytes) : M bool :=
  match header_array with
  | [] => ret true
  | src_header :: rest =>
      ws_bootstrap <- get_bootstrap ;;
      let name := {| cur_len := byte_len (hb_name src_header);
                     cur_ptr := buf_end (bs_response_storage ws_bootstrap) |} in
      r1 <- aws_byte_buf_append_dynamic (bs_response_storage ws_bootstrap) (hb_name src_header) ;;
      put_bootstrap (set_bs_response_storage (snd r1) ws_bootstrap) ;;
      if negb (fst r1 =? 0) then ret false
      else
        ws_bootstrap <- get_bootstrap ;;
        let value := {| cur_len := byte_len (hb_value src_header);
                        cur_ptr := buf_end (bs_response_storage ws_bootstrap) |} in
        r2 <- aws_byte_buf_append_dynamic (bs_response_storage ws_bootstrap)
                (hb_value src_header) ;;
        put_bootstrap (set_bs_response_storage (snd r2) ws_bootstrap) ;;
        if negb (fst r2 =? 0) then ret false
        else
          ws_bootstrap <- get_bootstrap ;;
          let dst_header := {| hdr_name := name; hdr_value := value |} in
          r3 <- aws_array_list_push_back (bs_response_headers ws_bootstrap) dst_header ;;
          put_bootstrap (set_bs_response_headers (snd r3) ws_bootstrap) ;;
          if negb (fst r3 =? 0) then ret false
          else copy_response_headers rest
  end.

Definition s_ws_bootstrap_on_handshake_response_headers
    (stream : aws_http_stream) (header_array : list header_bytes) : M unit :=
  ok <- copy_response_headers header_array ;;
  if ok then ret tt
  else
    err <- aws_last_error ;;
    s_ws_bootstrap_cancel_setup_due_to_err (aws_http_stream_get_connection stream) err.

(** The [error:] label of [s_ws_bootstrap_on_handshake_complete]. *)
Definition handshake_complete_error (stream : aws_http_stream)
    (http_connection : aws_http_connection) (error_code : Z) : M unit :=
  error_code <- (if error_code =? 0 then aws_last_error else ret error_code) ;;
  s_ws_bootstrap_cancel_setup_due_to_err http_connection error_code ;;
  aws_http_stream_release stream.

Definition s_ws_bootstrap_on_handshake_complete
    (stream : aws_http_stream) (error_code : Z) : M unit :=
  ws_bootstrap <- get_bootstrap ;;
  let http_connection := aws_http_stream_get_connection stream in
  if negb (error_code =? 0)
  then handshake_complete_error stream http_connection error_code
  else
    (* Get data from stream *)
    let ws_bootstrap :=
      set_bs_response_status (aws_http_stream_get_incoming_response_status stream)
        ws_bootstrap in
    put_bootstrap ws_bootstrap ;;
    (* Verify handshake response. RFC-6455 Section 1.3 *)
    if negb (bs_response_status ws_bootstrap =? AWS_HTTP_STATUS_101_SWITCHING_PROTOCOLS)
    then
      aws_raise_error AWS_ERROR_HTTP_WEBSOCKET_UPGRADE_FAILURE ;;
      handshake_complete_error stream http_connection error_code
    else
      (* Insert websocket handler into channel *)
      let channel := aws_http_connection_get_channel http_connection in
      let ws_options :=
        {| wo_allocator := bs_alloc ws_bootstrap;
           wo_channel := channel;
           wo_initial_window_size := bs_initial_window_size ws_bootstrap;
           wo_user_data := bs_user_data ws_bootstrap;
           wo_on_incoming_frame_begin := bs_websocket_frame_begin_callback ws_bootstrap;
           wo_on_incoming_frame_payload := bs_websocket_frame_payload_callback ws_bootstrap;
           wo_on_incoming_frame_complete := bs_websocket_frame_complete_callback ws_bootstrap;
           wo_is_server := false |} in
      match aws_websocket_handler_new ws_options with
      | inl e =>
          put_bootstrap (set_bs_websocket None ws_bootstrap) ;;
          modify (set_last_error e) ;;
          handshake_complete_error stream http_connection error_code
      | inr websocket =>
          let ws_bootstrap := set_bs_websocket (Some websocket) ws_bootstrap in
          put_bootstrap ws_bootstrap ;;
          (* Success! Setup complete! *)
          call_websocket_setup_callback ws_bootstrap (bs_websocket ws_bootstrap) 0
            (bs_response_status ws_bootstrap)
            (al_items (bs_response_headers ws_bootstrap)) ;;
          (* Clear setup callback so that we know that it's been invoked. *)
          put_bootstrap (set_bs_websocket_setup_callback None ws_bootstrap) ;;
          aws_http_stream_release stream
      end.

End Bootstrap.

(** ** The callbacks of one connection attempt *)

(** The HTTP layer calls the bootstrap back through the four handlers it
    was given, with these arguments. *)
Inductive http_callback :=
| OnHttpSetup (http_connection : option aws_http_connection) (error_code : Z)
| OnResponseHeaders (stream : aws_http_stream) (header_array : list header_bytes)
| OnHandshakeComplete (stream : aws_http_stream) (error_code : Z)
| OnHttpShutdown (http_connection : aws_http_connection) (error_code : Z).

Section Lifetime.
Context `{Platform} `{Collaborators}.

Definition dispatch (c : http_callback) : M unit :=
  match c with
  | OnHttpSetup http_connection error_code =>
      s_ws_bootstrap_on_http_setup http_connection error_code
  | OnResponseHeaders stream header_array =>
      s_ws_bootstrap_on_handshake_response_headers stream header_array
  | OnHandshakeComplete stream error_code =>
      s_ws_bootstrap_on_handshake_complete stream error_code
  | OnHttpShutdown http_connection error_code =>
      s_ws_bootstrap_on_http_shutdown http_connection error_code
  end.

Fixpoint run (cs : list http_callback) : M unit :=
  match cs with
  | [] => ret tt
  | c :: rest => dispatch c ;; run rest
  end.

End Lifetime.

(** What the HTTP layer promises about the order of its callbacks: after a
    connection is set up, header batches arrive (any number), the
    handshake stream completes at most once, after its headers, and the
    connection's shutdown comes last, once. *)
Fixpoint after_setup (cs : list http_callback) : bool :=
  match cs with
  | [OnHttpShutdown _ _] => true
  | [OnHandshakeComplete _ _; OnHttpShutdown _ _] => true
  | OnResponseHeaders _ _ :: rest => after_setup rest
  | _ => false
  end.

(** A whole lifetime: the setup fails (error, no connection) and nothing
    follows, or it succeeds and the callbacks above follow. *)
Definition lifetime (cs : list http_callback) : bool :=
  match cs with
  | [OnHttpSetup None error_code] => negb (error_code =? 0)
  | OnHttpSetup (Some _) 0 :: rest => after_setup rest
  | _ => false
  end.

(** * Reasoning about computations *)

(** [returns m w Q]: if [m] returns from [w], [Q] holds of the result and
    the final state.  [succeeds m w Q]: [m] does return from [w] (no
    fault), and [Q] holds. *)
Definition returns {A} (m : M A) (w : world) (Q : A -> world -> Prop) : Prop :=
  forall a w', m w = Ok a w' -> Q a w'.

Definition succeeds {A} (m : M A) (w : world) (Q : A -> world -> Prop) : Prop :=
  exists a w', m w = Ok a w' /\ Q a w'.

(** [quiet m]: [m] leaves the trace as it is. *)
Definition quiet {A} (m : M A) : Prop :=
  forall w, returns m w (fun _ w' => trace w' = trace w).

(** * Vocabulary of the properties *)

(** Two byte strings are the same up to ASCII case. *)
Definition same_ignoring_case (a b : bytes) : Prop :=
  map to_lower a = map to_lower b.

Definition scheme_is (uri : aws_uri) (name : string) : Prop :=
  same_ignoring_case (uri_scheme uri) (list_byte_of_string name).

(** The port rule in the words of the specification: an explicit port
    wins; otherwise http and ws give 80, https and wss give 443; otherwise
    443 with TLS options and 80 without. *)
Definition port_rule (uri : aws_uri) (tls_options : option aws_tls_connection_options)
    (port : Z) : Prop :=
  (uri_port uri <> 0 -> port = uri_port uri) /\
  (uri_port uri = 0 -> scheme_is uri "http" \/ scheme_is uri "ws" -> port = 80) /\
  (uri_port uri = 0 -> scheme_is uri "https" \/ scheme_is uri "wss" -> port = 443) /\
  (uri_port uri = 0 ->
   ~ scheme_is uri "http" -> ~ scheme_is uri "ws" ->
   ~ scheme_is uri "https" -> ~ scheme_is uri "wss" ->
   port = match tls_options with Some _ => 443 | None => 80 end).

(** [buf_holds h buf content]: the byte buffer [buf] is in order in the
    heap [h] and the bytes written to it are [content]. *)
Definition buf_holds (h : list (option block)) (buf : aws_byte_buf) (content : bytes) : Prop :=
  byte_len content = buf_len buf /\
  buf_len buf <= buf_capacity buf /\
  match buf_buffer buf with
  | None => buf_capacity buf = 0
  | Some b => heap_get h b
              = Some {| blk_size := buf_capacity buf; blk_bytes := content |}
  end.

(** The bytes of a header list in the order they are written. *)
Definition header_stream (hs : list header_bytes) : bytes :=
  flat_map (fun h => hb_name h ++ hb_value h) hs.

(** The records of headers written one after the other from offset [off]
    of the storage at [base]. *)
Fixpoint layout (base : option nat) (off : Z) (hs : list header_bytes)
  : list aws_http_header :=
  match hs with
  | [] => []
  | h :: rest =>
      {| hdr_name := {| cur_len := byte_len (hb_name h);
                        cur_ptr := {| p_base := base; p_off := off |} |};
         hdr_value := {| cur_len := byte_len (hb_value h);
                         cur_ptr := {| p_base := base;
                                       p_off := off + byte_len (hb_name h) |} |} |}
      :: layout base (off + byte_len (hb_name h) + byte_len (hb_value h)) rest
  end.

(** [steady w w']: from [w] to [w'] only memory, the allocation plan and
    the last error may have changed. *)
Definition steady (w w' : world) : Prop :=
  http_library_initialized w' = http_library_initialized w /\
  boot w' = boot w /\
  trace w' = trace w.

(** The sum of the lengths of all header names and values. *)
Definition header_bytes_total (hs : list header_bytes) : Z :=
  fold_right (fun h n => byte_len (hb_name h) + byte_len (hb_value h) + n) 0 hs.

(** The storage of a byte buffer can be released: it is NULL or a live
    block. *)
Definition buf_live (h : list (option block)) (buf : aws_byte_buf) : Prop :=
  match buf_buffer buf with
  | Some b => exists blk, heap_get h b = Some blk
  | None => True
  end.

(** The request storage and the response storage are different blocks. *)
Definition storages_apart (bs : aws_websocket_client_bootstrap) : Prop :=
  match buf_buffer (bs_request_storage bs), buf_buffer (bs_response_storage bs) with
  | Some a, Some b => a <> b
  | _, _ => True
  end.

(** The state of the request data after a successful
    [aws_websocket_client_connect]: the request storage has exactly the
    capacity of the path and the headers, is full, and holds them in the
    order written; the stored path and header records read back as given. *)
Definition request_stored (uri : aws_uri) (headers : list header_bytes) (w' : world) : Prop :=
  exists bs request_headers,
    boot w' = Some bs /\
    buf_capacity (bs_request_storage bs)
    = byte_len (uri_path_and_query uri) + header_bytes_total headers /\
    buf_len (bs_request_storage bs) = buf_capacity (bs_request_storage bs) /\
    buf_holds (heap w') (bs_request_storage bs)
      (uri_path_and_query uri ++ header_stream headers) /\
    load_cursor (heap w') (bs_request_path bs) = Some (uri_path_and_query uri) /\
    bs_request_header_array bs = Some request_headers /\
    load_headers (heap w') request_headers = Some headers.

(** ** States of the bootstrap *)

(** The bootstrap [bs] is the one the HTTP layer holds, and its two
    storages are in order: both can be released, they are different
    blocks, and the response storage holds what was appended to it. *)
Definition bootstrap_ok (w : world) (bs : aws_websocket_client_bootstrap) : Prop :=
  boot w = Some bs /\
  buf_live (heap w) (bs_request_storage bs) /\
  (exists content, buf_holds (heap w) (bs_response_storage bs) content) /\
  storages_apart bs.

(** How many of the events satisfy [p]. *)
Definition count_events (p : event -> bool) (evs : list event) : nat :=
  length (List.filter p evs).

Definition is_user_callback (e : event) : bool :=
  match e with
  | EvSetupCallback _ _ _ _ _ _ => true
  | EvShutdownCallback _ _ _ _ => true
  | _ => false
  end.

Definition is_setup_callback (e : event) : bool :=
  match e with
  | EvSetupCallback _ _ _ _ _ _ => true
  | _ => false
  end.

Definition is_shutdown_callback (e : event) : bool :=
  match e with
  | EvShutdownCallback _ _ _ _ => true
  | _ => false
  end.

(** A setup callback that reports success: a websocket and error 0. *)
Definition is_setup_success (e : event) : bool :=
  match e with
  | EvSetupCallback _ (Some _) 0 _ _ _ => true
  | _ => false
  end.

(** What the HTTP layer promises about failing calls: the error they
    raise is not 0. *)
Definition collaborators_raise `{Collaborators} : Prop :=
  (forall o e, aws_http_stream_new_client_request o = inl e -> e <> 0) /\
  (forall o e, aws_websocket_handler_new o = inl e -> e <> 0).

(** The setup callback has not fired yet: the bootstrap is in order, its
    setup callback pointer is still set (to [fn]) and there is no
    websocket; its shutdown callback pointer is [sh]. *)
Definition pending_with (w : world) (fn : fn_ptr) (sh : option fn_ptr) : Prop :=
  exists bs,
    bootstrap_ok w bs /\
    bs_websocket_setup_callback bs = Some fn /\
    bs_websocket bs = None /\
    bs_websocket_shutdown_callback bs = sh.

(** The setup callback has reported success: the bootstrap is in order,
    its setup callback pointer is cleared and the websocket exists; its
    shutdown callback pointer is [sh]. *)
Definition established_with (w : world) (sh : option fn_ptr) : Prop :=
  exists bs,
    bootstrap_ok w bs /\
    bs_websocket_setup_callback bs = None /\
    bs_websocket bs <> None /\
    bs_websocket_shutdown_callback bs = sh.

(** The user callbacks among the events, in order. *)
Definition user_callbacks (evs : list event) : list event :=
  List.filter is_user_callback evs.

(** From [w] to [w'] only events that are no user callbacks happened. *)
Definition no_callback_since (w w' : world) : Prop :=
  exists evs, trace w' = trace w ++ evs /\ user_callbacks evs = [].

(** The user callbacks [s_ws_bootstrap_on_http_shutdown] makes for a
    bootstrap in state [bs]. *)
Definition shutdown_calls `{Platform} (bs : aws_websocket_client_bootstrap) (error_code : Z)
  : list event :=
  match bs_websocket_setup_callback bs with
  | Some fn =>
      [EvSetupCallback fn None
         (if error_code =? 0
          then (if bs_setup_error_code bs =? 0 then AWS_ERROR_UNKNOWN
                else bs_setup_error_code bs)
          else error_code)
         (bs_response_status bs) (al_items (bs_response_headers bs)) (bs_user_data bs)]
  | None =>
      match bs_websocket_shutdown_callback bs with
      | Some fn => [EvShutdownCallback fn (bs_websocket bs) error_code (bs_user_data bs)]
      | None => []
      end
  end.

Definition is_connection_release (e : event) : bool :=
  match e with
  | EvConnectionRelease _ => true
  | _ => false
  end.

Definition is_bootstrap_destroy (e : event) : bool :=
  match e with
  | EvBootstrapDestroy => true
  | _ => false
  end.

(** A sequence of cancellations on one bootstrap, one per error. *)
Fixpoint cancel_all `{Platform} (http_connection : aws_http_connection) (errors : list Z)
  : M unit :=
  match errors with
  | [] => ret tt
  | e :: rest =>
      s_ws_bootstrap_cancel_setup_due_to_err http_connection e ;;
      cancel_all http_connection rest
  end.

(** The error codes passed to the setup callback, in order. *)
Definition reported_setup_errors (evs : list event) : list Z :=
  flat_map (fun e => match e with
                     | EvSetupCallback _ _ error_code _ _ _ => [error_code]
                     | _ => []
                     end) evs.

Definition final_trace {A} (r : result A) : list event :=
  match r with
  | Ok _ w => trace w
  | Fault _ => []
  end.

(** The user callbacks of a whole lifetime: one failed setup callback, or
    one successful setup callback followed by the shutdown callback when
    there is one to call. *)
Definition callback_history (fn : fn_ptr) (sh : option fn_ptr) (calls : list event) : Prop :=
  (exists e st hs ud, calls = [EvSetupCallback fn None e st hs ud])
  \/ (exists ws st hs ud,
        match sh with
        | Some g =>
            exists ws' e ud',
              calls = [EvSetupCallback fn (Some ws) 0 st hs ud;
                       EvShutdownCallback g ws' e ud']
        | None => calls = [EvSetupCallback fn (Some ws) 0 st hs ud]
        end).

(** The header list the setup callback reads from the bootstrap's records
    in the state a computation ends in. *)
Definition captured_headers {A} (r : result A) : option (list header_bytes) :=
  match r with
  | Ok _ w =>
      match boot w with
      | Some bs => load_headers (heap w) (al_items (bs_response_headers bs))
      | None => None
      end
  | Fault _ => None
  end.

(** The bytes the response storage holds in the state a computation ends
    in. *)
Definition response_bytes {A} (r : result A) : option bytes :=
  match r with
  | Ok _ w =>
      match boot w with
      | Some bs =>
          load (heap w) {| p_base := buf_buffer (bs_response_storage bs); p_off := 0 |}
            (buf_len (bs_response_storage bs))
      | None => None
      end
  | Fault _ => None
  end.

(** Every live block of [h] is live in [h'] and holds there what it held,
    with possibly more bytes after it. *)
Definition heap_grows (h h' : list (option block)) : Prop :=
  forall b blk,
    heap_get h b = Some blk ->
    exists blk' more, heap_get h' b = Some blk' /\ blk_bytes blk' = blk_bytes blk ++ more.

(** The header batches of one response, handed to the bootstrap in
    order. *)
Definition deliver_headers `{Platform} (stream : aws_http_stream)
    (batches : list (list header_bytes)) : M unit :=
  fold_right (fun batch rest =>
                s_ws_bootstrap_on_handshake_response_headers stream batch ;; rest)
    (ret tt) batches.

(** * Examples *)

(** A concrete platform and HTTP layer, and states reached from them by
    evaluation. *)

Definition example_platform : Platform :=
  {| SIZE_MAX := 18446744073709551615;
     AWS_ERROR_OOM := 1;
     AWS_ERROR_UNKNOWN := 2;
     AWS_ERROR_INVALID_ARGUMENT := 33;
     AWS_ERROR_HTTP_WEBSOCKET_UPGRADE_FAILURE := 2065;
     AWS_HTTP_STATUS_UNKNOWN := -1 |}.

(** An HTTP layer in which every call succeeds; the stream it creates has
    no response yet. *)
Definition example_http : Collaborators :=
  {| aws_http_client_connect := fun _ => None;
     aws_http_stream_new_client_request := fun o =>
       inr {| owning_connection := ro_client_connection o;
              incoming_response_status := -1 |};
     aws_http_connection_get_channel := fun c => c;
     aws_websocket_handler_new := fun _ => inr 9%nat |}.

Definition example_uri : aws_uri :=
  {| uri_scheme := list_byte_of_string "ws";
     uri_host_name := list_byte_of_string "example.com";
     uri_port := 0;
     uri_path_and_query := list_byte_of_string "/chat" |}.

Definition example_headers : list header_bytes :=
  [ {| hb_name := list_byte_of_string "Upgrade";
       hb_value := list_byte_of_string "websocket" |};
    {| hb_name := list_byte_of_string "Connection";
       hb_value := list_byte_of_string "Upgrade" |} ].

(** Options with every required field, two handshake headers, and the
    frame callbacks as given. *)
Definition example_options (frame_begin frame_payload frame_complete : option fn_ptr)
  : aws_websocket_client_connection_options :=
  {| co_allocator := Some 1%nat;
     co_bootstrap := Some 2%nat;
     co_socket_options := Some 3%nat;
     co_tls_options := None;
     co_uri := Some example_uri;
     co_initial_window_size := 256;
     co_user_data := 42;
     co_handshake_header_array := Some example_headers;
     co_on_connection_setup := Some 10%nat;
     co_on_connection_shutdown := Some 11%nat;
     co_on_incoming_frame_begin := frame_begin;
     co_on_incoming_frame_payload := frame_payload;
     co_on_incoming_frame_complete := frame_complete |}.

Definition initial_world : world :=
  {| http_library_initialized := true;
     heap := [];
     alloc_plan := [];
     last_error := 0;
     boot := None;
     trace := [] |}.

(** The state after the example options (with a begin callback only) are
    connected from the initial state. *)
Definition example_connected_world : world :=
  Eval vm_compute in
    match aws_websocket_client_connect (H := example_platform) (H0 := example_http)
            (example_options (Some 12%nat) None None) initial_world with
    | Ok _ w => w
    | Fault _ => initial_world
    end.

(** The bootstrap of [example_connected_world]. *)
Definition example_bootstrap : aws_websocket_client_bootstrap :=
  Eval vm_compute in
    match boot example_connected_world with
    | Some b => b
    | None =>
        make_bootstrap (H := example_platform) (example_options None None None)
          null_cursor None 0 zero_buf zero_array_list zero_buf
    end.

Definition example_stream (status : Z) : aws_http_stream :=
  {| owning_connection := 5%nat; incoming_response_status := status |}.

(** The example options without a shutdown callback. *)
Definition example_options_no_shutdown : aws_websocket_client_connection_options :=
  {| co_allocator := Some 1%nat;
     co_bootstrap := Some 2%nat;
     co_socket_options := Some 3%nat;
     co_tls_options := None;
     co_uri := Some example_uri;
     co_initial_window_size := 256;
     co_user_data := 42;
     co_handshake_header_array := Some example_headers;
     co_on_connection_setup := Some 10%nat;
     co_on_connection_shutdown := None;
     co_on_incoming_frame_begin := Some 12%nat;
     co_on_incoming_frame_payload := None;
     co_on_incoming_frame_complete := None |}.

(** The state once a websocket is established for those options: the
    connection was set up and the handshake completed with status 101. *)
Definition example_established_world : world :=
  Eval vm_compute in
    match (aws_websocket_client_connect (H := example_platform) (H0 := example_http)
             example_options_no_shutdown ;;
           run (H := example_platform) (H0 := example_http)
             [OnHttpSetup (Some 5%nat) 0; OnHandshakeComplete (example_stream 101) 0])
            initial_world with
    | Ok _ w => w
    | Fault _ => initial_world
    end.

Definition example_established_bootstrap : aws_websocket_client_bootstrap :=
  Eval vm_compute in
    match boot example_established_world with
    | Some b => b
    | None => example_bootstrap
    end.

Definition example_short_header : header_bytes :=
  {| hb_name := list_byte_of_string "Upgrade";
     hb_value := list_byte_of_string "websocket" |}.

(** A response header whose value is longer than the 768 bytes the
    example's response storage starts with. *)
Definition example_long_header : header_bytes :=
  {| hb_name := list_byte_of_string "Set-Cookie";
     hb_value := List.repeat "x"%byte 800 |}.

(** * More vocabulary, for the properties beyond the specification *)

(** The request options [s_ws_bootstrap_on_http_setup] builds for the
    handshake. *)
Definition handshake_request (bs : aws_websocket_client_bootstrap)
    (http_connection : aws_http_connection) : aws_http_request_options :=
  {| ro_client_connection := http_connection;
     ro_method := list_byte_of_string "GET";
     ro_uri := bs_request_path bs;
     ro_header_array := bs_request_header_array bs;
     ro_num_headers := bs_num_request_headers bs |}.

(** The handler options [s_ws_bootstrap_on_handshake_complete] builds for
    the websocket handler. *)
Definition websocket_options `{Collaborators} (bs : aws_websocket_client_bootstrap)
    (stream : aws_http_stream) : aws_websocket_handler_options :=
  {| wo_allocator := bs_alloc bs;
     wo_channel := aws_http_connection_get_channel (aws_http_stream_get_connection stream);
     wo_initial_window_size := bs_initial_window_size bs;
     wo_user_data := bs_user_data bs;
     wo_on_incoming_frame_begin := bs_websocket_frame_begin_callback bs;
     wo_on_incoming_frame_payload := bs_websocket_frame_payload_callback bs;
     wo_on_incoming_frame_complete := bs_websocket_frame_complete_callback bs;
     wo_is_server := false |}.

(** An HTTP layer that accepts the connection but fails to create the
    handshake stream (raising 2060), and one whose websocket handler
    cannot be created (raising 2061). *)
Definition example_http_no_stream : Collaborators :=
  {| aws_http_client_connect := fun _ => None;
     aws_http_stream_new_client_request := fun _ => inl 2060;
     aws_http_connection_get_channel := fun c => c;
     aws_websocket_handler_new := fun _ => inr 9%nat |}.

Definition example_http_no_handler : Collaborators :=
  {| aws_http_client_connect := fun _ => None;
     aws_http_stream_new_client_request := fun o =>
       inr {| owning_connection := ro_client_connection o;
              incoming_response_status := -1 |};
     aws_http_connection_get_channel := fun c => c;
     aws_websocket_handler_new := fun _ => inl 2061 |}.

(** An HTTP layer that refuses the connection (raising 1049). *)
Definition example_http_refusing : Collaborators :=
  {| aws_http_client_connect := fun _ => Some 1049;
     aws_http_stream_new_client_request := fun _ => inl 2060;
     aws_http_connection_get_channel := fun c => c;
     aws_websocket_handler_new := fun _ => inr 9%nat |}.

(** The heap of this development is the storage of byte buffers (see
    [block]); the bootstrap structure, its array of request headers and
    its list of response headers are values of the state and no blocks of
    it.  [buffer_storage_same h h']: [h'] has the same live blocks of byte
    buffer storage, with the same contents, as [h]. *)
Definition buffer_storage_same (h h' : list (option block)) : Prop :=
  forall b, heap_get h' b = heap_get h b.

(** From [w] to [w'] the heap keeps its length, and only the block [ob]
    may have changed. *)
Definition only_block (ob : option nat) (w w' : world) : Prop :=
  length (heap w') = length (heap w) /\
  forall b, Some b <> ob -> heap_get (heap w') b = heap_get (heap w) b.

(** The storage of [buf] was acquired after the heap was [h0], in the
    heap [h]. *)
Definition acquired_since (h0 h : list (option block)) (buf : aws_byte_buf) : Prop :=
  match buf_buffer buf with
  | Some b => (length h0 <= b < length h)%nat
  | None => True
  end.

(** [owns_storages h0 w bs]: apart from the blocks of the request storage
    and of the response storage of the bootstrap [bs], which were acquired
    since and are different blocks, the byte buffer storage of [w] is as
    [h0] was. *)
Definition owns_storages (h0 : list (option block)) (w : world)
    (bs : aws_websocket_client_bootstrap) : Prop :=
  (length h0 <= length (heap w))%nat /\
  acquired_since h0 (heap w) (bs_request_storage bs) /\
  acquired_since h0 (heap w) (bs_response_storage bs) /\
  storages_apart bs /\
  forall b,
    Some b <> buf_buffer (bs_request_storage bs) ->
    Some b <> buf_buffer (bs_response_storage bs) ->
    heap_get (heap w) b = heap_get h0 b.

(** [buffer_storage_accounted h0 w]: measured against the heap [h0], the
    only byte buffer storage acquired and not released is that of the two
    storages of the bootstrap, if there is one. *)
Definition buffer_storage_accounted (h0 : list (option block)) (w : world) : Prop :=
  match boot w with
  | Some bs => owns_storages h0 w bs
  | None => buffer_storage_same h0 (heap w)
  end.

(** From [w] to [w'] the heap is untouched and the bootstrap, which is
    there, keeps its two storages. *)
Definition storages_kept (w w' : world) : Prop :=
  heap w' = heap w /\
  exists bs bs',
    boot w = Some bs /\ boot w' = Some bs' /\
    bs_request_storage bs' = bs_request_storage bs /\
    bs_response_storage bs' = bs_response_storage bs.

(** The events by which the bootstrap gives back what it holds: the
    reference to the handshake stream, the reference to the connection,
    and itself. *)
Definition is_release (e : event) : bool :=
  match e with
  | EvStreamRelease _ => true
  | EvConnectionRelease _ => true
  | EvBootstrapDestroy => true
  | _ => false
  end.

Definition is_connection_close (e : event) : bool :=
  match e with
  | EvConnectionClose _ => true
  | _ => false
  end.

(** What each callback of the HTTP layer obliges the bootstrap to give
    back. *)
Definition releases_of (c : http_callback) : list event :=
  match c with
  | OnHttpSetup None _ => [EvBootstrapDestroy]
  | OnHttpSetup (Some _) _ => []
  | OnResponseHeaders _ _ => []
  | OnHandshakeComplete stream _ => [EvStreamRelease stream]
  | OnHttpShutdown http_connection _ => [EvConnectionRelease http_connection; EvBootstrapDestroy]
  end.

Definition releases (cs : list http_callback) : list event :=
  flat_map releases_of cs.

(** How many more times the bootstrap may ask for the connection to be
    closed: once, as long as no error has been recorded. *)
Definition close_budget (w : world) : nat :=
  match boot w with
  | Some bs => if bs_setup_error_code bs =? 0 then 1 else 0
  | None => 0
  end.

(** [ledger given_back w w']: from [w] to [w'] the trace was extended, the
    releases among the new events are [given_back], and the requests to
    close the connection were within the budget. *)
Definition ledger (given_back : list event) (w w' : world) : Prop :=
  exists evs,
    trace w' = trace w ++ evs /\
    List.filter is_release evs = given_back /\
    (count_events is_connection_close evs + close_budget w' <= close_budget w)%nat.

(** From [w] to [w'] no allocation was tried and no error raised. *)
Definition unfailing (w w' : world) : Prop :=
  last_error w' = last_error w /\ alloc_plan w' = alloc_plan w.

(** The lengths of the name and the value of a header, as a record has
    them and as the header has them. *)
Definition record_lengths (hd : aws_http_header) : Z * Z :=
  (cur_len (hdr_name hd), cur_len (hdr_value hd)).

Definition header_lengths (h : header_bytes) : Z * Z :=
  (byte_len (hb_name h), byte_len (hb_value h)).

(** The options [aws_websocket_client_connect] hands to
    [aws_http_client_connect] for the connection options [options] with
    the URI [uri]. *)
Definition http_options_of (options : aws_websocket_client_connection_options)
    (uri : aws_uri) : aws_http_client_connection_options :=
  {| ho_allocator := co_allocator options;
     ho_bootstrap := co_bootstrap options;
     ho_host_name := uri_host_name uri;
     ho_socket_options := co_socket_options options;
     ho_tls_options := co_tls_options options;
     ho_initial_window_size := 1024;
     ho_port := infer_port uri (co_tls_options options) |}.

(** The error a failed [aws_websocket_client_connect] has raised is one of
    its own two, or the one [aws_http_client_connect] raised. *)
Definition connect_raised `{Platform} `{Collaborators}
    (options : aws_websocket_client_connection_options) (w' : world) : Prop :=
  last_error w' = AWS_ERROR_INVALID_ARGUMENT
  \/ last_error w' = AWS_ERROR_OOM
  \/ exists uri,
       co_uri options = Some uri
       /\ aws_http_client_connect (http_options_of options uri) = Some (last_error w').

(** The websocket handler options that carry what the connection options
    [options] asked for, on the channel of the connection of [stream]. *)
Definition websocket_options_of `{Collaborators}
    (options : aws_websocket_client_connection_options) (stream : aws_http_stream)
  : aws_websocket_handler_options :=
  {| wo_allocator := co_allocator options;
     wo_channel := aws_http_connection_get_channel (aws_http_stream_get_connection stream);
     wo_initial_window_size := co_initial_window_size options;
     wo_user_data := co_user_data options;
     wo_on_incoming_frame_begin := co_on_incoming_frame_begin options;
     wo_on_incoming_frame_payload := co_on_incoming_frame_payload options;
     wo_on_incoming_frame_complete := co_on_incoming_frame_complete options;
     wo_is_server := false |}.

(** An HTTP layer that creates the websocket handler only for the window
    size and the user data of the example options. *)
Definition example_http_strict : Collaborators :=
  {| aws_http_client_connect := fun _ => None;
     aws_http_stream_new_client_request := fun o =>
       inr {| owning_connection := ro_client_connection o;
              incoming_response_status := -1 |};
     aws_http_connection_get_channel := fun c => c;
     aws_websocket_handler_new := fun o =>
       if (wo_initial_window_size o =? 256) && (wo_user_data o =? 42)
       then inr 9%nat else inl 2061 |}.



(** * Lemmas about computations *)

Lemma returns_ret {A} (a : A) w (Q : A -> world -> Prop) :
  Q a w -> returns (ret a) w Q.
Proof. intros HQ a' w' Heq. inversion Heq; subst. exact HQ. Qed.

Lemma returns_bind {A B} (m : M A) (k : A -> M B) w (R : A -> world -> Prop) Q :
  returns m w R ->
  (forall a w1, R a w1 -> returns (k a) w1 Q) ->
  returns (bind m k) w Q.
Proof.
  intros Hm Hk b w' Heq. unfold bind in Heq.
  destruct (m w) as [a w1|f] eqn:E; [|discriminate].
  exact (Hk a w1 (Hm a w1 E) b w' Heq).
Qed.

Lemma returns_fail {A} f w (Q : A -> world -> Prop) : returns (fail f) w Q.
Proof. intros a w' Heq. discriminate. Qed.

Lemma returns_mono {A} (m : M A) w (Q Q' : A -> world -> Prop) :
  returns m w Q -> (forall a w', Q a w' -> Q' a w') -> returns m w Q'.
Proof. intros Hm HQ a w' Heq. apply HQ, Hm, Heq. Qed.

Lemma succeeds_ret {A} (a : A) w (Q : A -> world -> Prop) :
  Q a w -> succeeds (ret a) w Q.
Proof. intros HQ. exists a, w. split; [reflexivity|exact HQ]. Qed.

Lemma succeeds_bind {A B} (m : M A) (k : A -> M B) w (R : A -> world -> Prop) Q :
  succeeds m w R ->
  (forall a w1, R a w1 -> succeeds (k a) w1 Q) ->
  succeeds (bind m k) w Q.
Proof.
  intros (a & w1 & E & HR) Hk.
  destruct (Hk a w1 HR) as (b & w2 & E2 & HQ).
  exists b, w2. split; [|exact HQ]. unfold bind. rewrite E. exact E2.
Qed.

Lemma succeeds_mono {A} (m : M A) w (Q Q' : A -> world -> Prop) :
  succeeds m w Q -> (forall a w', Q a w' -> Q' a w') -> succeeds m w Q'.
Proof. intros (a & w' & E & HQ) Himp. exists a, w'. split; [exact E|apply Himp, HQ]. Qed.

Lemma succeeds_returns {A} (m : M A) w (Q : A -> world -> Prop) :
  succeeds m w Q -> returns m w Q.
Proof.
  intros (a & w' & E & HQ) a' w'' E'. rewrite E in E'. inversion E'; subst. exact HQ.
Qed.

Lemma quiet_ret {A} (a : A) : quiet (ret a).
Proof. intros w. apply returns_ret. reflexivity. Qed.

Lemma quiet_bind {A B} (m : M A) (k : A -> M B) :
  quiet m -> (forall a, quiet (k a)) -> quiet (bind m k).
Proof.
  intros Hm Hk w. eapply returns_bind; [apply Hm|].
  intros a w1 E. eapply returns_mono; [apply Hk|].
  intros b w2 E2. simpl in *. congruence.
Qed.

Lemma quiet_fail {A} f : quiet (@fail A f).
Proof. intros w. apply returns_fail. Qed.

Lemma quiet_modify f :
  (forall w, trace (f w) = trace w) -> quiet (modify f).
Proof. intros Hf w a w' Heq. inversion Heq; subst. apply Hf. Qed.

Lemma quiet_get : quiet get.
Proof. intros w a w' Heq. inversion Heq; subst. reflexivity. Qed.

Lemma quiet_AWS_ASSERT b : quiet (AWS_ASSERT b).
Proof. destruct b; [apply quiet_ret|apply quiet_fail]. Qed.

Lemma quiet_aws_raise_error e : quiet (aws_raise_error e).
Proof.
  apply quiet_bind; [apply quiet_modify; reflexivity|intros; apply quiet_ret].
Qed.

Lemma quiet_take_alloc `{Platform} : quiet take_alloc.
Proof.
  intros w a w' Heq. unfold take_alloc in Heq.
  destruct (alloc_plan w) as [|[] rest]; inversion Heq; subst; reflexivity.
Qed.

Lemma quiet_aws_mem_acquire `{Platform} size : quiet (aws_mem_acquire size).
Proof.
  apply quiet_bind; [apply quiet_take_alloc|].
  intros [] w a w' Heq; inversion Heq; subst; reflexivity.
Qed.

Lemma quiet_aws_mem_release b : quiet (aws_mem_release b).
Proof.
  intros w a w' Heq. unfold aws_mem_release in Heq.
  destruct (heap_get (heap w) b); inversion Heq; subst; reflexivity.
Qed.

Lemma quiet_memcpy_to buffer off src : quiet (memcpy_to buffer off src).
Proof.
  destruct buffer as [b|]; simpl.
  - intros w a w' Heq.
    destruct (heap_get (heap w) b); [|discriminate].
    destruct (_ && _); inversion Heq; subst; reflexivity.
  - destruct (_ =? _); [apply quiet_ret|apply quiet_fail].
Qed.

Lemma quiet_aws_byte_buf_init `{Platform} capacity : quiet (aws_byte_buf_init capacity).
Proof.
  unfold aws_byte_buf_init. destruct (_ =? _); [apply quiet_ret|].
  apply quiet_bind; [apply quiet_aws_mem_acquire|].
  intros [b|]; apply quiet_ret.
Qed.

Lemma quiet_aws_byte_buf_clean_up buf : quiet (aws_byte_buf_clean_up buf).
Proof.
  unfold aws_byte_buf_clean_up.
  destruct (buf_buffer buf); [apply quiet_aws_mem_release|apply quiet_ret].
Qed.

Lemma quiet_aws_byte_buf_write_from_whole_cursor buf src :
  quiet (aws_byte_buf_write_from_whole_cursor buf src).
Proof.
  unfold aws_byte_buf_write_from_whole_cursor. destruct (_ <=? _); [|apply quiet_ret].
  apply quiet_bind; [apply quiet_memcpy_to|intros; apply quiet_ret].
Qed.

Lemma quiet_aws_byte_buf_append_dynamic `{Platform} buf from :
  quiet (aws_byte_buf_append_dynamic buf from).
Proof.
  unfold aws_byte_buf_append_dynamic. destruct (_ <? _).
  - apply quiet_bind; [apply quiet_get|]. intros w.
    destruct (load _ _ _); [|apply quiet_fail].
    apply quiet_bind; [apply quiet_aws_mem_acquire|].
    intros [nb|]; [|apply quiet_ret].
    repeat (apply quiet_bind;
            [first [apply quiet_memcpy_to|apply quiet_aws_byte_buf_clean_up]|intros]).
    apply quiet_ret.
  - apply quiet_bind; [apply quiet_memcpy_to|intros; apply quiet_ret].
Qed.

Lemma quiet_aws_array_list_init_dynamic `{Platform} n :
  quiet (aws_array_list_init_dynamic n).
Proof.
  unfold aws_array_list_init_dynamic. destruct (_ <? _); [|apply quiet_ret].
  apply quiet_bind; [apply quiet_take_alloc|]. intros []; apply quiet_ret.
Qed.

Lemma quiet_aws_array_list_push_back `{Platform} l val :
  quiet (aws_array_list_push_back l val).
Proof.
  unfold aws_array_list_push_back. destruct (_ <? _); [apply quiet_ret|].
  apply quiet_bind; [apply quiet_take_alloc|]. intros []; apply quiet_ret.
Qed.

Lemma quiet_copy_request_headers `{Platform} src :
  forall storage write_success, quiet (copy_request_headers src storage write_success).
Proof.
  induction src as [|h rest IH]; intros storage ws; simpl; [apply quiet_ret|].
  repeat (apply quiet_bind;
          [first [apply quiet_aws_byte_buf_write_from_whole_cursor|apply IH]|intros]).
  apply quiet_ret.
Qed.

(** * Option validation *)

(** C1 (the code departs from the claim): whenever the begin and payload
    frame callbacks are both set, and so in particular when all three frame
    callbacks are set, [aws_websocket_client_connect] fails with
    AWS_ERROR_INVALID_ARGUMENT, whatever the other options are. *)
Theorem connect_rejects_full_frame_callback_group `{Platform} `{Collaborators}
    (options : aws_websocket_client_connection_options) (w : world)
    (frame_begin frame_payload : fn_ptr) :
  http_library_initialized w = true ->
  co_on_incoming_frame_begin options = Some frame_begin ->
  co_on_incoming_frame_payload options = Some frame_payload ->
  aws_websocket_client_connect options w
  = Ok AWS_OP_ERR (set_last_error AWS_ERROR_INVALID_ARGUMENT w).
Proof.
  intros Hinit Hb Hp.
  unfold aws_websocket_client_connect, aws_http_fatal_assert_library_initialized,
    bind, get.
  rewrite Hinit, Hb, Hp. simpl.
  destruct (_ || _); reflexivity.
Qed.

Lemma connect_rejects_full_frame_callback_group_witness :
  aws_websocket_client_connect (H := example_platform) (H0 := example_http)
    (example_options (Some 12%nat) (Some 13%nat) (Some 14%nat)) initial_world
  = Ok AWS_OP_ERR (set_last_error 33 initial_world).
Proof.
  apply (connect_rejects_full_frame_callback_group (H := example_platform)
           (H0 := example_http) _ initial_world 12%nat 13%nat);
    reflexivity.
Defined.

(** The same check rejects the options when no frame callback is set. *)
Lemma connect_rejects_empty_frame_callback_group `{Platform} `{Collaborators}
    (options : aws_websocket_client_connection_options) (w : world) :
  http_library_initialized w = true ->
  co_on_incoming_frame_begin options = None ->
  co_on_incoming_frame_payload options = None ->
  aws_websocket_client_connect options w
  = Ok AWS_OP_ERR (set_last_error AWS_ERROR_INVALID_ARGUMENT w).
Proof.
  intros Hinit Hb Hp.
  unfold aws_websocket_client_connect, aws_http_fatal_assert_library_initialized,
    bind, get.
  rewrite Hinit, Hb, Hp. simpl.
  destruct (_ || _); reflexivity.
Qed.

(** And it lets a partly set group through: with only the begin callback
    the connection attempt goes ahead. *)
Lemma connect_accepts_partial_frame_callback_group :
  exists w',
    aws_websocket_client_connect (H := example_platform) (H0 := example_http)
      (example_options (Some 12%nat) None None) initial_world
    = Ok AWS_OP_SUCCESS w'.
Proof. eexists. vm_compute. reflexivity. Qed.

(** * The port of the connection *)

Lemma bytes_eq_ignore_case_spec (a b : bytes) :
  bytes_eq_ignore_case a b = true <-> same_ignoring_case a b.
Proof.
  unfold same_ignoring_case. revert b.
  induction a as [|x a IH]; intros [|y b]; simpl; try (split; congruence).
  rewrite andb_true_iff, IH. split.
  - intros [Hxy Hab]. apply byte_dec_bl in Hxy. congruence.
  - intros Heq. injection Heq as Hxy Hab. split; [|exact Hab].
    apply byte_dec_lb. exact Hxy.
Qed.

Lemma infer_port_rule (uri : aws_uri) (tls_options : option aws_tls_connection_options) :
  port_rule uri tls_options (infer_port uri tls_options).
Proof.
  unfold port_rule, infer_port, scheme_is.
  destruct (Z.eqb_spec (uri_port uri) 0) as [Hz|Hnz].
  2: { repeat split; intros; congruence. }
  simpl. unfold aws_byte_cursor_eq_ignore_case.
  destruct (bytes_eq_ignore_case (uri_scheme uri) (list_byte_of_string "http")) eqn:E1;
  [|destruct (bytes_eq_ignore_case (uri_scheme uri) (list_byte_of_string "https")) eqn:E2;
    [|destruct (bytes_eq_ignore_case (uri_scheme uri) (list_byte_of_string "ws")) eqn:E3;
      [|destruct (bytes_eq_ignore_case (uri_scheme uri) (list_byte_of_string "wss")) eqn:E4]]];
  repeat match goal with
         | E : bytes_eq_ignore_case _ _ = true |- _ =>
             apply bytes_eq_ignore_case_spec in E
         | E : bytes_eq_ignore_case _ _ = false |- _ =>
             apply not_true_iff_false in E; rewrite bytes_eq_ignore_case_spec in E
         end;
  unfold same_ignoring_case in *; simpl in *;
  repeat split; intros;
  repeat match goal with
         | Hd : _ \/ _ |- _ => destruct Hd
         end;
  try congruence; try contradiction; try reflexivity.
  rewrite Hz. destruct tls_options; reflexivity.
Qed.

Lemma returns_emit e w :
  returns (emit e) w (fun _ w' => trace w' = trace w ++ [e]).
Proof. intros a w' Heq. inversion Heq; subst. reflexivity. Qed.

Lemma destroy_trace `{Platform} ws w :
  returns (s_ws_bootstrap_destroy ws) w
    (fun _ w' => trace w' = trace w ++ match ws with
                                        | Some _ => [EvBootstrapDestroy]
                                        | None => []
                                        end).
Proof.
  destruct ws as [b|]; simpl.
  - eapply returns_bind; [apply quiet_aws_byte_buf_clean_up|]. intros ? w1 E1.
    eapply returns_bind; [apply quiet_aws_byte_buf_clean_up|]. intros ? w2 E2.
    eapply returns_bind; [apply quiet_modify; reflexivity|]. intros ? w3 E3.
    eapply returns_mono; [apply returns_emit|].
    intros ? w4 E4. simpl in *. congruence.
  - apply returns_ret. symmetry. apply app_nil_r.
Qed.

Lemma connect_error_trace `{Platform} ws w :
  returns (connect_error ws) w
    (fun rc w' => rc = AWS_OP_ERR /\
                  (trace w' = trace w \/ trace w' = trace w ++ [EvBootstrapDestroy])).
Proof.
  unfold connect_error.
  eapply returns_bind; [apply destroy_trace|]. intros ? w1 E1.
  apply returns_ret. split; [reflexivity|].
  destruct ws; [right|left; rewrite app_nil_r in E1]; exact E1.
Qed.

(** What [aws_websocket_client_connect] does to the outside: at most one
    call of [aws_http_client_connect], with the inferred port, and the
    release of the bootstrap when a later step fails. *)
Lemma connect_trace `{Platform} `{Collaborators} options w :
  returns (aws_websocket_client_connect options) w
    (fun rc w' =>
       exists evs, trace w' = trace w ++ evs /\
         ((rc = AWS_OP_ERR /\ (evs = [] \/ evs = [EvBootstrapDestroy]))
          \/ exists uri http_options,
               co_uri options = Some uri /\
               ho_port http_options = infer_port uri (co_tls_options options) /\
               ((rc = AWS_OP_SUCCESS /\ evs = [EvHttpClientConnect http_options])
                \/ (rc = AWS_OP_ERR
                    /\ evs = [EvHttpClientConnect http_options; EvBootstrapDestroy])))).
Proof.
  assert (Herr : forall ws w1, trace w1 = trace w ->
            returns (connect_error ws) w1
              (fun rc w' =>
                 exists evs, trace w' = trace w ++ evs /\
                   ((rc = AWS_OP_ERR /\ (evs = [] \/ evs = [EvBootstrapDestroy]))
                    \/ exists uri http_options,
                         co_uri options = Some uri /\
                         ho_port http_options = infer_port uri (co_tls_options options) /\
                         ((rc = AWS_OP_SUCCESS /\ evs = [EvHttpClientConnect http_options])
                          \/ (rc = AWS_OP_ERR
                              /\ evs = [EvHttpClientConnect http_options;
                                        EvBootstrapDestroy]))))).
  { intros ws w1 E1. eapply returns_mono; [apply connect_error_trace|].
    intros rc w' [Hrc [Ht|Ht]]; rewrite E1 in Ht.
    - exists []. rewrite app_nil_r. auto.
    - exists [EvBootstrapDestroy]. auto. }
  assert (Hraise : forall e w1, trace w1 = trace w ->
            returns (aws_raise_error e) w1
              (fun rc w' =>
                 exists evs, trace w' = trace w ++ evs /\
                   ((rc = AWS_OP_ERR /\ (evs = [] \/ evs = [EvBootstrapDestroy]))
                    \/ exists uri http_options,
                         co_uri options = Some uri /\
                         ho_port http_options = infer_port uri (co_tls_options options) /\
                         ((rc = AWS_OP_SUCCESS /\ evs = [EvHttpClientConnect http_options])
                          \/ (rc = AWS_OP_ERR
                              /\ evs = [EvHttpClientConnect http_options;
                                        EvBootstrapDestroy]))))).
  { intros e w1 E1 rc w' Heq. inversion Heq; subst. exists []. rewrite app_nil_r.
    simpl. auto. }
  unfold aws_websocket_client_connect.
  eapply returns_bind.
  { unfold aws_http_fatal_assert_library_initialized.
    apply quiet_bind; [apply quiet_get|intros; apply quiet_AWS_ASSERT]. }
  intros ? w0 E0. simpl in E0.
  destruct (_ || _); [apply Hraise, E0|].
  destruct (_ || _); [apply Hraise, E0|].
  destruct (_ || _); [apply Hraise, E0|].
  destruct (co_uri options) as [uri|] eqn:Huri; [|apply returns_fail].
  destruct (co_handshake_header_array options) as [hs|] eqn:Hhs; [|apply returns_fail].
  eapply returns_bind; [apply quiet_take_alloc|]. intros ok1 w1 E1. simpl in E1.
  destruct ok1; simpl; [|apply Herr; congruence].
  eapply returns_bind; [apply quiet_aws_byte_buf_init|]. intros r w2 E2. simpl in E2.
  destruct (negb (fst r =? 0)); [apply Herr; congruence|].
  eapply returns_bind; [apply quiet_aws_byte_buf_write_from_whole_cursor|].
  intros wr w3 E3. simpl in E3.
  eapply returns_bind; [apply quiet_take_alloc|]. intros ok2 w4 E4. simpl in E4.
  destruct ok2; simpl; [|apply Herr; congruence].
  eapply returns_bind; [apply quiet_copy_request_headers|]. intros cp w5 E5. simpl in E5.
  eapply returns_bind; [apply quiet_AWS_ASSERT|]. intros ? w6 E6. simpl in E6.
  eapply returns_bind; [apply quiet_aws_array_list_init_dynamic|]. intros rh w7 E7.
  simpl in E7.
  destruct (negb (fst rh =? 0)); [apply Herr; congruence|].
  eapply returns_bind; [apply quiet_aws_byte_buf_init|]. intros rs w8 E8. simpl in E8.
  destruct (negb (fst rs =? 0)); [apply Herr; congruence|].
  eapply returns_bind; [apply quiet_modify; reflexivity|]. intros ? w9 E9. simpl in E9.
  eapply returns_bind; [apply returns_emit|]. intros ? w10 E10. simpl in E10.
  assert (Ht : trace w10 = trace w ++ [EvHttpClientConnect
            {| ho_allocator := co_allocator options;
               ho_bootstrap := co_bootstrap options;
               ho_host_name := uri_host_name uri;
               ho_socket_options := co_socket_options options;
               ho_tls_options := co_tls_options options;
               ho_initial_window_size := 1024;
               ho_port := infer_port uri (co_tls_options options) |}]).
  { rewrite E10. f_equal. congruence. }
  destruct (aws_http_client_connect _) as [e|].
  - eapply returns_bind; [apply quiet_modify; reflexivity|]. intros ? w11 E11.
    simpl in E11.
    unfold connect_error.
    eapply returns_bind; [apply destroy_trace|]. intros ? w12 E12. simpl in E12.
    apply returns_ret.
    eexists. split; [rewrite E12, E11, Ht, <- app_assoc; reflexivity|].
    right. eexists _, _. split; [reflexivity|].
    split; [|right; split; reflexivity]. reflexivity.
  - apply returns_ret. eexists. split; [exact Ht|].
    right. eexists _, _. split; [reflexivity|]. split; [|left; split; reflexivity].
    reflexivity.
Qed.

(** C6: the port [aws_websocket_client_connect] passes to
    [aws_http_client_connect], which it calls on every run that returns
    success, follows the port rule: the URI's explicit port if it has one,
    else 80 for http and ws and 443 for https and wss, whatever the case
    of the scheme, else 443 with TLS options and 80 without. *)
Theorem connect_port_follows_rule `{Platform} `{Collaborators}
    (options : aws_websocket_client_connection_options) (uri : aws_uri)
    (w : world) (rc : Z) (w' : world) :
  aws_websocket_client_connect options w = Ok rc w' ->
  co_uri options = Some uri ->
  exists evs,
    trace w' = trace w ++ evs /\
    (rc = AWS_OP_SUCCESS -> exists http_options, evs = [EvHttpClientConnect http_options]) /\
    (forall http_options,
        In (EvHttpClientConnect http_options) evs ->
        port_rule uri (co_tls_options options) (ho_port http_options)).
Proof.
  intros Hrun Huri.
  destruct (connect_trace options w rc w' Hrun) as (evs & Htrace & Hevs).
  exists evs. split; [exact Htrace|].
  destruct Hevs as [(Hrc & Hevs)|(uri' & ho & Huri' & Hport & Hevs)].
  - split.
    + intros Hok. rewrite Hrc in Hok. discriminate.
    + intros ho Hin. destruct Hevs as [-> | ->]; simpl in Hin; intuition discriminate.
  - rewrite Huri in Huri'. injection Huri' as <-.
    assert (Hrule : port_rule uri (co_tls_options options) (ho_port ho)).
    { rewrite Hport. apply infer_port_rule. }
    split.
    + intros Hok. destruct Hevs as [(_ & ->)|(Hrc & _)]; [eauto|].
      rewrite Hrc in Hok. discriminate.
    + intros ho' Hin.
      destruct Hevs as [(_ & ->)|(_ & ->)]; simpl in Hin;
        destruct Hin as [Heq|Hin]; try (injection Heq as <-; exact Hrule);
        try discriminate; try contradiction.
      destruct Hin as [Heq|[]]. discriminate.
Qed.

Lemma connect_port_follows_rule_witness :
  aws_websocket_client_connect (H := example_platform) (H0 := example_http)
    (example_options (Some 12%nat) None None) initial_world
  = Ok AWS_OP_SUCCESS example_connected_world
  /\ exists evs,
      trace example_connected_world = trace initial_world ++ evs /\
      (AWS_OP_SUCCESS = AWS_OP_SUCCESS ->
       exists http_options, evs = [EvHttpClientConnect http_options]) /\
      (forall http_options,
          In (EvHttpClientConnect http_options) evs ->
          port_rule example_uri None (ho_port http_options)).
Proof.
  split; [vm_compute; reflexivity|].
  apply (connect_port_follows_rule (H := example_platform) (H0 := example_http)
           (example_options (Some 12%nat) None None) example_uri initial_world
           AWS_OP_SUCCESS example_connected_world);
    [vm_compute; reflexivity|reflexivity].
Defined.

(** * The heap *)

Lemma heap_get_lt h b blk : heap_get h b = Some blk -> (b < length h)%nat.
Proof.
  unfold heap_get. destruct (h !! b) as [o|] eqn:E; [|discriminate].
  intros _. eapply lookup_lt_Some, E.
Qed.

Lemma heap_get_app_l h l b : (b < length h)%nat -> heap_get (h ++ l) b = heap_get h b.
Proof. intros Hlt. unfold heap_get. rewrite lookup_app_l by exact Hlt. reflexivity. Qed.

Lemma heap_get_app_new h o : heap_get (h ++ [o]) (length h) = o.
Proof.
  unfold heap_get. rewrite lookup_app_r by lia.
  replace (length h - length h)%nat with 0%nat by lia. simpl. destruct o; reflexivity.
Qed.

Lemma heap_get_insert_eq h b o : (b < length h)%nat -> heap_get (<[b := o]> h) b = o.
Proof.
  intros Hlt. unfold heap_get. rewrite list_lookup_insert_eq by exact Hlt.
  destruct o; reflexivity.
Qed.

Lemma heap_get_insert_ne h b b' o : b <> b' -> heap_get (<[b := o]> h) b' = heap_get h b'.
Proof.
  intros Hne. unfold heap_get. rewrite list_lookup_insert_ne by exact Hne. reflexivity.
Qed.

Lemma byte_len_app (a b : bytes) : byte_len (a ++ b) = byte_len a + byte_len b.
Proof. unfold byte_len. rewrite length_app. lia. Qed.

Lemma byte_len_nonneg (a : bytes) : 0 <= byte_len a.
Proof. unfold byte_len. lia. Qed.

Lemma byte_len_zero (a : bytes) : byte_len a = 0 -> a = [].
Proof. destruct a; [reflexivity|unfold byte_len; simpl; lia]. Qed.

(** [memcpy] to the end of what a block holds. *)
Lemma memcpy_to_end w b blk src :
  heap_get (heap w) b = Some blk ->
  byte_len (blk_bytes blk) + byte_len src <= blk_size blk ->
  memcpy_to (Some b) (byte_len (blk_bytes blk)) src w
  = Ok tt (set_heap (<[b := Some {| blk_size := blk_size blk;
                                    blk_bytes := blk_bytes blk ++ src |}]> (heap w)) w).
Proof.
  intros Hget Hfit. unfold memcpy_to. rewrite Hget.
  pose proof (byte_len_nonneg (blk_bytes blk)) as Hnn.
  replace (0 <=? byte_len (blk_bytes blk)) with true by (symmetry; apply Z.leb_le; lia).
  replace (byte_len (blk_bytes blk) <=? byte_len (blk_bytes blk)) with true
    by (symmetry; apply Z.leb_le; lia).
  replace (byte_len (blk_bytes blk) + byte_len src <=? blk_size blk) with true
    by (symmetry; apply Z.leb_le; lia).
  simpl. do 4 f_equal.
  unfold byte_len. rewrite Nat2Z.id, firstn_all.
  rewrite drop_ge; [rewrite app_nil_r; reflexivity|].
  pose proof (byte_len_nonneg src). unfold byte_len in *. lia.
Qed.

(** Reading back what lies between a prefix and a suffix of a block. *)
Lemma load_middle h b blk (pre mid post : bytes) :
  heap_get h b = Some blk ->
  blk_bytes blk = pre ++ mid ++ post ->
  load h {| p_base := Some b; p_off := byte_len pre |} (byte_len mid) = Some mid.
Proof.
  intros Hget Hbytes. unfold load. simpl. rewrite Hget, Hbytes.
  pose proof (byte_len_nonneg pre). pose proof (byte_len_nonneg mid).
  pose proof (byte_len_nonneg post).
  rewrite !byte_len_app.
  replace (0 <=? byte_len pre) with true by (symmetry; apply Z.leb_le; lia).
  replace (0 <=? byte_len mid) with true by (symmetry; apply Z.leb_le; lia).
  replace (byte_len pre + byte_len mid <=? byte_len pre + (byte_len mid + byte_len post))
    with true by (symmetry; apply Z.leb_le; lia).
  simpl. f_equal. unfold byte_len. rewrite !Nat2Z.id.
  rewrite drop_app_length. rewrite take_app_length. reflexivity.
Qed.

(** The records laid out over a stretch of a block read back as the
    headers written there. *)
Lemma load_layout h b blk (hs : list header_bytes) :
  forall (pre post : bytes),
    heap_get h b = Some blk ->
    blk_bytes blk = pre ++ header_stream hs ++ post ->
    load_headers h (layout (Some b) (byte_len pre) hs) = Some hs.
Proof.
  induction hs as [|hd rest IH]; intros pre post Hget Hbytes; simpl; [reflexivity|].
  simpl in Hbytes. rewrite <- !app_assoc in Hbytes.
  unfold load_header, load_cursor. simpl.
  rewrite (load_middle h b blk pre (hb_name hd) _ Hget Hbytes).
  assert (Hbytes2 : blk_bytes blk
                    = (pre ++ hb_name hd) ++ hb_value hd ++ header_stream rest ++ post).
  { rewrite Hbytes, <- !app_assoc. reflexivity. }
  rewrite <- byte_len_app.
  rewrite (load_middle h b blk (pre ++ hb_name hd) (hb_value hd) _ Hget Hbytes2).
  assert (Hbytes3 : blk_bytes blk
                    = ((pre ++ hb_name hd) ++ hb_value hd) ++ header_stream rest ++ post).
  { rewrite Hbytes, <- !app_assoc. reflexivity. }
  rewrite <- byte_len_app.
  rewrite (IH _ post Hget Hbytes3).
  destruct hd; reflexivity.
Qed.

(** * The allocator and the byte buffers *)

Lemma steady_refl w : steady w w.
Proof. repeat split. Qed.

Lemma steady_trans w1 w2 w3 : steady w1 w2 -> steady w2 w3 -> steady w1 w3.
Proof. unfold steady. intros (?&?&?) (?&?&?). repeat split; congruence. Qed.

Lemma take_alloc_succeeds `{Platform} w :
  succeeds take_alloc w
    (fun ok w' => steady w w' /\ heap w' = heap w /\
                  (ok = false -> last_error w' = AWS_ERROR_OOM)).
Proof.
  unfold succeeds, take_alloc.
  destruct (alloc_plan w) as [|[] rest]; eexists _, _; (split; [reflexivity|]);
    repeat split; simpl; congruence.
Qed.

Lemma buf_holds_app h l buf content :
  buf_holds h buf content -> buf_holds (h ++ l) buf content.
Proof.
  intros (Hlen & Hcap & Hbuf). repeat split; try assumption.
  destruct (buf_buffer buf) as [b|]; [|exact Hbuf].
  rewrite heap_get_app_l; [exact Hbuf|]. eapply heap_get_lt, Hbuf.
Qed.

Lemma aws_byte_buf_init_succeeds `{Platform} w capacity :
  0 <= capacity ->
  succeeds (aws_byte_buf_init capacity) w
    (fun r w' =>
       steady w w' /\
       ((fst r = AWS_OP_SUCCESS /\ buf_holds (heap w') (snd r) []
         /\ buf_capacity (snd r) = capacity /\ buf_len (snd r) = 0
         /\ ((heap w' = heap w /\ buf_buffer (snd r) = None)
             \/ (heap w' = heap w ++ [Some {| blk_size := capacity; blk_bytes := [] |}]
                 /\ buf_buffer (snd r) = Some (length (heap w)))))
        \/ (fst r = AWS_OP_ERR /\ snd r = zero_buf /\ heap w' = heap w
            /\ last_error w' = AWS_ERROR_OOM))).
Proof.
  intros Hnn. unfold aws_byte_buf_init.
  destruct (Z.eqb_spec capacity 0) as [Hz|Hnz].
  - apply succeeds_ret. split; [apply steady_refl|]. left. simpl.
    repeat split; auto; unfold buf_holds; simpl; lia.
  - unfold aws_mem_acquire.
    eapply succeeds_bind.
    { eapply succeeds_bind; [apply take_alloc_succeeds|].
      intros ok w1 (Hst & Hheap & Hoom).
      instantiate (1 := fun b w' =>
        steady w w' /\
        ((b = Some (length (heap w))
          /\ heap w' = heap w ++ [Some {| blk_size := capacity; blk_bytes := [] |}])
         \/ (b = None /\ heap w' = heap w /\ last_error w' = AWS_ERROR_OOM))).
      destruct ok.
      - eexists _, _. split; [reflexivity|]. simpl. rewrite Hheap.
        split; [exact Hst|]. left. split; reflexivity.
      - apply succeeds_ret. split; [exact Hst|]. right. auto. }
    intros b w1 (Hst & [(Hb & Hheap)|(Hb & Hheap & Herr)]); subst b;
      apply succeeds_ret; (split; [exact Hst|]).
    + left. simpl. split; [reflexivity|]. split.
      { unfold buf_holds. simpl. repeat split; try lia.
        rewrite Hheap. apply heap_get_app_new. }
      split; [reflexivity|]. split; [reflexivity|].
      right. split; [exact Hheap|reflexivity].
    + right. auto.
Qed.

(** A write that fits the fixed buffer succeeds and appends. *)
Lemma write_from_whole_cursor_fits w buf content src :
  buf_holds (heap w) buf content ->
  buf_len buf + byte_len src <= buf_capacity buf ->
  succeeds (aws_byte_buf_write_from_whole_cursor buf src) w
    (fun r w' =>
       r = (true, {| buf_len := buf_len buf + byte_len src;
                     buf_buffer := buf_buffer buf;
                     buf_capacity := buf_capacity buf |})
       /\ steady w w' /\ length (heap w') = length (heap w)
       /\ buf_holds (heap w') (snd r) (content ++ src)).
Proof.
  intros (Hlen & Hcap & Hbuf) Hfit.
  unfold aws_byte_buf_write_from_whole_cursor.
  replace (buf_len buf + byte_len src <=? buf_capacity buf) with true
    by (symmetry; apply Z.leb_le; exact Hfit).
  pose proof (byte_len_nonneg src) as Hsrc.
  pose proof (byte_len_nonneg content) as Hcontent.
  destruct (buf_buffer buf) as [b|] eqn:Hb.
  - eexists _, _. split.
    { unfold bind.
      rewrite <- Hlen.
      pose proof (memcpy_to_end w b {| blk_size := buf_capacity buf; blk_bytes := content |}
                    src Hbuf) as Hm.
      cbn [blk_bytes blk_size] in Hm. rewrite Hm by lia. reflexivity. }
    simpl. split; [rewrite Hlen; reflexivity|].
    split; [repeat split|].
    split; [apply length_insert|].
    unfold buf_holds. simpl. rewrite byte_len_app.
    repeat split; try lia.
    apply heap_get_insert_eq. eapply heap_get_lt, Hbuf.
  - assert (src = []) as -> by (apply byte_len_zero; lia).
    simpl. eexists _, _. split; [reflexivity|]. simpl.
    split; [reflexivity|]. split; [apply steady_refl|]. split; [reflexivity|].
    unfold buf_holds. simpl. rewrite app_nil_r.
    change (byte_len []) with 0 in *. repeat split; try lia; assumption.
Qed.

Lemma byte_len_header_stream hs : byte_len (header_stream hs) = header_bytes_total hs.
Proof.
  induction hs as [|h rest IH]; simpl; [reflexivity|].
  rewrite !byte_len_app, IH. lia.
Qed.

Lemma header_bytes_total_nonneg hs : 0 <= header_bytes_total hs.
Proof. rewrite <- byte_len_header_stream. apply byte_len_nonneg. Qed.

Lemma size_wrap_small `{Platform} z : 0 <= z <= SIZE_MAX -> size_wrap z = z.
Proof. intros Hz. unfold size_wrap. apply Z.mod_small. lia. Qed.

(** Without wrap-around the first loop computes the plain sum. *)
Lemma request_storage_size_exact `{Platform} path hs :
  byte_len path + header_bytes_total hs <= SIZE_MAX ->
  request_storage_size path hs = byte_len path + header_bytes_total hs.
Proof.
  unfold request_storage_size.
  pose proof (byte_len_nonneg path) as Hpath. revert Hpath.
  generalize (byte_len path) as size. revert hs.
  induction hs as [|h rest IH]; intros size Hsize Hfit; simpl in *; [lia|].
  pose proof (byte_len_nonneg (hb_name h)). pose proof (byte_len_nonneg (hb_value h)).
  pose proof (header_bytes_total_nonneg rest).
  rewrite (size_wrap_small (size + byte_len (hb_name h))) by lia.
  rewrite (size_wrap_small (size + byte_len (hb_name h) + byte_len (hb_value h))) by lia.
  rewrite IH by lia. lia.
Qed.

(** When the storage has room for all of them, the second loop writes
    every header, keeps [write_success], and fills in the records. *)
Lemma copy_request_headers_fits src :
  forall w storage content write_success,
    buf_holds (heap w) storage content ->
    buf_len storage + byte_len (header_stream src) <= buf_capacity storage ->
    succeeds (copy_request_headers src storage write_success) w
      (fun r w' =>
         fst (fst r) = layout (buf_buffer storage) (buf_len storage) src
         /\ snd r = write_success
         /\ steady w w' /\ length (heap w') = length (heap w)
         /\ buf_buffer (snd (fst r)) = buf_buffer storage
         /\ buf_capacity (snd (fst r)) = buf_capacity storage
         /\ buf_len (snd (fst r)) = buf_len storage + byte_len (header_stream src)
         /\ buf_holds (heap w') (snd (fst r)) (content ++ header_stream src)).
Proof.
  induction src as [|h rest IH]; intros w storage content ws Hholds Hfit.
  - simpl. apply succeeds_ret. simpl. rewrite app_nil_r.
    change (byte_len []) with 0. repeat split; auto; try lia; apply Hholds.
  - simpl in Hfit |- *. rewrite !byte_len_app in Hfit.
    pose proof (byte_len_nonneg (hb_name h)). pose proof (byte_len_nonneg (hb_value h)).
    pose proof (byte_len_nonneg (header_stream rest)).
    eapply succeeds_bind.
    { apply (write_from_whole_cursor_fits w storage content (hb_name h) Hholds). lia. }
    intros r1 w1 (-> & Hst1 & Hlen1 & Hholds1). simpl in *.
    eapply succeeds_bind.
    { apply (write_from_whole_cursor_fits w1 _ _ (hb_value h) Hholds1). simpl. lia. }
    intros r2 w2 (-> & Hst2 & Hlen2 & Hholds2). simpl in *.
    eapply succeeds_bind.
    { apply (IH w2 _ _ (ws && true && true) Hholds2). simpl. lia. }
    intros [[dsts storage'] ws'] w3 (Hd & Hws & Hst3 & Hlen3 & Hb3 & Hc3 & Hl3 & Hholds3).
    simpl in *. apply succeeds_ret. simpl.
    split; [rewrite Hd; reflexivity|].
    split; [rewrite Hws; destruct ws; reflexivity|].
    split; [eapply steady_trans; [eapply steady_trans|]; eassumption|].
    split; [congruence|]. split; [exact Hb3|]. split; [exact Hc3|].
    split; [rewrite Hl3, !byte_len_app; lia|].
    rewrite <- !app_assoc in Hholds3. rewrite <- app_assoc. exact Hholds3.
Qed.

(** * Releasing the bootstrap *)

Lemma clean_up_live w buf :
  buf_live (heap w) buf ->
  succeeds (aws_byte_buf_clean_up buf) w
    (fun _ w' =>
       steady w w' /\ length (heap w') = length (heap w) /\
       forall b', Some b' <> buf_buffer buf -> heap_get (heap w') b' = heap_get (heap w) b').
Proof.
  intros Hlive. unfold aws_byte_buf_clean_up. unfold buf_live in Hlive.
  destruct (buf_buffer buf) as [b|].
  - destruct Hlive as [blk Hlive].
    unfold succeeds, aws_mem_release. rewrite Hlive.
    eexists _, _. split; [reflexivity|]. simpl.
    split; [repeat split|]. split; [apply length_insert|].
    intros b' Hne. apply heap_get_insert_ne. congruence.
  - apply succeeds_ret. split; [apply steady_refl|]. auto.
Qed.

Lemma destroy_succeeds `{Platform} w bs :
  buf_live (heap w) (bs_request_storage bs) ->
  buf_live (heap w) (bs_response_storage bs) ->
  storages_apart bs ->
  succeeds (s_ws_bootstrap_destroy (Some bs)) w
    (fun _ w' =>
       boot w' = None /\ trace w' = trace w ++ [EvBootstrapDestroy]
       /\ http_library_initialized w' = http_library_initialized w).
Proof.
  intros Hreq Hresp Hapart. simpl.
  eapply succeeds_bind; [apply clean_up_live, Hreq|].
  intros ? w1 ((Hi1 & Hb1 & Ht1) & Hlen1 & Hframe1).
  eapply succeeds_bind.
  { apply clean_up_live. unfold buf_live in *. unfold storages_apart in Hapart.
    destruct (buf_buffer (bs_response_storage bs)) as [b|]; [|exact I].
    destruct Hresp as [blk Hblk]. exists blk. rewrite Hframe1; [exact Hblk|].
    destruct (buf_buffer (bs_request_storage bs)); congruence. }
  intros ? w2 ((Hi2 & Hb2 & Ht2) & Hlen2 & Hframe2).
  eexists _, _. split; [reflexivity|]. simpl.
  repeat split; congruence.
Qed.

Lemma load_layout_null h hs :
  header_stream hs = [] ->
  forall off, load_headers h (layout None off hs) = Some hs.
Proof.
  induction hs as [|hd rest IH]; intros Hempty off; simpl; [reflexivity|].
  simpl in Hempty. apply app_eq_nil in Hempty as [Hhd Hrest].
  apply app_eq_nil in Hhd as [Hn Hv].
  rewrite (IH Hrest). destruct hd as [n v]. simpl in *. subst n v. reflexivity.
Qed.

Lemma succeeds_bind_eq {A B} (m : M A) (k : A -> M B) w a w1 Q :
  m w = Ok a w1 -> succeeds (k a) w1 Q -> succeeds (bind m k) w Q.
Proof.
  intros E (b & w2 & E2 & HQ). exists b, w2. split; [|exact HQ].
  unfold bind. rewrite E. exact E2.
Qed.

Lemma connect_error_succeeds `{Platform} w ws :
  match ws with
  | Some bs => buf_live (heap w) (bs_request_storage bs)
               /\ buf_live (heap w) (bs_response_storage bs)
               /\ storages_apart bs
  | None => True
  end ->
  succeeds (connect_error ws) w (fun rc _ => rc = AWS_OP_ERR).
Proof.
  intros Hws. unfold connect_error. destruct ws as [bs|].
  - destruct Hws as (Hreq & Hresp & Hapart).
    eapply succeeds_bind; [apply (destroy_succeeds w bs Hreq Hresp Hapart)|].
    intros ? w1 _. apply succeeds_ret. reflexivity.
  - simpl. apply succeeds_ret. reflexivity.
Qed.

Lemma buf_holds_live h buf content : buf_holds h buf content -> buf_live h buf.
Proof.
  intros (_ & _ & Hbuf). unfold buf_live.
  destruct (buf_buffer buf); [eexists; exact Hbuf|exact I].
Qed.

Lemma aws_array_list_init_dynamic_succeeds `{Platform} w n :
  succeeds (aws_array_list_init_dynamic n) w
    (fun r w' =>
       steady w w' /\ heap w' = heap w /\
       ((fst r = AWS_OP_SUCCESS /\ al_items (snd r) = [])
        \/ (fst r = AWS_OP_ERR /\ last_error w' = AWS_ERROR_OOM))).
Proof.
  unfold aws_array_list_init_dynamic. destruct (_ <? _).
  - eapply succeeds_bind; [apply take_alloc_succeeds|].
    intros ok w1 (Hst & Hheap & Hoom).
    destruct ok; apply succeeds_ret; simpl; (split; [exact Hst|]);
      (split; [exact Hheap|]); [left|right]; auto.
  - apply succeeds_ret. simpl. split; [apply steady_refl|]. auto.
Qed.

(** * The request storage *)

(** [aws_websocket_client_connect], when the lengths of the path and of
    the handshake headers add up within [size_t]: it runs without a fault,
    and when it succeeds the request is stored and the bootstrap is handed
    to the HTTP layer in order, with the setup callback pending. *)
Lemma connect_succeeds `{Platform} `{Collaborators}
    (options : aws_websocket_client_connection_options)
    (uri : aws_uri) (headers : list header_bytes) (w : world) :
  http_library_initialized w = true ->
  co_uri options = Some uri ->
  co_handshake_header_array options = Some headers ->
  byte_len (uri_path_and_query uri) + header_bytes_total headers <= SIZE_MAX ->
  succeeds (aws_websocket_client_connect options) w
    (fun rc w' =>
       rc = AWS_OP_SUCCESS ->
       request_stored uri headers w'
       /\ exists fn, co_on_connection_setup options = Some fn
                     /\ pending_with w' fn (co_on_connection_shutdown options)).
Proof.
  intros Hinit Huri Hhs Hfit.
  pose proof (byte_len_nonneg (uri_path_and_query uri)) as Hpath.
  pose proof (header_bytes_total_nonneg headers) as Htotal.
  assert (Hraise : forall e w1,
            succeeds (aws_raise_error e) w1
              (fun rc w' =>
                 rc = AWS_OP_SUCCESS ->
                 request_stored uri headers w'
                 /\ exists fn, co_on_connection_setup options = Some fn
                               /\ pending_with w' fn (co_on_connection_shutdown options))).
  { intros e w1. eexists _, _. split; [reflexivity|]. discriminate. }
  assert (Herr : forall ws w1,
            match ws with
            | Some bs => buf_live (heap w1) (bs_request_storage bs)
                         /\ buf_live (heap w1) (bs_response_storage bs)
                         /\ storages_apart bs
            | None => True
            end ->
            succeeds (connect_error ws) w1
              (fun rc w' =>
                 rc = AWS_OP_SUCCESS ->
                 request_stored uri headers w'
                 /\ exists fn, co_on_connection_setup options = Some fn
                               /\ pending_with w' fn (co_on_connection_shutdown options))).
  { intros ws w1 Hws. eapply succeeds_mono; [apply connect_error_succeeds, Hws|].
    intros rc w' -> Hrc. discriminate. }
  unfold aws_websocket_client_connect.
  eapply succeeds_bind_eq.
  { unfold aws_http_fatal_assert_library_initialized, bind, get. rewrite Hinit.
    reflexivity. }
  destruct (co_on_connection_setup options) as [fn|] eqn:Hsetup.
  2: { rewrite !orb_true_r. apply Hraise. }
  destruct (_ || _); [apply Hraise|].
  destruct (_ || _); [apply Hraise|].
  destruct (_ || _); [apply Hraise|].
  rewrite Huri, Hhs.
  rewrite (request_storage_size_exact _ _ Hfit).
  (* Create bootstrap *)
  eapply succeeds_bind; [apply take_alloc_succeeds|].
  intros ok1 w1 (Hst1 & Hheap1 & _).
  destruct ok1; simpl; [|apply Herr; exact I].
  (* request storage *)
  eapply succeeds_bind; [apply aws_byte_buf_init_succeeds; lia|].
  intros [rc2 storage2] w2 (Hst2 & Hinit2). simpl in Hinit2.
  destruct Hinit2 as [(-> & Hholds2 & Hcap2 & Hlen2 & Hheap2)
                     |(-> & -> & Hheap2 & _)]; simpl.
  2: { apply Herr. simpl. unfold buf_live, storages_apart. simpl. auto. }
  eapply succeeds_bind.
  { apply (write_from_whole_cursor_fits w2 storage2 [] _ Hholds2). lia. }
  intros wr w3 (-> & Hst3 & Hlen3 & Hholds3). simpl in Hholds3 |- *.
  eapply succeeds_bind; [apply take_alloc_succeeds|].
  intros ok4 w4 (Hst4 & Hheap4 & _).
  rewrite <- Hheap4 in Hholds3.
  destruct ok4; simpl.
  2: { apply Herr. simpl. split; [eapply buf_holds_live, Hholds3|].
       unfold buf_live, storages_apart. simpl.
       destruct (buf_buffer storage2); auto. }
  eapply succeeds_bind.
  { apply (copy_request_headers_fits headers w4 _ _ true Hholds3). simpl.
    rewrite byte_len_header_stream. lia. }
  intros [[dsts storage5] ws5] w5
    (Hd & Hws & Hst5 & Hlen5 & Hb5 & Hc5 & Hl5 & Hholds5). simpl in *.
  subst ws5. simpl.
  eapply succeeds_bind_eq; [reflexivity|].
  (* response headers and storage *)
  eapply succeeds_bind; [apply aws_array_list_init_dynamic_succeeds|].
  intros [rc7 rh] w7 (Hst7 & Hheap7 & Hrh). simpl in Hrh.
  rewrite <- Hheap7 in Hholds5.
  assert (Hsize : 0 <= SIZE_MAX + 1) by lia.
  destruct Hrh as [(-> & Hitems)|(-> & _)]; simpl.
  2: { apply Herr. simpl. split; [eapply buf_holds_live, Hholds5|].
       unfold buf_live, storages_apart. simpl.
       destruct (buf_buffer storage5); auto. }
  eapply succeeds_bind.
  { apply aws_byte_buf_init_succeeds. unfold size_wrap. apply Z.mod_pos_bound. lia. }
  intros [rc8 rs] w8 (Hst8 & Hinit8). simpl in Hinit8.
  destruct Hinit8 as [(-> & Hholds8 & Hcap8 & Hlen8 & Hheap8)
                     |(-> & -> & Hheap8 & _)]; simpl.
  2: { apply Herr. simpl. rewrite Hheap8. split; [eapply buf_holds_live, Hholds5|].
       unfold buf_live, storages_apart. simpl.
       destruct (buf_buffer storage5); auto. }
  assert (Hholds5' : buf_holds (heap w8) storage5
                       (uri_path_and_query uri ++ header_stream headers)).
  { destruct Hheap8 as [[-> _]|[-> _]]; [exact Hholds5|apply buf_holds_app, Hholds5]. }
  assert (Hapart : match buf_buffer storage5, buf_buffer rs with
                   | Some a, Some b => a <> b
                   | _, _ => True
                   end).
  { destruct (buf_buffer storage5) as [a|] eqn:Ha; [|exact I].
    destruct Hheap8 as [[_ ->]|[_ ->]]; [exact I|].
    destruct Hholds5 as (_ & _ & Hget). rewrite Ha in Hget.
    apply heap_get_lt in Hget. lia. }
  eapply succeeds_bind_eq; [reflexivity|].
  eapply succeeds_bind_eq; [reflexivity|].
  destruct (aws_http_client_connect _) as [e|].
  - eapply succeeds_bind_eq; [reflexivity|].
    apply Herr. simpl.
    split; [eapply buf_holds_live, Hholds5'|].
    split; [eapply buf_holds_live, Hholds8|].
    unfold storages_apart. simpl. exact Hapart.
  - apply succeeds_ret. intros _. split.
    2: { exists fn. split; [reflexivity|]. eexists. split.
         - split; [reflexivity|]. simpl.
           split; [eapply buf_holds_live, Hholds5'|].
           split; [exists []; exact Hholds8|].
           unfold storages_apart. simpl. exact Hapart.
         - simpl. auto. }
    unfold request_stored. simpl.
    eexists _, _. split; [reflexivity|]. simpl.
    split; [congruence|]. split; [rewrite Hl5, Hc5, byte_len_header_stream; simpl; lia|].
    split; [exact Hholds5'|].
    split.
    + unfold load_cursor. simpl.
      destruct (buf_buffer storage2) as [b|] eqn:Hb2.
      * destruct Hholds5' as (_ & _ & Hget). rewrite Hb5 in Hget. simpl in Hget.
        unfold buf_end. rewrite Hb2, Hlen2.
        apply (load_middle (heap w8) b _ [] (uri_path_and_query uri)
                 (header_stream headers) Hget). reflexivity.
      * destruct Hholds2 as (_ & _ & Hcap0). rewrite Hb2 in Hcap0.
        assert (uri_path_and_query uri = []) as -> by (apply byte_len_zero; lia).
        unfold buf_end, load. simpl. rewrite Hb2. reflexivity.
    + split; [reflexivity|]. rewrite Hd. simpl.
      destruct (buf_buffer storage2) as [b|] eqn:Hb2.
      * destruct Hholds5' as (_ & _ & Hget). rewrite Hb5 in Hget. simpl in Hget.
        rewrite Hlen2, Z.add_0_l.
        apply (load_layout (heap w8) b _ headers (uri_path_and_query uri) [] Hget).
        simpl. rewrite app_nil_r. reflexivity.
      * destruct Hholds2 as (_ & _ & Hcap0). rewrite Hb2 in Hcap0.
        apply load_layout_null. apply byte_len_zero.
        rewrite byte_len_header_stream. lia.
Qed.

(** * The handlers, one at a time *)

Lemma bootstrap_ok_destroy `{Platform} w bs :
  bootstrap_ok w bs ->
  succeeds (s_ws_bootstrap_destroy (Some bs)) w
    (fun _ w' =>
       boot w' = None /\ trace w' = trace w ++ [EvBootstrapDestroy]
       /\ http_library_initialized w' = http_library_initialized w).
Proof.
  intros (_ & Hreq & (content & Hresp) & Hapart).
  apply destroy_succeeds; [exact Hreq|eapply buf_holds_live, Hresp|exact Hapart].
Qed.

Lemma app_cons_assoc {A} (l : list A) x m : (l ++ [x]) ++ m = l ++ x :: m.
Proof. rewrite <- app_assoc. reflexivity. Qed.

(** [s_ws_bootstrap_on_http_shutdown]: the user callback that is due, then
    the release of the connection and of the bootstrap. *)
Lemma on_http_shutdown_succeeds `{Platform} w bs http_connection error_code :
  bootstrap_ok w bs ->
  (bs_websocket_setup_callback bs <> None -> bs_websocket bs = None) ->
  (bs_websocket_setup_callback bs = None ->
   bs_websocket_shutdown_callback bs <> None -> bs_websocket bs <> None) ->
  succeeds (s_ws_bootstrap_on_http_shutdown http_connection error_code) w
    (fun _ w' =>
       boot w' = None /\
       trace w' = trace w ++ shutdown_calls bs error_code
                  ++ [EvConnectionRelease http_connection; EvBootstrapDestroy]).
Proof.
  intros Hok Hpending Hestablished.
  pose proof Hok as (Hboot & Hreq & (content & Hresp) & Hapart).
  unfold s_ws_bootstrap_on_http_shutdown.
  eapply succeeds_bind_eq; [unfold get_bootstrap; rewrite Hboot; reflexivity|].
  assert (Hrest : forall w1 calls,
            bootstrap_ok w1 bs -> trace w1 = trace w ++ calls ->
            succeeds
              (aws_http_connection_release http_connection ;;
               s_ws_bootstrap_destroy (Some bs)) w1
              (fun _ w' =>
                 boot w' = None /\
                 trace w' = trace w ++ calls
                            ++ [EvConnectionRelease http_connection; EvBootstrapDestroy])).
  { intros w1 calls Hok1 Ht1.
    eapply succeeds_bind_eq; [reflexivity|].
    eapply succeeds_mono.
    { apply bootstrap_ok_destroy. exact Hok1. }
    intros ? w' (Hb & Ht & _). simpl in Ht. split; [exact Hb|].
    rewrite Ht, Ht1, <- !app_assoc. reflexivity. }
  unfold shutdown_calls, call_websocket_setup_callback.
  destruct (bs_websocket_setup_callback bs) as [fn|] eqn:Hsetup.
  - rewrite (Hpending ltac:(discriminate)).
    eapply succeeds_bind_eq; [reflexivity|].
    eapply succeeds_mono; [eapply Hrest; [exact Hok|reflexivity]|].
    intros ? w' [Hb Ht]. split; [exact Hb|exact Ht].
  - destruct (bs_websocket_shutdown_callback bs) as [fn|] eqn:Hshutdown.
    + destruct (bs_websocket bs) as [ws|] eqn:Hws;
        [|exfalso; apply (Hestablished eq_refl); [discriminate|reflexivity]].
      eapply succeeds_bind_eq; [reflexivity|].
      eapply succeeds_mono; [eapply Hrest; [exact Hok|reflexivity]|].
      intros ? w' [Hb Ht]. split; [exact Hb|exact Ht].
    + eapply succeeds_bind_eq; [reflexivity|].
      eapply succeeds_mono; [eapply (Hrest _ []); [exact Hok|]|].
      * rewrite app_nil_r. reflexivity.
      * intros ? w' [Hb Ht]. split; [exact Hb|exact Ht].
Qed.

Lemma bootstrap_ok_update w bs w' bs' :
  bootstrap_ok w bs ->
  heap w' = heap w ->
  boot w' = Some bs' ->
  bs_request_storage bs' = bs_request_storage bs ->
  bs_response_storage bs' = bs_response_storage bs ->
  bootstrap_ok w' bs'.
Proof.
  intros (Hboot & Hreq & Hresp & Hapart) Hheap Hboot' Hrq Hrs.
  unfold bootstrap_ok, storages_apart in *. rewrite Hheap, Hrq, Hrs. auto.
Qed.

(** [s_ws_bootstrap_cancel_setup_due_to_err]: the first error is recorded
    and the connection closed; with an error already recorded nothing
    happens. *)
Lemma cancel_setup_eq `{Platform} w bs http_connection error_code :
  boot w = Some bs ->
  error_code <> 0 ->
  s_ws_bootstrap_cancel_setup_due_to_err http_connection error_code w
  = Ok tt (if bs_setup_error_code bs =? 0
           then set_trace (trace w ++ [EvConnectionClose http_connection])
                  (set_boot (Some (set_bs_setup_error_code error_code bs)) w)
           else w).
Proof.
  intros Hboot Hne. unfold s_ws_bootstrap_cancel_setup_due_to_err, bind, get_bootstrap.
  destruct (Z.eqb_spec error_code 0) as [Hz|_]; [contradiction|]. simpl.
  rewrite Hboot. destruct (bs_setup_error_code bs =? 0); reflexivity.
Qed.

(** The state a cancellation leaves: the bootstrap with the sticky error
    set, nothing else changed. *)
Lemma cancel_setup_succeeds `{Platform} w bs http_connection error_code :
  bootstrap_ok w bs ->
  error_code <> 0 ->
  succeeds (s_ws_bootstrap_cancel_setup_due_to_err http_connection error_code) w
    (fun _ w' =>
       let bs' := if bs_setup_error_code bs =? 0
                  then set_bs_setup_error_code error_code bs else bs in
       bootstrap_ok w' bs' /\
       bs_setup_error_code bs' <> 0 /\
       trace w' = trace w ++ (if bs_setup_error_code bs =? 0
                              then [EvConnectionClose http_connection] else [])).
Proof.
  intros Hok Hne. pose proof Hok as (Hboot & _).
  eexists _, _. split; [apply (cancel_setup_eq w bs _ _ Hboot Hne)|].
  destruct (Z.eqb_spec (bs_setup_error_code bs) 0) as [Hz|Hnz]; simpl.
  - split; [|split; [exact Hne|reflexivity]].
    eapply bootstrap_ok_update; [exact Hok|reflexivity|reflexivity|reflexivity|reflexivity].
  - split; [exact Hok|]. split; [exact Hnz|]. rewrite app_nil_r. reflexivity.
Qed.

(** * Connection setup that fails *)

(** [s_ws_bootstrap_on_http_setup] for a connection that failed. *)
Lemma on_http_setup_failure_succeeds `{Platform} `{Collaborators}
    (w : world) (bs : aws_websocket_client_bootstrap) (fn : fn_ptr) (error_code : Z) :
  bootstrap_ok w bs ->
  bs_websocket_setup_callback bs = Some fn ->
  error_code <> 0 ->
  succeeds (s_ws_bootstrap_on_http_setup None error_code) w
    (fun _ w' =>
       trace w' = trace w ++ [EvSetupCallback fn None error_code AWS_HTTP_STATUS_UNKNOWN []
                                (bs_user_data bs);
                              EvBootstrapDestroy]
       /\ boot w' = None).
Proof.
  intros Hok Hfn Hne. pose proof Hok as (Hboot & _).
  unfold s_ws_bootstrap_on_http_setup.
  eapply succeeds_bind_eq; [unfold get_bootstrap; rewrite Hboot; reflexivity|].
  destruct (Z.eqb_spec error_code 0) as [Hz|_]; [contradiction|]. simpl.
  eapply succeeds_bind_eq; [reflexivity|].
  unfold call_websocket_setup_callback. rewrite Hfn.
  eapply succeeds_bind_eq; [reflexivity|].
  eapply succeeds_mono; [apply (bootstrap_ok_destroy _ bs)|].
  - eapply bootstrap_ok_update; [exact Hok|reflexivity|exact Hboot|reflexivity|reflexivity].
  - intros ? w' (Hb & Ht & _). simpl in Ht.
    split; [rewrite Ht, <- app_assoc; reflexivity|exact Hb].
Qed.

(** C7: when the HTTP connection fails to set up (non-zero error, no
    connection), [s_ws_bootstrap_on_http_setup] calls the setup callback at
    once with no websocket, that error, status unknown and no headers, and
    releases the bootstrap; the lifetime ends there, so no shutdown
    callback is ever made. *)
Theorem http_setup_failure_reports_at_once `{Platform} `{Collaborators}
    (w : world) (bs : aws_websocket_client_bootstrap) (fn : fn_ptr) (error_code : Z) :
  bootstrap_ok w bs ->
  bs_websocket_setup_callback bs = Some fn ->
  error_code <> 0 ->
  succeeds (s_ws_bootstrap_on_http_setup None error_code) w
    (fun _ w' =>
       trace w' = trace w ++ [EvSetupCallback fn None error_code AWS_HTTP_STATUS_UNKNOWN []
                                (bs_user_data bs);
                              EvBootstrapDestroy]
       /\ boot w' = None
       /\ forall rest, lifetime (OnHttpSetup None error_code :: rest) = true ->
                       run rest w' = Ok tt w').
Proof.
  intros Hok Hfn Hne.
  eapply succeeds_mono; [apply (on_http_setup_failure_succeeds w bs fn error_code Hok Hfn Hne)|].
  intros ? w' (Ht & Hb). split; [exact Ht|]. split; [exact Hb|].
  intros rest Hlife. simpl in Hlife. destruct rest; [reflexivity|discriminate].
Qed.

(** The connected example satisfies [bootstrap_ok], by evaluation. *)
Ltac example_bootstrap_ok :=
  split; [reflexivity|];
  split; [eexists; reflexivity|];
  split; [exists []; split; [reflexivity|split; [vm_compute; discriminate|reflexivity]]|];
  vm_compute; discriminate.

Lemma http_setup_failure_reports_at_once_witness :
  succeeds
    (s_ws_bootstrap_on_http_setup (H := example_platform) (H0 := example_http) None 1051)
    example_connected_world
    (fun _ w' =>
       trace w' = trace example_connected_world
                  ++ [EvSetupCallback 10%nat None 1051 (-1) [] 42; EvBootstrapDestroy]
       /\ boot w' = None
       /\ forall rest, lifetime (OnHttpSetup None 1051 :: rest) = true ->
                       run (H := example_platform) (H0 := example_http) rest w' = Ok tt w').
Proof.
  apply (http_setup_failure_reports_at_once (H := example_platform) (H0 := example_http)
           example_connected_world example_bootstrap 10%nat 1051);
    [example_bootstrap_ok|reflexivity|discriminate].
Defined.

(** * Connection shutdown *)

(** C8: when the connection shuts down and the setup callback has not
    fired yet, [s_ws_bootstrap_on_http_shutdown] calls it with no
    websocket and an error that is never 0: the shutdown's error if that
    is not 0, else the sticky error if that is not 0, else
    AWS_ERROR_UNKNOWN; and with the response status and the response
    headers captured so far. *)
Theorem http_shutdown_reports_pending_setup `{Platform}
    (w : world) (bs : aws_websocket_client_bootstrap) (fn : fn_ptr)
    (http_connection : aws_http_connection) (error_code : Z) :
  AWS_ERROR_UNKNOWN <> 0 ->
  bootstrap_ok w bs ->
  bs_websocket_setup_callback bs = Some fn ->
  bs_websocket bs = None ->
  succeeds (s_ws_bootstrap_on_http_shutdown http_connection error_code) w
    (fun _ w' =>
       exists reported,
         trace w' = trace w ++ [EvSetupCallback fn None reported (bs_response_status bs)
                                  (al_items (bs_response_headers bs)) (bs_user_data bs);
                                EvConnectionRelease http_connection;
                                EvBootstrapDestroy]
         /\ reported <> 0
         /\ (error_code <> 0 -> reported = error_code)
         /\ (error_code = 0 -> bs_setup_error_code bs <> 0 ->
             reported = bs_setup_error_code bs)
         /\ (error_code = 0 -> bs_setup_error_code bs = 0 ->
             reported = AWS_ERROR_UNKNOWN)).
Proof.
  intros Hunknown Hok Hfn Hws.
  eapply succeeds_mono.
  { apply (on_http_shutdown_succeeds w bs http_connection error_code Hok).
    - intros _. exact Hws.
    - intros Hnone. rewrite Hfn in Hnone. discriminate. }
  intros ? w' (_ & Ht). unfold shutdown_calls in Ht. rewrite Hfn in Ht.
  eexists. split; [exact Ht|].
  destruct (Z.eqb_spec error_code 0) as [Hz|Hnz];
    [destruct (Z.eqb_spec (bs_setup_error_code bs) 0) as [Hsz|Hsnz]|];
    repeat split; intros; congruence.
Qed.

Lemma http_shutdown_reports_pending_setup_witness :
  succeeds
    (s_ws_bootstrap_on_http_shutdown (H := example_platform) 5%nat 0)
    example_connected_world
    (fun _ w' =>
       exists reported,
         trace w' = trace example_connected_world
                    ++ [EvSetupCallback 10%nat None reported (-1) [] 42;
                        EvConnectionRelease 5%nat; EvBootstrapDestroy]
         /\ reported <> 0
         /\ (0 <> 0 -> reported = 0)
         /\ (0 = 0 -> 0 <> 0 -> reported = 0)
         /\ (0 = 0 -> 0 = 0 -> reported = 2)).
Proof.
  apply (http_shutdown_reports_pending_setup (H := example_platform)
           example_connected_world example_bootstrap 10%nat 5%nat 0);
    [discriminate|example_bootstrap_ok|reflexivity|reflexivity].
Defined.

(** C10: every [s_ws_bootstrap_on_http_shutdown] releases the HTTP
    connection once and releases the bootstrap once, after at most one
    user callback; when the setup callback has already fired and no
    shutdown callback was given, it makes no user callback at all and
    still releases both. *)
Theorem http_shutdown_releases_once `{Platform}
    (w : world) (bs : aws_websocket_client_bootstrap)
    (http_connection : aws_http_connection) (error_code : Z) :
  bootstrap_ok w bs ->
  (bs_websocket_setup_callback bs <> None -> bs_websocket bs = None) ->
  (bs_websocket_setup_callback bs = None ->
   bs_websocket_shutdown_callback bs <> None -> bs_websocket bs <> None) ->
  succeeds (s_ws_bootstrap_on_http_shutdown http_connection error_code) w
    (fun _ w' =>
       exists evs,
         trace w' = trace w ++ evs
         /\ boot w' = None
         /\ In (EvConnectionRelease http_connection) evs
         /\ count_events is_connection_release evs = 1%nat
         /\ count_events is_bootstrap_destroy evs = 1%nat
         /\ (count_events is_user_callback evs <= 1)%nat
         /\ (bs_websocket_setup_callback bs = None ->
             bs_websocket_shutdown_callback bs = None ->
             evs = [EvConnectionRelease http_connection; EvBootstrapDestroy])).
Proof.
  intros Hok Hpending Hestablished.
  eapply succeeds_mono;
    [apply (on_http_shutdown_succeeds w bs http_connection error_code Hok Hpending
              Hestablished)|].
  intros ? w' (Hboot & Ht). eexists. split; [exact Ht|]. split; [exact Hboot|].
  unfold shutdown_calls.
  destruct (bs_websocket_setup_callback bs) as [fn|];
    [|destruct (bs_websocket_shutdown_callback bs) as [fn|]];
    simpl; repeat split; auto; try lia; intros; congruence.
Qed.

Lemma http_shutdown_releases_once_witness :
  succeeds (s_ws_bootstrap_on_http_shutdown (H := example_platform) 5%nat 0)
    example_established_world
    (fun _ w' =>
       exists evs,
         trace w' = trace example_established_world ++ evs
         /\ boot w' = None
         /\ In (EvConnectionRelease 5%nat) evs
         /\ count_events is_connection_release evs = 1%nat
         /\ count_events is_bootstrap_destroy evs = 1%nat
         /\ (count_events is_user_callback evs <= 1)%nat
         /\ (bs_websocket_setup_callback example_established_bootstrap = None ->
             bs_websocket_shutdown_callback example_established_bootstrap = None ->
             evs = [EvConnectionRelease 5%nat; EvBootstrapDestroy])).
Proof.
  apply (http_shutdown_releases_once (H := example_platform)
           example_established_world example_established_bootstrap 5%nat 0);
    [example_bootstrap_ok|intros Hne; exfalso; apply Hne; reflexivity|
     intros _ Hne; exfalso; apply Hne; reflexivity].
Defined.

(** * The handshake response *)

(** The [error:] label of [s_ws_bootstrap_on_handshake_complete] with the
    error taken from [aws_last_error]. *)
Lemma handshake_complete_error_succeeds `{Platform} w bs stream error_code :
  bootstrap_ok w bs ->
  (if error_code =? 0 then last_error w else error_code) <> 0 ->
  succeeds (handshake_complete_error stream (aws_http_stream_get_connection stream)
              error_code) w
    (fun _ w' =>
       let e := if error_code =? 0 then last_error w else error_code in
       let bs' := if bs_setup_error_code bs =? 0
                  then set_bs_setup_error_code e bs else bs in
       bootstrap_ok w' bs' /\
       bs_setup_error_code bs' <> 0 /\
       last_error w' = last_error w /\
       trace w' = trace w
                  ++ (if bs_setup_error_code bs =? 0
                      then [EvConnectionClose (aws_http_stream_get_connection stream)]
                      else [])
                  ++ [EvStreamRelease stream]).
Proof.
  intros Hok Hne. pose proof Hok as (Hboot & _).
  unfold handshake_complete_error.
  eapply succeeds_bind_eq.
  { instantiate (1 := w).
    instantiate (1 := if error_code =? 0 then last_error w else error_code).
    destruct (error_code =? 0); reflexivity. }
  eapply succeeds_bind_eq; [apply (cancel_setup_eq w bs _ _ Hboot Hne)|].
  eexists _, _. split; [reflexivity|].
  destruct (Z.eqb_spec (bs_setup_error_code bs) 0) as [Hz|Hnz]; simpl.
  - split; [|split; [exact Hne|split; [reflexivity|]]].
    + eapply bootstrap_ok_update;
        [exact Hok|reflexivity|reflexivity|reflexivity|reflexivity].
    + rewrite <- app_assoc. reflexivity.
  - split; [exact Hok|]. split; [exact Hnz|]. split; reflexivity.
Qed.

(** C3: when the handshake completes without error and the status read
    from the stream is not 101, [s_ws_bootstrap_on_handshake_complete]
    raises AWS_ERROR_HTTP_WEBSOCKET_UPGRADE_FAILURE and cancels: it records
    that error and asks for the connection to be closed unless an earlier
    cancellation already did, makes no user callback, and leaves the setup
    callback pending; the connection's shutdown then calls the setup
    callback with no websocket and an error that is not 0. *)
Theorem upgrade_refused_cancels `{Platform} `{Collaborators}
    (w : world) (bs : aws_websocket_client_bootstrap) (fn : fn_ptr)
    (stream : aws_http_stream) :
  AWS_ERROR_HTTP_WEBSOCKET_UPGRADE_FAILURE <> 0 ->
  bootstrap_ok w bs ->
  bs_websocket_setup_callback bs = Some fn ->
  bs_websocket bs = None ->
  (bs_setup_error_code bs <> 0 -> exists c, In (EvConnectionClose c) (trace w)) ->
  incoming_response_status stream <> AWS_HTTP_STATUS_101_SWITCHING_PROTOCOLS ->
  succeeds (s_ws_bootstrap_on_handshake_complete stream 0) w
    (fun _ w1 =>
       exists bs1,
         bootstrap_ok w1 bs1
         /\ last_error w1 = AWS_ERROR_HTTP_WEBSOCKET_UPGRADE_FAILURE
         /\ bs_setup_error_code bs1
            = (if bs_setup_error_code bs =? 0
               then AWS_ERROR_HTTP_WEBSOCKET_UPGRADE_FAILURE
               else bs_setup_error_code bs)
         /\ bs_setup_error_code bs1 <> 0
         /\ bs_websocket_setup_callback bs1 = Some fn
         /\ bs_websocket bs1 = None
         /\ bs_response_status bs1 = incoming_response_status stream
         /\ trace w1 = trace w
                       ++ (if bs_setup_error_code bs =? 0
                           then [EvConnectionClose (owning_connection stream)]
                           else [])
                       ++ [EvStreamRelease stream]
         /\ (exists c, In (EvConnectionClose c) (trace w1))
         /\ forall http_connection error_code,
              succeeds (s_ws_bootstrap_on_http_shutdown http_connection error_code) w1
                (fun _ w2 =>
                   exists reported,
                     reported <> 0 /\
                     trace w2 = trace w1
                                ++ [EvSetupCallback fn None reported
                                      (incoming_response_status stream)
                                      (al_items (bs_response_headers bs))
                                      (bs_user_data bs);
                                    EvConnectionRelease http_connection;
                                    EvBootstrapDestroy])).
Proof.
  intros Hupgrade Hok Hfn Hws Hclosed Hstatus. pose proof Hok as (Hboot & _).
  unfold s_ws_bootstrap_on_handshake_complete.
  eapply succeeds_bind_eq; [unfold get_bootstrap; rewrite Hboot; reflexivity|].
  change (negb (0 =? 0)) with false. cbv iota.
  eapply succeeds_bind_eq; [reflexivity|].
  cbn [bs_response_status set_bs_response_status].
  unfold aws_http_stream_get_incoming_response_status.
  destruct (Z.eqb_spec (incoming_response_status stream)
              AWS_HTTP_STATUS_101_SWITCHING_PROTOCOLS) as [Heq|_]; [contradiction|].
  cbv iota. cbn [negb].
  eapply succeeds_bind_eq; [reflexivity|].
  set (bs0 := set_bs_response_status (incoming_response_status stream) bs).
  eapply succeeds_mono.
  { apply (handshake_complete_error_succeeds _ bs0 stream 0).
    - eapply bootstrap_ok_update;
        [exact Hok|reflexivity|reflexivity|reflexivity|reflexivity].
    - simpl. exact Hupgrade. }
  cbn zeta. intros ? w1 (Hok1 & Hsticky & Hlast & Ht).
  change (bs_setup_error_code bs0) with (bs_setup_error_code bs) in *.
  simpl in Hlast, Ht.
  match type of Hok1 with bootstrap_ok _ ?b => set (bs1 := b) in * end.
  assert (Hfn1 : bs_websocket_setup_callback bs1 = Some fn).
  { subst bs1. destruct (bs_setup_error_code bs =? 0); exact Hfn. }
  assert (Hws1 : bs_websocket bs1 = None).
  { subst bs1. destruct (bs_setup_error_code bs =? 0); exact Hws. }
  assert (Hst1 : bs_response_status bs1 = incoming_response_status stream).
  { subst bs1. destruct (bs_setup_error_code bs =? 0); reflexivity. }
  assert (Hh1 : bs_response_headers bs1 = bs_response_headers bs).
  { subst bs1. destruct (bs_setup_error_code bs =? 0); reflexivity. }
  assert (Hu1 : bs_user_data bs1 = bs_user_data bs).
  { subst bs1. destruct (bs_setup_error_code bs =? 0); reflexivity. }
  assert (Hcode1 : bs_setup_error_code bs1
                   = (if bs_setup_error_code bs =? 0
                      then AWS_ERROR_HTTP_WEBSOCKET_UPGRADE_FAILURE
                      else bs_setup_error_code bs)).
  { subst bs1. destruct (bs_setup_error_code bs =? 0); reflexivity. }
  clearbody bs1.
  exists bs1. split; [exact Hok1|]. split; [exact Hlast|].
  split; [exact Hcode1|]. split; [exact Hsticky|].
  split; [exact Hfn1|]. split; [exact Hws1|]. split; [exact Hst1|].
  split; [exact Ht|].
  split.
  { rewrite Ht. destruct (Z.eqb_spec (bs_setup_error_code bs) 0) as [Hz|Hnz].
    - eexists. apply in_or_app. right. left. reflexivity.
    - destruct (Hclosed Hnz) as [c Hc]. exists c. apply in_or_app. left. exact Hc. }
  intros http_connection error_code.
  eapply succeeds_mono.
  { apply (on_http_shutdown_succeeds w1 bs1 http_connection error_code Hok1).
    - intros _. exact Hws1.
    - intros Hnone. rewrite Hfn1 in Hnone. discriminate. }
  intros ? w2 (_ & Ht2). unfold shutdown_calls in Ht2.
  rewrite Hfn1, Hst1, Hh1, Hu1 in Ht2.
  eexists. split; [|exact Ht2].
  destruct (Z.eqb_spec error_code 0) as [Hz|Hnz]; [|exact Hnz].
  destruct (Z.eqb_spec (bs_setup_error_code bs1) 0) as [Hsz|Hsnz];
    [contradiction|exact Hsnz].
Qed.

Lemma upgrade_refused_cancels_witness :
  succeeds
    (s_ws_bootstrap_on_handshake_complete (H := example_platform) (H0 := example_http)
       (example_stream 200) 0)
    example_connected_world
    (fun _ w1 =>
       exists bs1,
         bootstrap_ok w1 bs1
         /\ last_error w1 = 2065
         /\ bs_setup_error_code bs1 = 2065
         /\ bs_setup_error_code bs1 <> 0
         /\ bs_websocket_setup_callback bs1 = Some 10%nat
         /\ bs_websocket bs1 = None
         /\ bs_response_status bs1 = 200
         /\ trace w1 = trace example_connected_world
                       ++ [EvConnectionClose 5%nat] ++ [EvStreamRelease (example_stream 200)]
         /\ (exists c, In (EvConnectionClose c) (trace w1))
         /\ forall http_connection error_code,
              succeeds
                (s_ws_bootstrap_on_http_shutdown (H := example_platform)
                   http_connection error_code) w1
                (fun _ w2 =>
                   exists reported,
                     reported <> 0 /\
                     trace w2 = trace w1
                                ++ [EvSetupCallback 10%nat None reported 200 [] 42;
                                    EvConnectionRelease http_connection;
                                    EvBootstrapDestroy])).
Proof.
  apply (upgrade_refused_cancels (H := example_platform) (H0 := example_http)
           example_connected_world example_bootstrap 10%nat (example_stream 200));
    [discriminate|example_bootstrap_ok|reflexivity|reflexivity
    |intros Hne; exfalso; apply Hne; reflexivity|discriminate].
Defined.

(** * Cancellation *)

Lemma cancel_all_recorded `{Platform} http_connection errors :
  forall w bs,
    boot w = Some bs ->
    bs_setup_error_code bs <> 0 ->
    Forall (fun e => e <> 0) errors ->
    cancel_all http_connection errors w = Ok tt w.
Proof.
  induction errors as [|e rest IH]; intros w bs Hboot Hcode Hall; simpl; [reflexivity|].
  inversion Hall as [|? ? He Hrest]; subst.
  unfold bind. rewrite (cancel_setup_eq w bs _ _ Hboot He).
  destruct (Z.eqb_spec (bs_setup_error_code bs) 0) as [Hz|_]; [contradiction|].
  apply (IH w bs Hboot Hcode Hrest).
Qed.

(** C5, as the code has it: of a sequence of cancellations (each with a
    non-zero error, none recorded before) only the first records its error
    and asks for the connection to be closed, and none makes a user
    callback; the error the setup callback then gets at shutdown is the
    shutdown's own error when that is not 0, and the first recorded error
    otherwise. *)
Theorem cancel_first_error_is_sticky `{Platform}
    (w : world) (bs : aws_websocket_client_bootstrap) (fn : fn_ptr)
    (http_connection : aws_http_connection) (first : Z) (later : list Z) :
  bootstrap_ok w bs ->
  bs_websocket_setup_callback bs = Some fn ->
  bs_websocket bs = None ->
  bs_setup_error_code bs = 0 ->
  first <> 0 ->
  Forall (fun e => e <> 0) later ->
  succeeds (cancel_all http_connection (first :: later)) w
    (fun _ w1 =>
       boot w1 = Some (set_bs_setup_error_code first bs)
       /\ trace w1 = trace w ++ [EvConnectionClose http_connection]
       /\ forall shutdown_connection shutdown_error,
            succeeds (s_ws_bootstrap_on_http_shutdown shutdown_connection shutdown_error) w1
              (fun _ w2 =>
                 trace w2 = trace w1
                            ++ [EvSetupCallback fn None
                                  (if shutdown_error =? 0 then first else shutdown_error)
                                  (bs_response_status bs)
                                  (al_items (bs_response_headers bs)) (bs_user_data bs);
                                EvConnectionRelease shutdown_connection;
                                EvBootstrapDestroy])).
Proof.
  intros Hok Hfn Hws Hcode Hfirst Hlater. pose proof Hok as (Hboot & _).
  set (bs1 := set_bs_setup_error_code first bs).
  set (w1 := set_trace (trace w ++ [EvConnectionClose http_connection])
               (set_boot (Some bs1) w)).
  assert (Hok1 : bootstrap_ok w1 bs1).
  { eapply bootstrap_ok_update;
      [exact Hok|reflexivity|reflexivity|reflexivity|reflexivity]. }
  exists tt, w1. split.
  - simpl. unfold bind. rewrite (cancel_setup_eq w bs _ _ Hboot Hfirst), Hcode. simpl.
    apply (cancel_all_recorded http_connection later w1 bs1); [reflexivity| |exact Hlater].
    simpl. exact Hfirst.
  - split; [reflexivity|]. split; [reflexivity|].
    intros c e. eapply succeeds_mono.
    { apply (on_http_shutdown_succeeds w1 bs1 c e Hok1).
      - intros _. exact Hws.
      - intros Hnone. simpl in Hnone. rewrite Hfn in Hnone. discriminate. }
    intros ? w2 (_ & Ht2). unfold shutdown_calls in Ht2. simpl in Ht2.
    rewrite Hfn in Ht2. rewrite Ht2.
    destruct (Z.eqb_spec first 0) as [Hz|_]; [contradiction|reflexivity].
Qed.

Lemma cancel_first_error_is_sticky_witness :
  succeeds (cancel_all (H := example_platform) 5%nat [2065; 1]) example_connected_world
    (fun _ w1 =>
       boot w1 = Some (set_bs_setup_error_code 2065 example_bootstrap)
       /\ trace w1 = trace example_connected_world ++ [EvConnectionClose 5%nat]
       /\ forall shutdown_connection shutdown_error,
            succeeds
              (s_ws_bootstrap_on_http_shutdown (H := example_platform)
                 shutdown_connection shutdown_error) w1
              (fun _ w2 =>
                 trace w2 = trace w1
                            ++ [EvSetupCallback 10%nat None
                                  (if shutdown_error =? 0 then 2065 else shutdown_error)
                                  (-1) [] 42;
                                EvConnectionRelease shutdown_connection;
                                EvBootstrapDestroy])).
Proof.
  apply (cancel_first_error_is_sticky (H := example_platform)
           example_connected_world example_bootstrap 10%nat 5%nat 2065 [1]);
    [example_bootstrap_ok|reflexivity|reflexivity|reflexivity|discriminate
    |repeat constructor; discriminate].
Defined.

(** The claim as stated fails: after cancellations with errors 2065 and 1,
    a shutdown that reports error 1051 makes the setup callback get 1051,
    not the first recorded error 2065. *)
Lemma cancel_first_error_not_surfaced :
  reported_setup_errors
    (final_trace
       ((cancel_all (H := example_platform) 5%nat [2065; 1] ;;
         s_ws_bootstrap_on_http_shutdown (H := example_platform) 5%nat 1051)
          example_connected_world))
  = [1051]
  /\ reported_setup_errors
       (final_trace
          ((cancel_all (H := example_platform) 5%nat [2065; 1] ;;
            s_ws_bootstrap_on_http_shutdown (H := example_platform) 5%nat 1051)
             example_connected_world))
     <> [2065].
Proof. split; [vm_compute; reflexivity|vm_compute; discriminate]. Qed.

(** * The response storage *)

Lemma aws_mem_acquire_succeeds `{Platform} w size :
  succeeds (aws_mem_acquire size) w
    (fun b w' =>
       steady w w' /\
       ((b = Some (length (heap w))
         /\ heap w' = heap w ++ [Some {| blk_size := size; blk_bytes := [] |}])
        \/ (b = None /\ heap w' = heap w /\ last_error w' = AWS_ERROR_OOM))).
Proof.
  unfold aws_mem_acquire.
  eapply succeeds_bind; [apply take_alloc_succeeds|].
  intros ok w1 (Hst & Hheap & Hoom). destruct ok.
  - eexists _, _. split; [reflexivity|]. simpl. rewrite Hheap.
    split; [exact Hst|]. left. split; reflexivity.
  - apply succeeds_ret. split; [exact Hst|]. right. auto.
Qed.

Lemma load_whole h buf content :
  buf_holds h buf content ->
  load h {| p_base := buf_buffer buf; p_off := 0 |} (buf_len buf) = Some content.
Proof.
  intros (Hlen & Hcap & Hbuf).
  destruct (buf_buffer buf) as [b|] eqn:Hb.
  - rewrite <- Hlen.
    apply (load_middle h b _ [] content [] Hbuf). simpl. rewrite app_nil_r. reflexivity.
  - pose proof (byte_len_nonneg content). unfold load. simpl.
    assert (Hz : buf_len buf = 0) by lia. rewrite Hz. simpl.
    f_equal. symmetry. apply byte_len_zero. lia.
Qed.

(** An append that fits the capacity happens in place. *)
Lemma append_dynamic_fits `{Platform} w buf content from :
  buf_holds (heap w) buf content ->
  buf_len buf + byte_len from <= buf_capacity buf ->
  succeeds (aws_byte_buf_append_dynamic buf from) w
    (fun r w' =>
       r = (AWS_OP_SUCCESS, {| buf_len := buf_len buf + byte_len from;
                               buf_buffer := buf_buffer buf;
                               buf_capacity := buf_capacity buf |})
       /\ steady w w' /\ length (heap w') = length (heap w)
       /\ last_error w' = last_error w /\ alloc_plan w' = alloc_plan w
       /\ (forall b', Some b' <> buf_buffer buf -> heap_get (heap w') b' = heap_get (heap w) b')
       /\ buf_holds (heap w') (snd r) (content ++ from)).
Proof.
  intros (Hlen & Hcap & Hbuf) Hfit.
  unfold aws_byte_buf_append_dynamic.
  replace (buf_capacity buf - buf_len buf <? byte_len from) with false
    by (symmetry; apply Z.ltb_ge; lia).
  pose proof (byte_len_nonneg from) as Hfrom.
  pose proof (byte_len_nonneg content) as Hcontent.
  destruct (buf_buffer buf) as [b|] eqn:Hb.
  - eexists _, _. split.
    { unfold bind. rewrite <- Hlen.
      pose proof (memcpy_to_end w b {| blk_size := buf_capacity buf; blk_bytes := content |}
                    from Hbuf) as Hm.
      cbn [blk_bytes blk_size] in Hm. rewrite Hm by lia. reflexivity. }
    simpl. split; [rewrite Hlen; reflexivity|].
    split; [repeat split|].
    split; [apply length_insert|]. split; [reflexivity|]. split; [reflexivity|].
    split; [intros b' Hne; apply heap_get_insert_ne; congruence|].
    unfold buf_holds. simpl. rewrite byte_len_app.
    repeat split; try lia.
    apply heap_get_insert_eq. eapply heap_get_lt, Hbuf.
  - assert (from = []) as -> by (apply byte_len_zero; lia).
    simpl. eexists _, _. split; [reflexivity|]. simpl.
    split; [reflexivity|]. split; [apply steady_refl|]. split; [reflexivity|].
    split; [reflexivity|]. split; [reflexivity|]. split; [reflexivity|].
    unfold buf_holds. simpl. rewrite app_nil_r.
    change (byte_len []) with 0 in *. repeat split; try lia; assumption.
Qed.

(** An append that does not fit moves the bytes to a new block and
    releases the old one, or fails and changes nothing. *)
Lemma append_dynamic_grows `{Platform} w buf content from :
  buf_holds (heap w) buf content ->
  buf_capacity buf < buf_len buf + byte_len from ->
  succeeds (aws_byte_buf_append_dynamic buf from) w
    (fun r w' =>
       steady w w' /\
       (forall b', Some b' <> buf_buffer buf -> (b' < length (heap w))%nat ->
                   heap_get (heap w') b' = heap_get (heap w) b') /\
       ((fst r = AWS_OP_SUCCESS
         /\ buf_holds (heap w') (snd r) (content ++ from)
         /\ buf_buffer (snd r) = Some (length (heap w))
         /\ match buf_buffer buf with
            | Some b => heap_get (heap w') b = None
            | None => True
            end)
        \/ (fst r = AWS_OP_ERR /\ snd r = buf /\ heap w' = heap w
            /\ last_error w' = AWS_ERROR_OOM))).
Proof.
  intros Hholds Hgrow. pose proof Hholds as (Hlen & Hcap & Hbuf).
  pose proof (byte_len_nonneg from) as Hfrom.
  pose proof (byte_len_nonneg content) as Hcontent.
  unfold aws_byte_buf_append_dynamic.
  replace (buf_capacity buf - buf_len buf <? byte_len from) with true
    by (symmetry; apply Z.ltb_lt; lia).
  eapply succeeds_bind_eq; [reflexivity|].
  rewrite (load_whole _ _ _ Hholds).
  set (new_capacity := Z.max (buf_len buf + byte_len from)
                         (buf_capacity buf + buf_capacity buf)).
  assert (Hnew : buf_len buf + byte_len from <= new_capacity) by (subst new_capacity; lia).
  eapply succeeds_bind; [apply aws_mem_acquire_succeeds|].
  intros nb w1 (Hst1 & [(-> & Hheap1)|(-> & Hheap1 & Herr1)]).
  2: { apply succeeds_ret. split; [exact Hst1|]. split; [intros; congruence|].
       right. auto. }
  set (n := length (heap w)) in *.
  assert (Hget1 : heap_get (heap w1) n
                  = Some {| blk_size := new_capacity; blk_bytes := [] |}).
  { rewrite Hheap1. apply heap_get_app_new. }
  pose proof (memcpy_to_end w1 n _ content Hget1) as Hm1.
  cbn [blk_bytes blk_size] in Hm1. change (byte_len []) with 0 in Hm1.
  eapply succeeds_bind_eq; [apply Hm1; lia|].
  set (w2 := set_heap _ w1).
  assert (Hget2 : heap_get (heap w2) n
                  = Some {| blk_size := new_capacity; blk_bytes := content |}).
  { subst w2. simpl. apply heap_get_insert_eq. rewrite Hheap1, length_app. simpl. lia. }
  pose proof (memcpy_to_end w2 n _ from Hget2) as Hm2.
  cbn [blk_bytes blk_size] in Hm2. rewrite Hlen in Hm2.
  eapply succeeds_bind_eq; [apply Hm2; lia|].
  set (w3 := set_heap _ w2).
  assert (Hlen3 : length (heap w3) = S n).
  { subst w3 w2. simpl. rewrite !length_insert, Hheap1, length_app. simpl. lia. }
  assert (Hget3 : heap_get (heap w3) n
                  = Some {| blk_size := new_capacity; blk_bytes := content ++ from |}).
  { subst w3. simpl. apply heap_get_insert_eq. subst w2. simpl.
    rewrite length_insert, Hheap1, length_app. simpl. lia. }
  assert (Hframe3 : forall b', (b' < n)%nat -> heap_get (heap w3) b' = heap_get (heap w) b').
  { intros b' Hlt. subst w3 w2. simpl.
    rewrite !heap_get_insert_ne by lia. rewrite Hheap1. apply heap_get_app_l. exact Hlt. }
  assert (Hst3 : steady w w3).
  { eapply steady_trans; [exact Hst1|]. subst w3 w2. repeat split. }
  unfold aws_byte_buf_clean_up.
  destruct (buf_buffer buf) as [b|] eqn:Hb.
  - assert (Hblt : (b < n)%nat) by (eapply heap_get_lt, Hbuf).
    unfold aws_mem_release.
    eexists _, _. split.
    { unfold bind. rewrite (Hframe3 b Hblt), Hbuf. reflexivity. }
    simpl. split; [exact Hst3|].
    split.
    { intros b' Hne Hlt. rewrite heap_get_insert_ne by congruence.
      apply Hframe3, Hlt. }
    left. split; [reflexivity|]. split.
    { unfold buf_holds. simpl. rewrite byte_len_app. repeat split; try lia.
      rewrite heap_get_insert_ne by lia. exact Hget3. }
    split; [reflexivity|].
    apply heap_get_insert_eq. rewrite !length_insert, Hheap1, length_app. simpl. lia.
  - eapply succeeds_bind_eq; [reflexivity|]. apply succeeds_ret. simpl.
    split; [exact Hst3|].
    split; [intros b' _ Hlt; apply Hframe3, Hlt|].
    left. split; [reflexivity|]. split.
    { unfold buf_holds. simpl. rewrite byte_len_app. repeat split; try lia.
      exact Hget3. }
    split; [reflexivity|exact I].
Qed.

Lemma append_dynamic_keeps_ok `{Platform} w bs from :
  bootstrap_ok w bs ->
  succeeds (aws_byte_buf_append_dynamic (bs_response_storage bs) from) w
    (fun r w' =>
       steady w w' /\
       (fst r = AWS_OP_SUCCESS \/ (fst r = AWS_OP_ERR /\ last_error w' = AWS_ERROR_OOM)) /\
       bootstrap_ok (set_boot (Some (set_bs_response_storage (snd r) bs)) w')
         (set_bs_response_storage (snd r) bs)).
Proof.
  intros (Hboot & Hreq & (content & Hresp) & Hapart).
  assert (Hlive : forall h',
            (forall b', Some b' <> buf_buffer (bs_response_storage bs) ->
                        (b' < length (heap w))%nat ->
                        heap_get h' b' = heap_get (heap w) b') ->
            buf_live h' (bs_request_storage bs)).
  { intros h' Hframe. unfold buf_live, storages_apart in *.
    destruct (buf_buffer (bs_request_storage bs)) as [a|]; [|exact I].
    destruct Hreq as [blk Hblk]. exists blk. rewrite Hframe; [exact Hblk| |].
    - destruct (buf_buffer (bs_response_storage bs)); congruence.
    - eapply heap_get_lt, Hblk. }
  destruct (Z.le_gt_cases (buf_len (bs_response_storage bs) + byte_len from)
              (buf_capacity (bs_response_storage bs))) as [Hfit|Hgrow].
  - eapply succeeds_mono; [apply (append_dynamic_fits w _ content from Hresp Hfit)|].
    intros r w' (-> & Hst & Hlen & _ & _ & Hframe & Hholds). simpl in *.
    split; [exact Hst|]. split; [left; reflexivity|].
    split; [reflexivity|]. simpl.
    split; [apply Hlive; intros; apply Hframe; assumption|].
    split; [exists (content ++ from); exact Hholds|].
    unfold storages_apart in *. simpl. exact Hapart.
  - eapply succeeds_mono;
      [apply (append_dynamic_grows w _ content from Hresp); lia|].
    intros [rc buf'] w' (Hst & Hframe & Hcases). simpl in *.
    split; [exact Hst|].
    destruct Hcases as [(-> & Hholds & Hnew & _)|(-> & -> & Hheap & Herr)].
    + split; [left; reflexivity|].
      split; [reflexivity|]. simpl.
      split; [apply Hlive, Hframe|].
      split; [exists (content ++ from); exact Hholds|].
      unfold storages_apart in *. simpl. rewrite Hnew.
      destruct (buf_buffer (bs_request_storage bs)) as [a|] eqn:Ha; [|exact I].
      unfold buf_live in Hreq. rewrite Ha in Hreq. destruct Hreq as [blk Hblk].
      apply heap_get_lt in Hblk. lia.
    + split; [right; split; [reflexivity|exact Herr]|].
      split; [reflexivity|]. simpl. rewrite Hheap.
      split; [exact Hreq|]. split; [exists content; exact Hresp|exact Hapart].
Qed.

Lemma push_back_succeeds `{Platform} w l val :
  succeeds (aws_array_list_push_back l val) w
    (fun r w' =>
       steady w w' /\ heap w' = heap w /\
       ((fst r = AWS_OP_SUCCESS /\ al_items (snd r) = al_items l ++ [val])
        \/ (fst r = AWS_OP_ERR /\ snd r = l /\ last_error w' = AWS_ERROR_OOM))).
Proof.
  unfold aws_array_list_push_back. destruct (_ <? _).
  - apply succeeds_ret. simpl. split; [apply steady_refl|]. auto.
  - eapply succeeds_bind; [apply take_alloc_succeeds|].
    intros ok w1 (Hst & Hheap & Hoom).
    destruct ok; apply succeeds_ret; simpl; (split; [exact Hst|]);
      (split; [exact Hheap|]); [left|right]; auto.
Qed.

(** The loop over a header batch keeps the bootstrap in order, touches
    only its response data, and calls nothing outside; when it stops early
    the last error is AWS_ERROR_OOM. *)
Lemma copy_response_headers_keeps_ok `{Platform} header_array :
  forall w bs,
    bootstrap_ok w bs ->
    succeeds (copy_response_headers header_array) w
      (fun ok w' =>
         trace w' = trace w /\
         (ok = false -> last_error w' = AWS_ERROR_OOM) /\
         exists bs',
           bootstrap_ok w' bs' /\
           bs_websocket_setup_callback bs' = bs_websocket_setup_callback bs /\
           bs_websocket_shutdown_callback bs' = bs_websocket_shutdown_callback bs /\
           bs_websocket bs' = bs_websocket bs /\
           bs_setup_error_code bs' = bs_setup_error_code bs).
Proof.
  induction header_array as [|src rest IH]; intros w bs Hok; simpl.
  - apply succeeds_ret. split; [reflexivity|]. split; [discriminate|].
    exists bs. auto.
  - pose proof Hok as (Hboot & _).
    eapply succeeds_bind_eq; [unfold get_bootstrap; rewrite Hboot; reflexivity|].
    eapply succeeds_bind; [apply (append_dynamic_keeps_ok w bs _ Hok)|].
    intros r1 w1 ((Hi1 & Hb1 & Ht1) & Hrc1 & Hok1).
    eapply succeeds_bind_eq; [reflexivity|].
    set (bs1 := set_bs_response_storage (snd r1) bs) in *.
    set (w1' := set_boot (Some bs1) w1) in *.
    destruct Hrc1 as [Hrc1|[Hrc1 Herr1]]; rewrite Hrc1; simpl.
    2: { apply succeeds_ret. split; [exact Ht1|].
         split; [intros _; exact Herr1|]. exists bs1. auto. }
    eapply succeeds_bind_eq; [reflexivity|].
    eapply succeeds_bind; [apply (append_dynamic_keeps_ok w1' bs1 _ Hok1)|].
    intros r2 w2 ((Hi2 & Hb2 & Ht2) & Hrc2 & Hok2).
    eapply succeeds_bind_eq; [reflexivity|].
    set (bs2 := set_bs_response_storage (snd r2) bs1) in *.
    set (w2' := set_boot (Some bs2) w2) in *.
    destruct Hrc2 as [Hrc2|[Hrc2 Herr2]]; rewrite Hrc2; simpl.
    2: { apply succeeds_ret. split; [simpl in *; congruence|].
         split; [intros _; exact Herr2|]. exists bs2. auto. }
    eapply succeeds_bind_eq; [reflexivity|].
    eapply succeeds_bind; [apply push_back_succeeds|].
    intros r3 w3 ((Hi3 & Hb3 & Ht3) & Hheap3 & Hrc3).
    eapply succeeds_bind_eq; [reflexivity|].
    set (bs3 := set_bs_response_headers (snd r3) bs2) in *.
    set (w3' := set_boot (Some bs3) w3) in *.
    assert (Hok3 : bootstrap_ok w3' bs3).
    { eapply bootstrap_ok_update; [exact Hok2|exact Hheap3|reflexivity|reflexivity
                                   |reflexivity]. }
    destruct Hrc3 as [[Hrc3 _]|[Hrc3 [_ Herr3]]]; rewrite Hrc3; simpl.
    2: { apply succeeds_ret. split; [simpl in *; congruence|].
         split; [intros _; exact Herr3|]. exists bs3. auto. }
    eapply succeeds_mono; [apply (IH w3' bs3 Hok3)|].
    intros ok w4 (Ht4 & Herr4 & bs4 & Hok4 & H1 & H2 & H3 & H4).
    split; [simpl in *; congruence|].
    split; [exact Herr4|]. exists bs4. split; [exact Hok4|].
    repeat split; simpl in *; congruence.
Qed.

(** * The handlers while the setup callback is pending *)

Lemma no_callback_since_refl w : no_callback_since w w.
Proof. exists []. split; [symmetry; apply app_nil_r|reflexivity]. Qed.

Lemma user_callbacks_app a b : user_callbacks (a ++ b) = user_callbacks a ++ user_callbacks b.
Proof. apply List.filter_app. Qed.

Lemma no_callback_since_trans w1 w2 w3 :
  no_callback_since w1 w2 -> no_callback_since w2 w3 -> no_callback_since w1 w3.
Proof.
  intros (e1 & Ht1 & Hc1) (e2 & Ht2 & Hc2). exists (e1 ++ e2).
  split; [rewrite Ht2, Ht1, app_assoc; reflexivity|].
  rewrite user_callbacks_app, Hc1, Hc2. reflexivity.
Qed.

(** A cancellation keeps the setup callback pending and makes no user
    callback. *)
Lemma cancel_keeps_pending `{Platform} w fn sh http_connection error_code :
  pending_with w fn sh ->
  error_code <> 0 ->
  succeeds (s_ws_bootstrap_cancel_setup_due_to_err http_connection error_code) w
    (fun _ w' => pending_with w' fn sh /\ no_callback_since w w').
Proof.
  intros (bs & Hok & Hfn & Hws & Hsh) Hne.
  eapply succeeds_mono; [apply (cancel_setup_succeeds w bs _ _ Hok Hne)|].
  cbn zeta. intros ? w' (Hok' & _ & Ht). split.
  - eexists. split; [exact Hok'|].
    destruct (bs_setup_error_code bs =? 0); auto.
  - eexists. split; [exact Ht|]. destruct (bs_setup_error_code bs =? 0); reflexivity.
Qed.

Lemma on_response_headers_keeps_pending `{Platform} w fn sh stream header_array :
  AWS_ERROR_OOM <> 0 ->
  pending_with w fn sh ->
  succeeds (s_ws_bootstrap_on_handshake_response_headers stream header_array) w
    (fun _ w' => pending_with w' fn sh /\ no_callback_since w w').
Proof.
  intros Hoom (bs & Hok & Hfn & Hws & Hsh).
  unfold s_ws_bootstrap_on_handshake_response_headers.
  eapply succeeds_bind; [apply (copy_response_headers_keeps_ok _ w bs Hok)|].
  intros ok w1 (Ht1 & Herr1 & bs1 & Hok1 & H1 & H2 & H3 & H4).
  assert (Hpending1 : pending_with w1 fn sh).
  { exists bs1. split; [exact Hok1|]. repeat split; congruence. }
  assert (Hsince1 : no_callback_since w w1).
  { exists []. split; [rewrite app_nil_r; exact Ht1|reflexivity]. }
  destruct ok.
  - apply succeeds_ret. auto.
  - eapply succeeds_bind_eq; [reflexivity|].
    eapply succeeds_mono; [apply (cancel_keeps_pending w1 fn sh _ _ Hpending1)|].
    + rewrite (Herr1 eq_refl). exact Hoom.
    + intros ? w2 (Hp2 & Hs2). split; [exact Hp2|].
      eapply no_callback_since_trans; eassumption.
Qed.

Lemma on_http_setup_keeps_pending `{Platform} `{Collaborators} w fn sh http_connection :
  collaborators_raise ->
  pending_with w fn sh ->
  succeeds (s_ws_bootstrap_on_http_setup (Some http_connection) 0) w
    (fun _ w' => pending_with w' fn sh /\ no_callback_since w w').
Proof.
  intros (Hstream & _) Hpending. pose proof Hpending as (bs & (Hboot & _) & _).
  unfold s_ws_bootstrap_on_http_setup.
  eapply succeeds_bind_eq; [unfold get_bootstrap; rewrite Hboot; reflexivity|].
  eapply succeeds_bind_eq; [reflexivity|].
  change (negb (0 =? 0)) with false. cbv iota.
  destruct (aws_http_stream_new_client_request _) as [e|handshake_stream] eqn:Hnew.
  - eapply succeeds_bind_eq; [reflexivity|].
    eapply succeeds_bind_eq; [reflexivity|].
    eapply succeeds_mono.
    { apply (cancel_keeps_pending _ fn sh).
      - destruct Hpending as (bs' & Hok' & Hrest). exists bs'. split; [|exact Hrest].
        eapply bootstrap_ok_update;
          [exact Hok'|reflexivity|apply Hok'|reflexivity|reflexivity].
      - simpl. eapply Hstream, Hnew. }
    intros ? w' (Hp & Hs). split; [exact Hp|exact Hs].
  - apply succeeds_ret. split; [exact Hpending|apply no_callback_since_refl].
Qed.

Lemma handshake_complete_error_keeps_pending `{Platform} w fn sh stream error_code :
  pending_with w fn sh ->
  (if error_code =? 0 then last_error w else error_code) <> 0 ->
  succeeds (handshake_complete_error stream (aws_http_stream_get_connection stream)
              error_code) w
    (fun _ w' => pending_with w' fn sh /\ no_callback_since w w').
Proof.
  intros (bs & Hok & Hfn & Hws & Hsh) Hne.
  eapply succeeds_mono; [apply (handshake_complete_error_succeeds w bs _ _ Hok Hne)|].
  cbn zeta. intros ? w' (Hok' & _ & _ & Ht). split.
  - eexists. split; [exact Hok'|].
    destruct (bs_setup_error_code bs =? 0); auto.
  - eexists. split; [exact Ht|]. destruct (bs_setup_error_code bs =? 0); reflexivity.
Qed.

Lemma pending_with_update w fn sh w' bs :
  pending_with w fn sh ->
  boot w = Some bs ->
  heap w' = heap w ->
  forall bs',
    boot w' = Some bs' ->
    bs_request_storage bs' = bs_request_storage bs ->
    bs_response_storage bs' = bs_response_storage bs ->
    bs_websocket_setup_callback bs' = bs_websocket_setup_callback bs ->
    bs_websocket bs' = bs_websocket bs ->
    bs_websocket_shutdown_callback bs' = bs_websocket_shutdown_callback bs ->
    pending_with w' fn sh.
Proof.
  intros (bs0 & Hok & Hfn & Hws & Hsh) Hboot Hheap bs' Hboot' Hrq Hrs H1 H2 H3.
  assert (bs0 = bs) as -> by (destruct Hok as (Hb & _); congruence).
  exists bs'. split.
  - eapply bootstrap_ok_update; eassumption.
  - repeat split; congruence.
Qed.

(** [s_ws_bootstrap_on_handshake_complete] while the setup callback is
    pending: either it cancels, and the callback stays pending, or it
    establishes the websocket and makes the one successful setup
    callback. *)
Lemma on_handshake_complete_pending `{Platform} `{Collaborators} w fn sh stream error_code :
  AWS_ERROR_HTTP_WEBSOCKET_UPGRADE_FAILURE <> 0 ->
  collaborators_raise ->
  pending_with w fn sh ->
  succeeds (s_ws_bootstrap_on_handshake_complete stream error_code) w
    (fun _ w' =>
       (pending_with w' fn sh /\ no_callback_since w w')
       \/ (established_with w' sh
           /\ exists evs ws st hs ud,
                trace w' = trace w ++ evs
                /\ user_callbacks evs = [EvSetupCallback fn (Some ws) 0 st hs ud])).
Proof.
  intros Hupgrade (_ & Hhandler) Hpending.
  pose proof Hpending as (bs & Hok & Hfn & Hws & Hsh). pose proof Hok as (Hboot & _).
  unfold s_ws_bootstrap_on_handshake_complete.
  eapply succeeds_bind_eq; [unfold get_bootstrap; rewrite Hboot; reflexivity|].
  destruct (Z.eqb_spec error_code 0) as [->|Hne]; cbn [negb].
  2: { eapply succeeds_mono.
       { apply (handshake_complete_error_keeps_pending w fn sh stream error_code Hpending).
         destruct (Z.eqb_spec error_code 0); [contradiction|exact Hne]. }
       intros ? w' Hpost. left. exact Hpost. }
  eapply succeeds_bind_eq; [reflexivity|].
  set (bs0 := set_bs_response_status
                (aws_http_stream_get_incoming_response_status stream) bs).
  set (w0 := set_boot (Some bs0) w).
  assert (Hpending0 : pending_with w0 fn sh).
  { eapply (pending_with_update w fn sh w0 bs Hpending Hboot); reflexivity. }
  destruct (bs_response_status bs0 =? AWS_HTTP_STATUS_101_SWITCHING_PROTOCOLS); cbn [negb].
  2: { eapply succeeds_bind_eq; [reflexivity|].
       eapply succeeds_mono.
       { apply (handshake_complete_error_keeps_pending _ fn sh stream 0).
         - eapply (pending_with_update w0 fn sh _ bs0 Hpending0); reflexivity.
         - simpl. exact Hupgrade. }
       intros ? w' (Hp & evs & Ht & Hc). left. split; [exact Hp|].
       exists evs. split; [exact Ht|exact Hc]. }
  destruct (aws_websocket_handler_new _) as [e|websocket] eqn:Hnew.
  - eapply succeeds_bind_eq; [reflexivity|].
    eapply succeeds_bind_eq; [reflexivity|].
    eapply succeeds_mono.
    { apply (handshake_complete_error_keeps_pending _ fn sh stream 0).
      - eapply (pending_with_update w0 fn sh _ bs0 Hpending0); try reflexivity.
        simpl. symmetry. exact Hws.
      - simpl. eapply Hhandler, Hnew. }
    intros ? w' (Hp & evs & Ht & Hc). left. split; [exact Hp|].
    exists evs. split; [exact Ht|exact Hc].
  - eapply succeeds_bind_eq; [reflexivity|].
    unfold call_websocket_setup_callback.
    cbn [bs_websocket_setup_callback set_bs_websocket bs0 set_bs_response_status].
    rewrite Hfn.
    eapply succeeds_bind_eq; [reflexivity|].
    eapply succeeds_bind_eq; [reflexivity|].
    eexists _, _. split; [reflexivity|].
    right. split.
    + exists (set_bs_websocket_setup_callback None
                (set_bs_websocket (Some websocket) bs0)).
      split; [|split; [reflexivity|split; [discriminate|exact Hsh]]].
      eapply bootstrap_ok_update; [exact Hok|reflexivity|reflexivity|reflexivity|reflexivity].
    + eexists _, _, _, _, _. split.
      * simpl. rewrite <- app_assoc. reflexivity.
      * reflexivity.
Qed.

(** * Whole lifetimes *)

Lemma pending_shutdown_history `{Platform} w fn sh http_connection error_code :
  pending_with w fn sh ->
  succeeds (s_ws_bootstrap_on_http_shutdown http_connection error_code) w
    (fun _ w' =>
       exists evs, trace w' = trace w ++ evs
                   /\ callback_history fn sh (user_callbacks evs)).
Proof.
  intros (bs & Hok & Hfn & Hws & Hsh).
  eapply succeeds_mono.
  { apply (on_http_shutdown_succeeds w bs http_connection error_code Hok).
    - intros _. exact Hws.
    - intros Hnone. rewrite Hfn in Hnone. discriminate. }
  intros ? w' (_ & Ht). eexists. split; [exact Ht|].
  unfold shutdown_calls. rewrite Hfn. left. simpl. eauto.
Qed.

Lemma established_shutdown_history `{Platform} w w0 fn sh http_connection error_code
    evs ws st hs ud :
  established_with w sh ->
  trace w = trace w0 ++ evs ->
  user_callbacks evs = [EvSetupCallback fn (Some ws) 0 st hs ud] ->
  succeeds (s_ws_bootstrap_on_http_shutdown http_connection error_code) w
    (fun _ w' =>
       exists evs', trace w' = trace w0 ++ evs'
                    /\ callback_history fn sh (user_callbacks evs')).
Proof.
  intros (bs & Hok & Hfn & Hws & Hsh) Ht Hcalls.
  eapply succeeds_mono.
  { apply (on_http_shutdown_succeeds w bs http_connection error_code Hok).
    - intros Hne. contradiction.
    - intros _ _. exact Hws. }
  intros ? w' (_ & Ht'). eexists. split.
  { rewrite Ht', Ht, <- app_assoc. reflexivity. }
  rewrite !user_callbacks_app, Hcalls. unfold shutdown_calls. rewrite Hfn, Hsh.
  right. exists ws, st, hs, ud. destruct sh as [g|]; simpl; eauto.
Qed.

(** After the connection is set up, with the setup callback pending, the
    rest of a lifetime makes the user callbacks of [callback_history]. *)
Lemma after_setup_history `{Platform} `{Collaborators} fn sh cs :
  AWS_ERROR_OOM <> 0 ->
  AWS_ERROR_HTTP_WEBSOCKET_UPGRADE_FAILURE <> 0 ->
  collaborators_raise ->
  after_setup cs = true ->
  forall w,
    pending_with w fn sh ->
    succeeds (run cs) w
      (fun _ w' =>
         exists evs, trace w' = trace w ++ evs
                     /\ callback_history fn sh (user_callbacks evs)).
Proof.
  intros Hoom Hupgrade Hraise.
  induction cs as [|c rest IH]; intros Hafter w Hpending; [discriminate|].
  destruct c as [conn e|stream header_array|stream e|conn e].
  - discriminate.
  - assert (Hrest : after_setup rest = true).
    { simpl in Hafter. destruct rest; [discriminate|exact Hafter]. }
    simpl. eapply succeeds_bind.
    { apply (on_response_headers_keeps_pending w fn sh stream header_array Hoom Hpending). }
    intros ? w1 (Hp1 & evs1 & Ht1 & Hc1).
    eapply succeeds_mono; [apply (IH Hrest w1 Hp1)|].
    intros ? w2 (evs2 & Ht2 & Hh2). exists (evs1 ++ evs2). split.
    + rewrite Ht2, Ht1, app_assoc. reflexivity.
    + rewrite user_callbacks_app, Hc1. exact Hh2.
  - destruct rest as [|[| | |conn e'] [|]]; try discriminate.
    simpl. eapply succeeds_bind.
    { apply (on_handshake_complete_pending w fn sh stream e Hupgrade Hraise Hpending). }
    intros ? w1 [(Hp1 & evs1 & Ht1 & Hc1)|(He1 & evs1 & ws & st & hs & ud & Ht1 & Hc1)].
    + eapply succeeds_bind; [apply (pending_shutdown_history w1 fn sh conn e' Hp1)|].
      intros ? w2 (evs2 & Ht2 & Hh2). apply succeeds_ret.
      exists (evs1 ++ evs2). split.
      * rewrite Ht2, Ht1, app_assoc. reflexivity.
      * rewrite user_callbacks_app, Hc1. exact Hh2.
    + eapply succeeds_bind;
        [apply (established_shutdown_history w1 w fn sh conn e' evs1 ws st hs ud He1 Ht1 Hc1)|].
      intros ? w2 Hpost. apply succeeds_ret. exact Hpost.
  - destruct rest; [|discriminate].
    simpl. eapply succeeds_bind; [apply (pending_shutdown_history w fn sh conn e Hpending)|].
    intros ? w1 Hpost. apply succeeds_ret. exact Hpost.
Qed.

(** A whole lifetime makes the user callbacks of [callback_history]. *)
Lemma lifetime_history `{Platform} `{Collaborators} w fn sh cs :
  AWS_ERROR_OOM <> 0 ->
  AWS_ERROR_HTTP_WEBSOCKET_UPGRADE_FAILURE <> 0 ->
  collaborators_raise ->
  pending_with w fn sh ->
  lifetime cs = true ->
  succeeds (run cs) w
    (fun _ w' =>
       exists evs, trace w' = trace w ++ evs
                   /\ callback_history fn sh (user_callbacks evs)).
Proof.
  intros Hoom Hupgrade Hraise Hpending Hlife.
  destruct cs as [|[[conn|] e| | |] rest]; try discriminate.
  - (* the connection is set up *)
    simpl in Hlife. destruct (Z.eqb_spec e 0) as [->|Hne].
    2: { destruct e; discriminate || contradiction. }
    simpl. eapply succeeds_bind.
    { apply (on_http_setup_keeps_pending w fn sh conn Hraise Hpending). }
    intros ? w1 (Hp1 & evs1 & Ht1 & Hc1).
    eapply succeeds_mono;
      [apply (after_setup_history fn sh rest Hoom Hupgrade Hraise Hlife w1 Hp1)|].
    intros ? w2 (evs2 & Ht2 & Hh2). exists (evs1 ++ evs2). split.
    + rewrite Ht2, Ht1, app_assoc. reflexivity.
    + rewrite user_callbacks_app, Hc1. exact Hh2.
  - (* the connection fails to set up *)
    destruct rest; [|discriminate]. simpl in Hlife.
    destruct Hpending as (bs & Hok & Hfn & Hws & Hsh).
    assert (Hne : e <> 0).
    { intros ->. discriminate. }
    simpl. eapply succeeds_bind.
    { apply (on_http_setup_failure_succeeds w bs fn e Hok Hfn Hne). }
    intros ? w1 (Ht1 & _). apply succeeds_ret.
    eexists. split; [exact Ht1|]. left. simpl. eauto.
Qed.

Lemma count_events_user_callbacks (p : event -> bool) evs :
  (forall e, p e = true -> is_user_callback e = true) ->
  count_events p evs = count_events p (user_callbacks evs).
Proof.
  intros Hp. unfold count_events, user_callbacks.
  induction evs as [|e rest IH]; simpl; [reflexivity|].
  destruct (p e) eqn:Epe.
  - rewrite (Hp e Epe). simpl. rewrite Epe. simpl. f_equal. exact IH.
  - destruct (is_user_callback e); simpl; [rewrite Epe|]; exact IH.
Qed.

Lemma setup_is_user e : is_setup_callback e = true -> is_user_callback e = true.
Proof. destruct e; simpl; congruence. Qed.

Lemma shutdown_is_user e : is_shutdown_callback e = true -> is_user_callback e = true.
Proof. destruct e; simpl; congruence. Qed.

Lemma success_is_user e : is_setup_success e = true -> is_user_callback e = true.
Proof. destruct e; simpl; congruence. Qed.

(** What [callback_history] says in terms of counts and order. *)
Lemma callback_history_counts fn sh evs :
  callback_history fn sh (user_callbacks evs) ->
  count_events is_setup_callback evs = 1%nat
  /\ (count_events is_shutdown_callback evs <= 1)%nat
  /\ (count_events is_shutdown_callback evs = 1%nat
      <-> count_events is_setup_success evs = 1%nat /\ sh <> None)
  /\ (forall before e after,
         evs = before ++ e :: after ->
         is_shutdown_callback e = true ->
         count_events is_setup_success before = 1%nat).
Proof.
  intros Hhist.
  rewrite (count_events_user_callbacks is_setup_callback evs setup_is_user).
  rewrite (count_events_user_callbacks is_shutdown_callback evs shutdown_is_user).
  rewrite (count_events_user_callbacks is_setup_success evs success_is_user).
  assert (Horder : forall calls,
            user_callbacks evs = calls ->
            (forall before e after,
                calls = before ++ e :: after -> is_shutdown_callback e = true ->
                count_events is_setup_success before = 1%nat) ->
            forall before e after,
              evs = before ++ e :: after ->
              is_shutdown_callback e = true ->
              count_events is_setup_success before = 1%nat).
  { intros calls Hcalls Hsplit before e after Hevs He.
    rewrite (count_events_user_callbacks is_setup_success before success_is_user).
    apply (Hsplit (user_callbacks before) e (user_callbacks after)); [|exact He].
    rewrite <- Hcalls, Hevs, user_callbacks_app. simpl.
    rewrite (shutdown_is_user e He). reflexivity. }
  destruct Hhist as [(e & st & hs & ud & Hcalls)|(ws & st & hs & ud & Hcalls)].
  - rewrite Hcalls.
    split; [reflexivity|]. split; [unfold count_events; simpl; lia|].
    split.
    { unfold count_events. simpl. split; [discriminate|intros [? _]; discriminate]. }
    apply (Horder _ Hcalls). intros before e' after Heq He'.
    destruct before as [|x [|y l]]; simpl in Heq; inversion Heq; subst; try discriminate.
    all: try (destruct l; discriminate).
  - destruct sh as [g|].
    + destruct Hcalls as (ws' & e & ud' & Hcalls). rewrite Hcalls.
      split; [reflexivity|]. split; [unfold count_events; simpl; lia|].
      split.
      { unfold count_events. simpl.
        split; [intros _; split; [reflexivity|discriminate]|reflexivity]. }
      apply (Horder _ Hcalls). intros before e' after Heq He'.
      destruct before as [|x [|y l]]; simpl in Heq; inversion Heq; subst;
        try discriminate; try reflexivity.
      all: try (destruct l; discriminate).
    + rewrite Hcalls.
      split; [reflexivity|]. split; [unfold count_events; simpl; lia|].
      split.
      { unfold count_events. simpl.
        split; [discriminate|intros [_ Hne]; contradiction]. }
      apply (Horder _ Hcalls). intros before e' after Heq He'.
      destruct before as [|x [|y l]]; simpl in Heq; inversion Heq; subst; try discriminate.
      all: try (destruct l; discriminate).
Qed.

(** C4: over a whole lifetime of the HTTP layer's callbacks (the setup
    fails, or it succeeds and header batches, at most one handshake
    completion and the shutdown follow), starting with the setup callback
    pending, every handler runs without a fault, the setup callback is
    called exactly once, and the shutdown callback is called (once) if and
    only if the setup callback reported success and a shutdown callback was
    given, and then only after that successful setup callback. *)
Theorem callbacks_fire_once `{Platform} `{Collaborators}
    (w : world) (fn : fn_ptr) (sh : option fn_ptr) (cs : list http_callback) :
  AWS_ERROR_OOM <> 0 ->
  AWS_ERROR_HTTP_WEBSOCKET_UPGRADE_FAILURE <> 0 ->
  collaborators_raise ->
  pending_with w fn sh ->
  lifetime cs = true ->
  succeeds (run cs) w
    (fun _ w' =>
       exists evs,
         trace w' = trace w ++ evs
         /\ count_events is_setup_callback evs = 1%nat
         /\ (count_events is_shutdown_callback evs <= 1)%nat
         /\ (count_events is_shutdown_callback evs = 1%nat
             <-> count_events is_setup_success evs = 1%nat /\ sh <> None)
         /\ (forall before e after,
                evs = before ++ e :: after ->
                is_shutdown_callback e = true ->
                count_events is_setup_success before = 1%nat)).
Proof.
  intros Hoom Hupgrade Hraise Hpending Hlife.
  eapply succeeds_mono;
    [apply (lifetime_history w fn sh cs Hoom Hupgrade Hraise Hpending Hlife)|].
  intros ? w' (evs & Ht & Hhist). exists evs. split; [exact Ht|].
  apply (callback_history_counts fn sh evs Hhist).
Qed.

Lemma callbacks_fire_once_witness :
  succeeds
    (run (H := example_platform) (H0 := example_http)
       [OnHttpSetup (Some 5%nat) 0;
        OnResponseHeaders (example_stream 101) [example_short_header];
        OnHandshakeComplete (example_stream 101) 0;
        OnHttpShutdown 5%nat 0])
    example_connected_world
    (fun _ w' =>
       exists evs,
         trace w' = trace example_connected_world ++ evs
         /\ count_events is_setup_callback evs = 1%nat
         /\ (count_events is_shutdown_callback evs <= 1)%nat
         /\ (count_events is_shutdown_callback evs = 1%nat
             <-> count_events is_setup_success evs = 1%nat /\ Some 11%nat <> None)
         /\ (forall before e after,
                evs = before ++ e :: after ->
                is_shutdown_callback e = true ->
                count_events is_setup_success before = 1%nat)).
Proof.
  apply (callbacks_fire_once (H := example_platform) (H0 := example_http)
           example_connected_world 10%nat (Some 11%nat));
    [discriminate|discriminate|split; intros o e Heq; discriminate| |reflexivity].
  exists example_bootstrap. split; [example_bootstrap_ok|repeat split].
Defined.

(** * Response headers and the growth of their storage *)

(** C2 (the code departs from the claim): the header records keep the
    addresses taken before each append.  In the connected example the
    response storage has room for 768 bytes.  A batch with one short
    header is captured and reads back; when a header with an 800-byte
    value follows, in the same batch or in a later one, the storage moves
    to a new block: every byte is copied there, but the records still
    point into the released block, and the captured list cannot be read. *)
Theorem response_headers_dangle_after_growth :
  captured_headers
    (s_ws_bootstrap_on_handshake_response_headers (H := example_platform)
       (example_stream 101) [example_short_header] example_connected_world)
  = Some [example_short_header]
  /\ captured_headers
       (s_ws_bootstrap_on_handshake_response_headers (H := example_platform)
          (example_stream 101) [example_short_header; example_long_header]
          example_connected_world)
     = None
  /\ captured_headers
       ((s_ws_bootstrap_on_handshake_response_headers (H := example_platform)
           (example_stream 101) [example_short_header] ;;
         s_ws_bootstrap_on_handshake_response_headers (H := example_platform)
           (example_stream 101) [example_long_header])
          example_connected_world)
     = None
  /\ response_bytes
       ((s_ws_bootstrap_on_handshake_response_headers (H := example_platform)
           (example_stream 101) [example_short_header] ;;
         s_ws_bootstrap_on_handshake_response_headers (H := example_platform)
           (example_stream 101) [example_long_header])
          example_connected_world)
     = Some (header_stream [example_short_header; example_long_header]).
Proof. repeat split; vm_compute; reflexivity. Qed.

(** ** Without growth the captured headers read back *)

Lemma heap_grows_refl h : heap_grows h h.
Proof. intros b blk Hget. exists blk, []. rewrite app_nil_r. auto. Qed.

Lemma heap_grows_trans h1 h2 h3 : heap_grows h1 h2 -> heap_grows h2 h3 -> heap_grows h1 h3.
Proof.
  intros H12 H23 b blk Hget.
  destruct (H12 b blk Hget) as (blk2 & m2 & Hget2 & Hb2).
  destruct (H23 b blk2 Hget2) as (blk3 & m3 & Hget3 & Hb3).
  exists blk3, (m2 ++ m3). split; [exact Hget3|]. rewrite Hb3, Hb2, app_assoc. reflexivity.
Qed.

Lemma load_grows h h' p n x :
  heap_grows h h' -> load h p n = Some x -> load h' p n = Some x.
Proof.
  intros Hgrows. unfold load. destruct (p_base p) as [b|]; [|auto].
  destruct (heap_get h b) as [blk|] eqn:Hget; [|discriminate].
  destruct (Hgrows b blk Hget) as (blk' & more & Hget' & Hbytes).
  rewrite Hget', Hbytes.
  destruct (Z.leb_spec 0 (p_off p)) as [Hoff|]; [|discriminate].
  destruct (Z.leb_spec 0 n) as [Hn|]; [|discriminate].
  destruct (Z.leb_spec (p_off p + n) (byte_len (blk_bytes blk))) as [Hfit|]; [|discriminate].
  simpl. intros Hx. injection Hx as <-.
  pose proof (byte_len_nonneg more).
  rewrite byte_len_app.
  replace (p_off p + n <=? byte_len (blk_bytes blk) + byte_len more) with true
    by (symmetry; apply Z.leb_le; lia).
  f_equal. unfold byte_len in *.
  rewrite drop_app_le by lia.
  rewrite take_app_le; [reflexivity|]. rewrite length_drop. lia.
Qed.

Lemma load_headers_grows h h' hs xs :
  heap_grows h h' -> load_headers h hs = Some xs -> load_headers h' hs = Some xs.
Proof.
  intros Hgrows. revert xs.
  induction hs as [|hd rest IH]; intros xs; simpl; [auto|].
  unfold load_header, load_cursor.
  destruct (load h (cur_ptr (hdr_name hd)) _) as [n|] eqn:En; [|discriminate].
  destruct (load h (cur_ptr (hdr_value hd)) _) as [v|] eqn:Ev; [|discriminate].
  destruct (load_headers h rest) as [ys|]; [|discriminate].
  rewrite (load_grows h h' _ _ _ Hgrows En), (load_grows h h' _ _ _ Hgrows Ev).
  rewrite (IH ys eq_refl). auto.
Qed.

Lemma load_headers_snoc h hs xs hd x :
  load_headers h hs = Some xs ->
  load_header h hd = Some x ->
  load_headers h (hs ++ [hd]) = Some (xs ++ [x]).
Proof.
  revert xs. induction hs as [|a rest IH]; intros xs Hxs Hx; simpl in *.
  - injection Hxs as <-. rewrite Hx. reflexivity.
  - destruct (load_header h a) as [y|]; [|discriminate].
    destruct (load_headers h rest) as [ys|]; [|discriminate].
    injection Hxs as <-. rewrite (IH ys eq_refl Hx). reflexivity.
Qed.

Lemma push_back_never_failing `{Platform} w l val :
  alloc_plan w = [] ->
  exists r,
    aws_array_list_push_back l val w = Ok r w
    /\ fst r = AWS_OP_SUCCESS /\ al_items (snd r) = al_items l ++ [val].
Proof.
  intros Hplan. unfold aws_array_list_push_back. destruct (_ <? _).
  - eexists. split; [reflexivity|]. split; reflexivity.
  - unfold bind, take_alloc. rewrite Hplan.
    eexists. split; [reflexivity|]. split; reflexivity.
Qed.

(** An append in place only adds bytes to the storage's block. *)
Lemma append_dynamic_in_place `{Platform} w buf content from b :
  buf_holds (heap w) buf content ->
  buf_buffer buf = Some b ->
  buf_len buf + byte_len from <= buf_capacity buf ->
  succeeds (aws_byte_buf_append_dynamic buf from) w
    (fun r w' =>
       r = (AWS_OP_SUCCESS, {| buf_len := buf_len buf + byte_len from;
                               buf_buffer := Some b;
                               buf_capacity := buf_capacity buf |})
       /\ steady w w' /\ alloc_plan w' = alloc_plan w
       /\ heap_grows (heap w) (heap w')
       /\ buf_holds (heap w') (snd r) (content ++ from)).
Proof.
  intros Hholds Hb Hfit.
  eapply succeeds_mono; [apply (append_dynamic_fits w buf content from Hholds Hfit)|].
  intros r w' (-> & Hst & _ & _ & Hplan & Hframe & Hholds').
  rewrite Hb in *. simpl in *.
  split; [reflexivity|]. split; [exact Hst|]. split; [exact Hplan|].
  split; [|exact Hholds'].
  intros b' blk Hget. destruct (Nat.eq_dec b' b) as [->|Hne].
  - destruct Hholds as (_ & _ & Hold). destruct Hholds' as (_ & _ & Hnew).
    rewrite Hb in Hold. simpl in Hnew. rewrite Hold in Hget. injection Hget as <-.
    eexists _, from. split; [exact Hnew|reflexivity].
  - exists blk, []. rewrite app_nil_r. split; [|reflexivity].
    rewrite Hframe by congruence. exact Hget.
Qed.

(** The loop over a batch, when the batch fits the response storage and
    the allocator does not fail: every header is captured, and the
    captured list reads back as the headers received. *)
Lemma copy_response_headers_in_place `{Platform} header_array :
  forall w bs b content captured,
    boot w = Some bs ->
    alloc_plan w = [] ->
    buf_buffer (bs_response_storage bs) = Some b ->
    buf_holds (heap w) (bs_response_storage bs) content ->
    load_headers (heap w) (al_items (bs_response_headers bs)) = Some captured ->
    buf_len (bs_response_storage bs) + byte_len (header_stream header_array)
    <= buf_capacity (bs_response_storage bs) ->
    succeeds (copy_response_headers header_array) w
      (fun ok w' =>
         ok = true /\ trace w' = trace w /\ alloc_plan w' = [] /\
         exists bs',
           boot w' = Some bs' /\
           buf_buffer (bs_response_storage bs') = Some b /\
           buf_capacity (bs_response_storage bs') = buf_capacity (bs_response_storage bs) /\
           buf_holds (heap w') (bs_response_storage bs')
             (content ++ header_stream header_array) /\
           load_headers (heap w') (al_items (bs_response_headers bs'))
           = Some (captured ++ header_array)).
Proof.
  induction header_array as [|src rest IH];
    intros w bs b content captured Hboot Hplan Hb Hholds Hcaptured Hfit.
  - simpl. apply succeeds_ret. rewrite !app_nil_r.
    repeat split; auto. exists bs. auto.
  - simpl in Hfit |- *. rewrite !byte_len_app in Hfit.
    pose proof (byte_len_nonneg (hb_name src)). pose proof (byte_len_nonneg (hb_value src)).
    pose proof (byte_len_nonneg (header_stream rest)).
    eapply succeeds_bind_eq; [unfold get_bootstrap; rewrite Hboot; reflexivity|].
    eapply succeeds_bind.
    { apply (append_dynamic_in_place w _ content (hb_name src) b Hholds Hb). lia. }
    intros r1 w1 (-> & (_ & Hb1 & Ht1) & Hplan1 & Hgrows1 & Hholds1). cbn [fst snd] in *.
    eapply succeeds_bind_eq; [reflexivity|].
    change (negb (AWS_OP_SUCCESS =? 0)) with false. cbv iota.
    eapply succeeds_bind_eq; [reflexivity|].
    cbn [bs_response_storage set_bs_response_storage].
    eapply succeeds_bind.
    { eapply append_dynamic_in_place; [exact Hholds1|reflexivity|simpl; lia]. }
    intros r2 w2 (-> & (_ & Hb2 & Ht2) & Hplan2 & Hgrows2 & Hholds2). cbn [fst snd] in *.
    eapply succeeds_bind_eq; [reflexivity|].
    change (negb (AWS_OP_SUCCESS =? 0)) with false. cbv iota.
    eapply succeeds_bind_eq; [reflexivity|].
    set (dst := {| hdr_name := _; hdr_value := _ |}).
    set (bs2 := set_bs_response_storage _ (set_bs_response_storage _ bs)).
    set (w2' := set_boot (Some bs2) w2).
    destruct (push_back_never_failing w2' (bs_response_headers bs2) dst)
      as ([rc3 l3] & Hpush & Hrc3 & Hitems3).
    { simpl. rewrite Hplan2. simpl. rewrite Hplan1. simpl. exact Hplan. }
    simpl in Hrc3, Hitems3. subst rc3.
    eapply succeeds_bind_eq; [exact Hpush|].
    eapply succeeds_bind_eq; [reflexivity|].
    change (negb (fst (AWS_OP_SUCCESS, l3) =? 0)) with false. cbv iota.
    assert (Hdst : load_header (heap w2) dst = Some src).
    { destruct Hholds2 as (_ & _ & Hget). simpl in Hget.
      destruct Hholds as (Hlen & _ & _).
      unfold load_header, load_cursor, dst. simpl. unfold buf_end. rewrite Hb. simpl.
      rewrite <- Hlen.
      rewrite (load_middle (heap w2) b _ content (hb_name src) (hb_value src) Hget)
        by (simpl; rewrite <- app_assoc; reflexivity).
      rewrite <- byte_len_app.
      rewrite (load_middle (heap w2) b _ (content ++ hb_name src) (hb_value src) [] Hget)
        by (simpl; rewrite app_nil_r; reflexivity).
      destruct src; reflexivity. }
    eapply succeeds_mono.
    { apply (IH _ (set_bs_response_headers l3 bs2) b
               ((content ++ hb_name src) ++ hb_value src) (captured ++ [src])).
      - reflexivity.
      - simpl. rewrite Hplan2. simpl. rewrite Hplan1. simpl. exact Hplan.
      - reflexivity.
      - exact Hholds2.
      - simpl. rewrite Hitems3. simpl. apply load_headers_snoc; [|exact Hdst].
        eapply load_headers_grows; [|exact Hcaptured].
        eapply heap_grows_trans; [exact Hgrows1|exact Hgrows2].
      - simpl. lia. }
    intros ok w4 (Hok & Ht4 & Hplan4 & bs4 & Hboot4 & Hb4 & Hc4 & Hholds4 & Hload4).
    split; [exact Hok|]. split; [simpl in *; congruence|]. split; [exact Hplan4|].
    exists bs4. split; [exact Hboot4|]. split; [exact Hb4|]. split; [exact Hc4|].
    split.
    + rewrite <- ?app_assoc in Hholds4. rewrite <- ?app_assoc. exact Hholds4.
    + rewrite <- ?app_assoc in Hload4. exact Hload4.
Qed.

Lemma header_stream_app a b : header_stream (a ++ b) = header_stream a ++ header_stream b.
Proof. apply flat_map_app. Qed.

Lemma on_response_headers_in_place `{Platform} stream header_array w bs b content captured :
  boot w = Some bs ->
  alloc_plan w = [] ->
  buf_buffer (bs_response_storage bs) = Some b ->
  buf_holds (heap w) (bs_response_storage bs) content ->
  load_headers (heap w) (al_items (bs_response_headers bs)) = Some captured ->
  buf_len (bs_response_storage bs) + byte_len (header_stream header_array)
  <= buf_capacity (bs_response_storage bs) ->
  succeeds (s_ws_bootstrap_on_handshake_response_headers stream header_array) w
    (fun _ w' =>
       trace w' = trace w /\ alloc_plan w' = [] /\
       exists bs',
         boot w' = Some bs' /\
         buf_buffer (bs_response_storage bs') = Some b /\
         buf_capacity (bs_response_storage bs') = buf_capacity (bs_response_storage bs) /\
         buf_holds (heap w') (bs_response_storage bs')
           (content ++ header_stream header_array) /\
         load_headers (heap w') (al_items (bs_response_headers bs'))
         = Some (captured ++ header_array)).
Proof.
  intros Hboot Hplan Hb Hholds Hcaptured Hfit.
  unfold s_ws_bootstrap_on_handshake_response_headers.
  eapply succeeds_bind.
  { apply (copy_response_headers_in_place header_array w bs b content captured
             Hboot Hplan Hb Hholds Hcaptured Hfit). }
  intros ok w1 (-> & Hpost). apply succeeds_ret. exact Hpost.
Qed.

(** X8: the round trip of response headers, where it holds: as long as all
    the batches together fit the capacity the response storage has, and
    the allocator does not fail, the captured list reads back as the
    concatenation of the batches in arrival order. *)
Lemma response_headers_round_trip_without_growth `{Platform} stream batches :
  forall w bs b content captured,
    boot w = Some bs ->
    alloc_plan w = [] ->
    buf_buffer (bs_response_storage bs) = Some b ->
    buf_holds (heap w) (bs_response_storage bs) content ->
    load_headers (heap w) (al_items (bs_response_headers bs)) = Some captured ->
    buf_len (bs_response_storage bs) + byte_len (header_stream (concat batches))
    <= buf_capacity (bs_response_storage bs) ->
    succeeds (deliver_headers stream batches) w
      (fun _ w' =>
         trace w' = trace w /\ alloc_plan w' = [] /\
         exists bs',
           boot w' = Some bs' /\
           buf_buffer (bs_response_storage bs') = Some b /\
           buf_capacity (bs_response_storage bs') = buf_capacity (bs_response_storage bs) /\
           buf_holds (heap w') (bs_response_storage bs')
             (content ++ header_stream (concat batches)) /\
           load_headers (heap w') (al_items (bs_response_headers bs'))
           = Some (captured ++ concat batches)).
Proof.
  induction batches as [|batch rest IH];
    intros w bs b content captured Hboot Hplan Hb Hholds Hcaptured Hfit.
  - simpl. apply succeeds_ret. rewrite !app_nil_r.
    repeat split; auto. exists bs. auto.
  - simpl in Hfit |- *. rewrite header_stream_app, byte_len_app in Hfit.
    pose proof (byte_len_nonneg (header_stream batch)).
    pose proof (byte_len_nonneg (header_stream (concat rest))).
    eapply succeeds_bind.
    { apply (on_response_headers_in_place stream batch w bs b content captured
               Hboot Hplan Hb Hholds Hcaptured). lia. }
    intros ? w1 (Ht1 & Hplan1 & bs1 & Hboot1 & Hb1 & Hc1 & Hholds1 & Hload1).
    eapply succeeds_mono.
    { apply (IH w1 bs1 b _ _ Hboot1 Hplan1 Hb1 Hholds1 Hload1).
      destruct Hholds1 as (Hlen1 & _). destruct Hholds as (Hlen & _).
      rewrite <- Hlen1, byte_len_app, Hc1. lia. }
    intros ? w2 (Ht2 & Hplan2 & bs2 & Hboot2 & Hb2 & Hc2 & Hholds2 & Hload2).
    split; [congruence|]. split; [exact Hplan2|].
    exists bs2. split; [exact Hboot2|]. split; [exact Hb2|]. split; [congruence|].
    rewrite header_stream_app. rewrite <- !app_assoc in Hholds2, Hload2.
    split; [exact Hholds2|exact Hload2].
Qed.

(** * Beyond the specification: option validation *)

(** X1: when the allocator, the client bootstrap, the socket options, the
    URI or the setup callback is missing, [aws_websocket_client_connect]
    returns AWS_OP_ERR with AWS_ERROR_INVALID_ARGUMENT raised, and does
    nothing else: no allocation, no HTTP connection, no callback. *)
Theorem connect_requires_options `{Platform} `{Collaborators}
    (options : aws_websocket_client_connection_options) (w : world) :
  http_library_initialized w = true ->
  co_allocator options = None \/ co_bootstrap options = None
  \/ co_socket_options options = None \/ co_uri options = None
  \/ co_on_connection_setup options = None ->
  aws_websocket_client_connect options w
  = Ok AWS_OP_ERR (set_last_error AWS_ERROR_INVALID_ARGUMENT w).
Proof.
  intros Hinit Hmissing.
  unfold aws_websocket_client_connect, aws_http_fatal_assert_library_initialized,
    bind, get.
  rewrite Hinit. simpl.
  destruct Hmissing as [Hm|[Hm|[Hm|[Hm|Hm]]]]; rewrite Hm; simpl;
    rewrite ?orb_true_r; reflexivity.
Qed.

Lemma connect_requires_options_witness :
  aws_websocket_client_connect (H := example_platform) (H0 := example_http)
    {| co_allocator := Some 1%nat;
       co_bootstrap := Some 2%nat;
       co_socket_options := Some 3%nat;
       co_tls_options := None;
       co_uri := None;
       co_initial_window_size := 256;
       co_user_data := 42;
       co_handshake_header_array := Some example_headers;
       co_on_connection_setup := Some 10%nat;
       co_on_connection_shutdown := None;
       co_on_incoming_frame_begin := Some 12%nat;
       co_on_incoming_frame_payload := None;
       co_on_incoming_frame_complete := None |} initial_world
  = Ok AWS_OP_ERR (set_last_error 33 initial_world).
Proof.
  apply (connect_requires_options (H := example_platform) (H0 := example_http));
    [reflexivity|right; right; right; left; reflexivity].
Defined.

(** X2: when the handshake header array is NULL or has no element,
    [aws_websocket_client_connect] returns AWS_OP_ERR with
    AWS_ERROR_INVALID_ARGUMENT raised, and does nothing else. *)
Theorem connect_requires_handshake_headers `{Platform} `{Collaborators}
    (options : aws_websocket_client_connection_options) (w : world) :
  http_library_initialized w = true ->
  co_handshake_header_array options = None \/ co_handshake_header_array options = Some [] ->
  aws_websocket_client_connect options w
  = Ok AWS_OP_ERR (set_last_error AWS_ERROR_INVALID_ARGUMENT w).
Proof.
  intros Hinit Hmissing.
  unfold aws_websocket_client_connect, aws_http_fatal_assert_library_initialized,
    bind, get, co_num_handhake_headers.
  rewrite Hinit. simpl.
  destruct (_ || _); [reflexivity|].
  destruct (_ || _); [reflexivity|].
  destruct Hmissing as [Hm|Hm]; rewrite Hm; reflexivity.
Qed.

Lemma connect_requires_handshake_headers_witness :
  aws_websocket_client_connect (H := example_platform) (H0 := example_http)
    {| co_allocator := Some 1%nat;
       co_bootstrap := Some 2%nat;
       co_socket_options := Some 3%nat;
       co_tls_options := None;
       co_uri := Some example_uri;
       co_initial_window_size := 256;
       co_user_data := 42;
       co_handshake_header_array := Some [];
       co_on_connection_setup := Some 10%nat;
       co_on_connection_shutdown := None;
       co_on_incoming_frame_begin := Some 12%nat;
       co_on_incoming_frame_payload := None;
       co_on_incoming_frame_complete := None |} initial_world
  = Ok AWS_OP_ERR (set_last_error 33 initial_world).
Proof.
  apply (connect_requires_handshake_headers (H := example_platform) (H0 := example_http));
    [reflexivity|right; reflexivity].
Defined.

(** * Beyond the specification: the handshake request and its completion *)

(** X3: when the connection is set up, [s_ws_bootstrap_on_http_setup] asks
    for one stream, with method GET, the stored path and the stored
    headers.  If that fails with error [e], nothing is reported at once:
    the error is recorded and the connection closed, and the shutdown that
    follows (itself without error) calls the setup callback with no
    websocket and [e], then releases the connection and the bootstrap. *)
Theorem handshake_request_failure_reported_at_shutdown `{Platform} `{Collaborators}
    (w : world) (bs : aws_websocket_client_bootstrap) (fn : fn_ptr)
    (http_connection : aws_http_connection) (e : Z) :
  bootstrap_ok w bs ->
  bs_websocket_setup_callback bs = Some fn ->
  bs_websocket bs = None ->
  bs_setup_error_code bs = 0 ->
  aws_http_stream_new_client_request (handshake_request bs http_connection) = inl e ->
  e <> 0 ->
  succeeds (run [OnHttpSetup (Some http_connection) 0; OnHttpShutdown http_connection 0]) w
    (fun _ w' =>
       boot w' = None
       /\ trace w' = trace w
                     ++ [EvConnectionClose http_connection;
                         EvSetupCallback fn None e (bs_response_status bs)
                           (al_items (bs_response_headers bs)) (bs_user_data bs);
                         EvConnectionRelease http_connection;
                         EvBootstrapDestroy]).
Proof.
  intros Hok Hfn Hws Hcode Hnew Hne. pose proof Hok as (Hboot & _).
  set (bs1 := set_bs_setup_error_code e bs).
  set (w1 := set_trace (trace w ++ [EvConnectionClose http_connection])
               (set_boot (Some bs1) (set_last_error e w))).
  assert (Hsetup : s_ws_bootstrap_on_http_setup (Some http_connection) 0 w = Ok tt w1).
  { unfold s_ws_bootstrap_on_http_setup, bind, get_bootstrap. rewrite Hboot. simpl.
    fold (handshake_request bs http_connection). rewrite Hnew. simpl.
    rewrite (cancel_setup_eq (set_last_error e w) bs http_connection e Hboot Hne), Hcode.
    reflexivity. }
  assert (Hok1 : bootstrap_ok w1 bs1).
  { eapply bootstrap_ok_update; [exact Hok|reflexivity|reflexivity|reflexivity|reflexivity]. }
  simpl. eapply succeeds_bind_eq; [exact Hsetup|].
  eapply succeeds_bind.
  { apply (on_http_shutdown_succeeds w1 bs1 http_connection 0 Hok1).
    - intros _. exact Hws.
    - intros Hnone. simpl in Hnone. rewrite Hfn in Hnone. discriminate. }
  intros ? w2 (Hb2 & Ht2). apply succeeds_ret. split; [exact Hb2|].
  rewrite Ht2. unfold shutdown_calls. simpl. rewrite Hfn. simpl.
  destruct (Z.eqb_spec e 0) as [Hz|_]; [contradiction|].
  rewrite <- app_assoc. reflexivity.
Qed.

Lemma handshake_request_failure_reported_at_shutdown_witness :
  succeeds
    (run (H := example_platform) (H0 := example_http_no_stream)
       [OnHttpSetup (Some 5%nat) 0; OnHttpShutdown 5%nat 0])
    example_connected_world
    (fun _ w' =>
       boot w' = None
       /\ trace w' = trace example_connected_world
                     ++ [EvConnectionClose 5%nat;
                         EvSetupCallback 10%nat None 2060 (-1) [] 42;
                         EvConnectionRelease 5%nat;
                         EvBootstrapDestroy]).
Proof.
  apply (handshake_request_failure_reported_at_shutdown (H := example_platform)
           (H0 := example_http_no_stream) example_connected_world example_bootstrap
           10%nat 5%nat 2060);
    [example_bootstrap_ok|reflexivity|reflexivity|reflexivity|reflexivity|discriminate].
Defined.

(** The successful branch of [s_ws_bootstrap_on_handshake_complete]. *)
Lemma handshake_success_core `{Platform} `{Collaborators}
    (w : world) (bs : aws_websocket_client_bootstrap) (fn : fn_ptr)
    (stream : aws_http_stream) (websocket : aws_websocket) :
  boot w = Some bs ->
  bs_websocket_setup_callback bs = Some fn ->
  incoming_response_status stream = AWS_HTTP_STATUS_101_SWITCHING_PROTOCOLS ->
  aws_websocket_handler_new
    (websocket_options (set_bs_response_status (incoming_response_status stream) bs) stream)
  = inr websocket ->
  exists w',
    s_ws_bootstrap_on_handshake_complete stream 0 w = Ok tt w'
    /\ trace w' = trace w
                  ++ [EvSetupCallback fn (Some websocket) 0
                        AWS_HTTP_STATUS_101_SWITCHING_PROTOCOLS
                        (al_items (bs_response_headers bs)) (bs_user_data bs);
                      EvStreamRelease stream]
    /\ boot w'
       = Some (set_bs_websocket_setup_callback None
                 (set_bs_websocket (Some websocket)
                    (set_bs_response_status AWS_HTTP_STATUS_101_SWITCHING_PROTOCOLS bs)))
    /\ heap w' = heap w /\ last_error w' = last_error w.
Proof.
  intros Hboot Hfn Hstatus Hnew.
  eexists. split.
  { unfold s_ws_bootstrap_on_handshake_complete, bind, get_bootstrap. rewrite Hboot.
    simpl. unfold aws_http_stream_get_incoming_response_status. rewrite Hstatus. simpl.
    unfold websocket_options in Hnew. rewrite Hstatus in Hnew. simpl in Hnew.
    rewrite Hnew. unfold call_websocket_setup_callback. simpl. rewrite Hfn. reflexivity. }
  simpl. rewrite <- app_assoc. repeat split.
Qed.

(** X4: when the handshake completes without error, the response status is
    101 and the websocket handler is created (with the bootstrap's window
    size, user data and frame callbacks, as a client, on the channel of
    the stream's connection), [s_ws_bootstrap_on_handshake_complete] calls
    the setup callback once with the new websocket, error 0, status 101
    and the captured headers, clears the callback pointer, keeps the
    websocket, and releases the stream; it does not close the connection. *)
Theorem handshake_success_reports_websocket `{Platform} `{Collaborators}
    (w : world) (bs : aws_websocket_client_bootstrap) (fn : fn_ptr)
    (stream : aws_http_stream) (websocket : aws_websocket) :
  boot w = Some bs ->
  bs_websocket_setup_callback bs = Some fn ->
  incoming_response_status stream = AWS_HTTP_STATUS_101_SWITCHING_PROTOCOLS ->
  aws_websocket_handler_new
    (websocket_options (set_bs_response_status (incoming_response_status stream) bs) stream)
  = inr websocket ->
  exists w',
    s_ws_bootstrap_on_handshake_complete stream 0 w = Ok tt w'
    /\ trace w' = trace w
                  ++ [EvSetupCallback fn (Some websocket) 0
                        AWS_HTTP_STATUS_101_SWITCHING_PROTOCOLS
                        (al_items (bs_response_headers bs)) (bs_user_data bs);
                      EvStreamRelease stream]
    /\ boot w'
       = Some (set_bs_websocket_setup_callback None
                 (set_bs_websocket (Some websocket)
                    (set_bs_response_status AWS_HTTP_STATUS_101_SWITCHING_PROTOCOLS bs)))
    /\ heap w' = heap w /\ last_error w' = last_error w.
Proof.
  intros Hboot Hfn Hstatus Hnew.
  destruct (handshake_success_core w bs fn stream websocket Hboot Hfn Hstatus Hnew)
    as (w' & Hrun & Ht & Hb & Hheap & Herr).
  exists w'. split; [exact Hrun|]. split; [exact Ht|]. split; [exact Hb|].
  split; [exact Hheap|exact Herr].
Qed.

Lemma handshake_success_reports_websocket_witness :
  exists w',
    s_ws_bootstrap_on_handshake_complete (H := example_platform) (H0 := example_http)
      (example_stream 101) 0 example_connected_world = Ok tt w'
    /\ trace w' = trace example_connected_world
                  ++ [EvSetupCallback 10%nat (Some 9%nat) 0 101 [] 42;
                      EvStreamRelease (example_stream 101)]
    /\ boot w'
       = Some (set_bs_websocket_setup_callback None
                 (set_bs_websocket (Some 9%nat)
                    (set_bs_response_status 101 example_bootstrap)))
    /\ heap w' = heap example_connected_world
    /\ last_error w' = last_error example_connected_world.
Proof.
  apply (handshake_success_reports_websocket (H := example_platform) (H0 := example_http)
           example_connected_world example_bootstrap 10%nat (example_stream 101) 9%nat);
    reflexivity.
Defined.

(** X5: when the handshake completes with an error,
    [s_ws_bootstrap_on_handshake_complete] does not read the response
    status and asks for no websocket handler: it cancels with that error
    code and releases the stream.  The shutdown that follows (itself
    without error) calls the setup callback with no websocket, that error,
    and the status the bootstrap had. *)
Theorem handshake_error_reported_at_shutdown `{Platform} `{Collaborators}
    (w : world) (bs : aws_websocket_client_bootstrap) (fn : fn_ptr)
    (stream : aws_http_stream) (error_code : Z) (http_connection : aws_http_connection) :
  bootstrap_ok w bs ->
  bs_websocket_setup_callback bs = Some fn ->
  bs_websocket bs = None ->
  bs_setup_error_code bs = 0 ->
  error_code <> 0 ->
  succeeds (run [OnHandshakeComplete stream error_code; OnHttpShutdown http_connection 0]) w
    (fun _ w' =>
       boot w' = None
       /\ trace w' = trace w
                     ++ [EvConnectionClose (owning_connection stream);
                         EvStreamRelease stream;
                         EvSetupCallback fn None error_code (bs_response_status bs)
                           (al_items (bs_response_headers bs)) (bs_user_data bs);
                         EvConnectionRelease http_connection;
                         EvBootstrapDestroy]).
Proof.
  intros Hok Hfn Hws Hcode Hne. pose proof Hok as (Hboot & _).
  simpl. eapply succeeds_bind.
  { unfold s_ws_bootstrap_on_handshake_complete.
    eapply succeeds_bind_eq; [unfold get_bootstrap; rewrite Hboot; reflexivity|].
    destruct (Z.eqb_spec error_code 0) as [Hz|_]; [contradiction|]. cbn [negb].
    apply (handshake_complete_error_succeeds w bs stream error_code Hok).
    destruct (Z.eqb_spec error_code 0) as [Hz|_]; [contradiction|exact Hne]. }
  cbn zeta. rewrite Hcode. simpl.
  destruct (Z.eqb_spec error_code 0) as [Hz|_]; [contradiction|].
  intros ? w1 (Hok1 & _ & _ & Ht1).
  eapply succeeds_bind.
  { apply (on_http_shutdown_succeeds w1 _ http_connection 0 Hok1).
    - intros _. exact Hws.
    - intros Hnone. simpl in Hnone. rewrite Hfn in Hnone. discriminate. }
  intros ? w2 (Hb2 & Ht2). apply succeeds_ret. split; [exact Hb2|].
  rewrite Ht2, Ht1. unfold shutdown_calls. simpl. rewrite Hfn. simpl.
  destruct (Z.eqb_spec error_code 0) as [Hz|_]; [contradiction|].
  rewrite <- !app_assoc. reflexivity.
Qed.

Lemma handshake_error_reported_at_shutdown_witness :
  succeeds
    (run (H := example_platform) (H0 := example_http)
       [OnHandshakeComplete (example_stream 200) 1051; OnHttpShutdown 5%nat 0])
    example_connected_world
    (fun _ w' =>
       boot w' = None
       /\ trace w' = trace example_connected_world
                     ++ [EvConnectionClose 5%nat;
                         EvStreamRelease (example_stream 200);
                         EvSetupCallback 10%nat None 1051 (-1) [] 42;
                         EvConnectionRelease 5%nat;
                         EvBootstrapDestroy]).
Proof.
  apply (handshake_error_reported_at_shutdown (H := example_platform) (H0 := example_http)
           example_connected_world example_bootstrap 10%nat (example_stream 200) 1051 5%nat);
    [example_bootstrap_ok|reflexivity|reflexivity|reflexivity|discriminate].
Defined.

(** X6: when the response status is 101 but the websocket handler cannot be
    created, [s_ws_bootstrap_on_handshake_complete] cancels with the error
    the creation raised: no websocket, no user callback, the connection
    closed and the stream released.  The shutdown that follows (itself
    without error) calls the setup callback with no websocket, that error
    and status 101. *)
Theorem handler_failure_reported_at_shutdown `{Platform} `{Collaborators}
    (w : world) (bs : aws_websocket_client_bootstrap) (fn : fn_ptr)
    (stream : aws_http_stream) (e : Z) (http_connection : aws_http_connection) :
  bootstrap_ok w bs ->
  bs_websocket_setup_callback bs = Some fn ->
  bs_websocket bs = None ->
  bs_setup_error_code bs = 0 ->
  incoming_response_status stream = AWS_HTTP_STATUS_101_SWITCHING_PROTOCOLS ->
  aws_websocket_handler_new
    (websocket_options (set_bs_response_status (incoming_response_status stream) bs) stream)
  = inl e ->
  e <> 0 ->
  succeeds (run [OnHandshakeComplete stream 0; OnHttpShutdown http_connection 0]) w
    (fun _ w' =>
       boot w' = None
       /\ trace w' = trace w
                     ++ [EvConnectionClose (owning_connection stream);
                         EvStreamRelease stream;
                         EvSetupCallback fn None e AWS_HTTP_STATUS_101_SWITCHING_PROTOCOLS
                           (al_items (bs_response_headers bs)) (bs_user_data bs);
                         EvConnectionRelease http_connection;
                         EvBootstrapDestroy]).
Proof.
  intros Hok Hfn Hws Hcode Hstatus Hnew Hne. pose proof Hok as (Hboot & _).
  set (bs0 := set_bs_websocket None
                (set_bs_response_status AWS_HTTP_STATUS_101_SWITCHING_PROTOCOLS bs)).
  set (w0 := set_last_error e (set_boot (Some bs0) w)).
  assert (Hok0 : bootstrap_ok w0 bs0).
  { eapply bootstrap_ok_update; [exact Hok|reflexivity|reflexivity|reflexivity|reflexivity]. }
  simpl. eapply succeeds_bind.
  { unfold s_ws_bootstrap_on_handshake_complete.
    eapply succeeds_bind_eq; [unfold get_bootstrap; rewrite Hboot; reflexivity|].
    change (negb (0 =? 0)) with false. cbv iota.
    eapply succeeds_bind_eq; [reflexivity|].
    cbn [bs_response_status set_bs_response_status].
    unfold aws_http_stream_get_incoming_response_status. rewrite Hstatus.
    change (negb (AWS_HTTP_STATUS_101_SWITCHING_PROTOCOLS
                  =? AWS_HTTP_STATUS_101_SWITCHING_PROTOCOLS)) with false. cbv iota.
    unfold websocket_options in Hnew. rewrite Hstatus in Hnew. rewrite Hnew.
    eapply succeeds_bind_eq; [reflexivity|].
    eapply succeeds_bind_eq; [reflexivity|].
    apply (handshake_complete_error_succeeds w0 bs0 stream 0 Hok0). simpl. exact Hne. }
  cbn zeta. simpl. rewrite Hcode. simpl.
  intros ? w1 (Hok1 & _ & _ & Ht1).
  eapply succeeds_bind.
  { apply (on_http_shutdown_succeeds w1 _ http_connection 0 Hok1).
    - intros _. reflexivity.
    - intros Hnone. simpl in Hnone. rewrite Hfn in Hnone. discriminate. }
  intros ? w2 (Hb2 & Ht2). apply succeeds_ret. split; [exact Hb2|].
  rewrite Ht2, Ht1. unfold shutdown_calls. simpl. rewrite Hfn. simpl.
  destruct (Z.eqb_spec e 0) as [Hz|_]; [contradiction|].
  rewrite <- !app_assoc. reflexivity.
Qed.

Lemma handler_failure_reported_at_shutdown_witness :
  succeeds
    (run (H := example_platform) (H0 := example_http_no_handler)
       [OnHandshakeComplete (example_stream 101) 0; OnHttpShutdown 5%nat 0])
    example_connected_world
    (fun _ w' =>
       boot w' = None
       /\ trace w' = trace example_connected_world
                     ++ [EvConnectionClose 5%nat;
                         EvStreamRelease (example_stream 101);
                         EvSetupCallback 10%nat None 2061 101 [] 42;
                         EvConnectionRelease 5%nat;
                         EvBootstrapDestroy]).
Proof.
  apply (handler_failure_reported_at_shutdown (H := example_platform)
           (H0 := example_http_no_handler) example_connected_world example_bootstrap
           10%nat (example_stream 101) 2061 5%nat);
    [example_bootstrap_ok|reflexivity|reflexivity|reflexivity|reflexivity|reflexivity
    |discriminate].
Defined.

(** X7: once the websocket is established, the connection's shutdown calls
    the shutdown callback, if there is one, with the very websocket the
    setup callback was given, the shutdown's error code as it is (0 for a
    clean close) and the same user data; then it releases the connection
    and the bootstrap. *)
Theorem established_shutdown_passes_websocket `{Platform} `{Collaborators}
    (w : world) (bs : aws_websocket_client_bootstrap) (fn : fn_ptr)
    (stream : aws_http_stream) (websocket : aws_websocket)
    (http_connection : aws_http_connection) (error_code : Z) :
  bootstrap_ok w bs ->
  bs_websocket_setup_callback bs = Some fn ->
  incoming_response_status stream = AWS_HTTP_STATUS_101_SWITCHING_PROTOCOLS ->
  aws_websocket_handler_new
    (websocket_options (set_bs_response_status (incoming_response_status stream) bs) stream)
  = inr websocket ->
  succeeds
    (run [OnHandshakeComplete stream 0; OnHttpShutdown http_connection error_code]) w
    (fun _ w' =>
       boot w' = None
       /\ trace w' = trace w
                     ++ [EvSetupCallback fn (Some websocket) 0
                           AWS_HTTP_STATUS_101_SWITCHING_PROTOCOLS
                           (al_items (bs_response_headers bs)) (bs_user_data bs);
                         EvStreamRelease stream]
                     ++ match bs_websocket_shutdown_callback bs with
                        | Some shutdown_fn =>
                            [EvShutdownCallback shutdown_fn (Some websocket) error_code
                               (bs_user_data bs)]
                        | None => []
                        end
                     ++ [EvConnectionRelease http_connection; EvBootstrapDestroy]).
Proof.
  intros Hok Hfn Hstatus Hnew. pose proof Hok as (Hboot & _).
  destruct (handshake_success_core w bs fn stream websocket Hboot Hfn Hstatus Hnew)
    as (w1 & Hrun & Ht1 & Hboot1 & Hheap1 & _).
  simpl. eapply succeeds_bind_eq; [exact Hrun|].
  eapply succeeds_bind.
  { eapply (on_http_shutdown_succeeds w1 _ http_connection error_code).
    - eapply bootstrap_ok_update; [exact Hok|exact Hheap1|exact Hboot1|reflexivity|reflexivity].
    - intros Hne. exfalso. apply Hne. reflexivity.
    - intros _ _. discriminate. }
  intros ? w2 (Hb2 & Ht2). apply succeeds_ret. split; [exact Hb2|].
  rewrite Ht2, Ht1. unfold shutdown_calls. simpl.
  rewrite <- !app_assoc. reflexivity.
Qed.

Lemma established_shutdown_passes_websocket_witness :
  succeeds
    (run (H := example_platform) (H0 := example_http)
       [OnHandshakeComplete (example_stream 101) 0; OnHttpShutdown 5%nat 0])
    example_connected_world
    (fun _ w' =>
       boot w' = None
       /\ trace w' = trace example_connected_world
                     ++ [EvSetupCallback 10%nat (Some 9%nat) 0 101 [] 42;
                         EvStreamRelease (example_stream 101)]
                     ++ [EvShutdownCallback 11%nat (Some 9%nat) 0 42]
                     ++ [EvConnectionRelease 5%nat; EvBootstrapDestroy]).
Proof.
  apply (established_shutdown_passes_websocket (H := example_platform) (H0 := example_http)
           example_connected_world example_bootstrap 10%nat (example_stream 101) 9%nat
           5%nat 0);
    [example_bootstrap_ok|reflexivity|reflexivity|reflexivity].
Defined.

(** * Beyond the specification: the storage of byte buffers *)

(** ** What each operation leaves alone *)

Lemma heap_get_ge h b : (length h <= b)%nat -> heap_get h b = None.
Proof. intros Hge. unfold heap_get. rewrite lookup_ge_None_2 by exact Hge. reflexivity. Qed.


Lemma only_block_refl ob w : only_block ob w w.
Proof. split; auto. Qed.

Lemma only_block_trans ob w1 w2 w3 :
  only_block ob w1 w2 -> only_block ob w2 w3 -> only_block ob w1 w3.
Proof.
  intros (Hl1 & Hf1) (Hl2 & Hf2). split; [congruence|].
  intros b Hne. rewrite Hf2, Hf1 by exact Hne. reflexivity.
Qed.

Lemma take_alloc_leaves `{Platform} w :
  returns take_alloc w (fun _ w' => steady w w' /\ heap w' = heap w).
Proof.
  intros a w' Heq. unfold take_alloc in Heq.
  destruct (alloc_plan w) as [|[] rest]; inversion Heq; subst; repeat split.
Qed.

Lemma aws_mem_acquire_leaves `{Platform} w size :
  returns (aws_mem_acquire size) w
    (fun b w' =>
       steady w w' /\
       ((b = None /\ heap w' = heap w)
        \/ (b = Some (length (heap w))
            /\ heap w' = heap w ++ [Some {| blk_size := size; blk_bytes := [] |}]))).
Proof.
  unfold aws_mem_acquire.
  eapply returns_bind; [apply take_alloc_leaves|].
  intros ok w1 (Hst & Hheap). destruct ok.
  - intros a w' Heq. inversion Heq; subst. simpl. rewrite Hheap.
    split; [exact Hst|]. right. split; reflexivity.
  - apply returns_ret. split; [exact Hst|]. left. split; [reflexivity|exact Hheap].
Qed.

Lemma memcpy_to_leaves buffer off src w :
  returns (memcpy_to buffer off src) w
    (fun _ w' => steady w w' /\ only_block buffer w w').
Proof.
  destruct buffer as [b|]; simpl.
  - intros a w' Heq.
    destruct (heap_get (heap w) b) as [blk|] eqn:Hget; [|discriminate].
    destruct (_ && _); inversion Heq; subst. simpl.
    split; [repeat split|]. split; [apply length_insert|].
    intros b' Hne. apply heap_get_insert_ne. congruence.
  - destruct (_ =? _); [|apply returns_fail].
    apply returns_ret. split; [apply steady_refl|apply only_block_refl].
Qed.

Lemma aws_mem_release_leaves b w :
  returns (aws_mem_release b) w
    (fun _ w' => steady w w' /\ only_block (Some b) w w' /\ heap_get (heap w') b = None).
Proof.
  intros a w' Heq. unfold aws_mem_release in Heq.
  destruct (heap_get (heap w) b) as [blk|] eqn:Hget; [|discriminate].
  inversion Heq; subst. simpl.
  split; [repeat split|]. split.
  - split; [apply length_insert|].
    intros b' Hne. apply heap_get_insert_ne. congruence.
  - apply heap_get_insert_eq. eapply heap_get_lt, Hget.
Qed.

Lemma aws_byte_buf_clean_up_leaves buf w :
  returns (aws_byte_buf_clean_up buf) w
    (fun _ w' =>
       steady w w' /\ only_block (buf_buffer buf) w w' /\
       forall b, buf_buffer buf = Some b -> heap_get (heap w') b = None).
Proof.
  unfold aws_byte_buf_clean_up. destruct (buf_buffer buf) as [b|].
  - eapply returns_mono; [apply aws_mem_release_leaves|].
    intros ? w' (Hst & Honly & Hnone). split; [exact Hst|]. split; [exact Honly|].
    intros b' Hb. injection Hb as <-. exact Hnone.
  - apply returns_ret. split; [apply steady_refl|]. split; [apply only_block_refl|].
    intros b Hb. discriminate.
Qed.


Lemma write_from_whole_cursor_leaves buf src w :
  returns (aws_byte_buf_write_from_whole_cursor buf src) w
    (fun r w' =>
       steady w w' /\ only_block (buf_buffer buf) w w' /\
       buf_buffer (snd r) = buf_buffer buf /\ buf_capacity (snd r) = buf_capacity buf /\
       last_error w' = last_error w /\ alloc_plan w' = alloc_plan w).
Proof.
  unfold aws_byte_buf_write_from_whole_cursor. destruct (_ <=? _).
  - intros r w' Heq. unfold bind in Heq.
    destruct (memcpy_to (buf_buffer buf) (buf_len buf) src w) as [[] w1|] eqn:Hm;
      [|discriminate].
    inversion Heq; subst. simpl.
    destruct (memcpy_to_leaves _ _ _ _ _ _ Hm) as (Hst & Honly).
    split; [exact Hst|]. split; [exact Honly|]. split; [reflexivity|].
    split; [reflexivity|].
    clear Heq. destruct (buf_buffer buf) as [b|]; simpl in Hm.
    + destruct (heap_get (heap w) b); [|discriminate].
      destruct (_ && _); inversion Hm; subst; auto.
    + destruct (_ =? _); inversion Hm; subst; auto.
  - apply returns_ret. split; [apply steady_refl|]. split; [apply only_block_refl|]. auto.
Qed.

Lemma copy_request_headers_leaves `{Platform} src :
  forall storage write_success w,
    returns (copy_request_headers src storage write_success) w
      (fun r w' =>
         steady w w' /\ only_block (buf_buffer storage) w w' /\
         buf_buffer (snd (fst r)) = buf_buffer storage /\
         buf_capacity (snd (fst r)) = buf_capacity storage /\
         last_error w' = last_error w /\ alloc_plan w' = alloc_plan w).
Proof.
  induction src as [|h rest IH]; intros storage ws w; simpl.
  - apply returns_ret. split; [apply steady_refl|]. split; [apply only_block_refl|]. auto.
  - eapply returns_bind; [apply write_from_whole_cursor_leaves|].
    intros r1 w1 (Hst1 & Ho1 & Hb1 & Hc1 & He1 & Hp1).
    eapply returns_bind; [apply write_from_whole_cursor_leaves|].
    intros r2 w2 (Hst2 & Ho2 & Hb2 & Hc2 & He2 & Hp2).
    eapply returns_bind; [apply IH|].
    intros r3 w3 (Hst3 & Ho3 & Hb3 & Hc3 & He3 & Hp3).
    apply returns_ret. simpl.
    rewrite Hb2, Hb1 in Ho3. rewrite Hb1 in Ho2.
    split; [eapply steady_trans; [eapply steady_trans|]; eassumption|].
    split; [eapply only_block_trans; [eapply only_block_trans|]; eassumption|].
    repeat split; congruence.
Qed.

(** Releasing the bootstrap releases its two storages and nothing else. *)
Lemma destroy_leaves `{Platform} bs w :
  returns (s_ws_bootstrap_destroy (Some bs)) w
    (fun _ w' =>
       boot w' = None /\ trace w' = trace w ++ [EvBootstrapDestroy] /\
       length (heap w') = length (heap w) /\
       (forall b, buf_buffer (bs_request_storage bs) = Some b -> heap_get (heap w') b = None) /\
       (forall b, buf_buffer (bs_response_storage bs) = Some b -> heap_get (heap w') b = None) /\
       (forall b, Some b <> buf_buffer (bs_request_storage bs) ->
                  Some b <> buf_buffer (bs_response_storage bs) ->
                  heap_get (heap w') b = heap_get (heap w) b)).
Proof.
  simpl.
  eapply returns_bind; [apply aws_byte_buf_clean_up_leaves|].
  intros ? w1 ((_ & _ & Ht1) & (Hl1 & Hf1) & Hn1).
  eapply returns_bind; [apply aws_byte_buf_clean_up_leaves|].
  intros ? w2 ((_ & _ & Ht2) & (Hl2 & Hf2) & Hn2).
  intros r w' Heq. inversion Heq; subst. simpl.
  split; [reflexivity|]. split; [congruence|]. split; [congruence|].
  split; [|split; [exact Hn2|]].
  - intros b Hb.
    destruct (option_eq_dec (Some b) (buf_buffer (bs_response_storage bs))) as [Heq'|Hne].
    + apply Hn2. symmetry. exact Heq'.
    + rewrite Hf2 by exact Hne. apply Hn1, Hb.
  - intros b Hq Hr. rewrite Hf2, Hf1 by assumption. reflexivity.
Qed.

(** ** The storages the bootstrap owns *)

Lemma owns_storages_update h0 w w' bs bs' :
  owns_storages h0 w bs ->
  buf_buffer (bs_request_storage bs') = buf_buffer (bs_request_storage bs) ->
  buf_buffer (bs_response_storage bs') = buf_buffer (bs_response_storage bs) ->
  length (heap w') = length (heap w) ->
  (forall b, Some b <> buf_buffer (bs_request_storage bs) ->
             Some b <> buf_buffer (bs_response_storage bs) ->
             heap_get (heap w') b = heap_get (heap w) b) ->
  owns_storages h0 w' bs'.
Proof.
  intros (Hlen & Hq & Hr & Hapart & Hrest) Eq Er Hl Hframe.
  unfold owns_storages, acquired_since, storages_apart in *.
  rewrite Eq, Er, Hl.
  split; [exact Hlen|]. split; [exact Hq|]. split; [exact Hr|]. split; [exact Hapart|].
  intros b Hbq Hbr. rewrite Hframe by assumption. apply Hrest; assumption.
Qed.

Lemma owns_storages_heap h0 w w' bs :
  heap w' = heap w -> owns_storages h0 w bs -> owns_storages h0 w' bs.
Proof. unfold owns_storages. intros ->. auto. Qed.


Lemma owns_storages_written_response h0 w w' bs bs' :
  owns_storages h0 w bs ->
  buf_buffer (bs_request_storage bs') = buf_buffer (bs_request_storage bs) ->
  buf_buffer (bs_response_storage bs') = buf_buffer (bs_response_storage bs) ->
  only_block (buf_buffer (bs_response_storage bs)) w w' ->
  owns_storages h0 w' bs'.
Proof.
  intros Howns Eq Er (Hl & Hf).
  eapply owns_storages_update; eauto.
Qed.



(** The response storage moves to a new block at the end of the heap, its
    old block released. *)
Lemma owns_storages_moved_response h0 w w' bs bs' :
  owns_storages h0 w bs ->
  length (heap w') = S (length (heap w)) ->
  (forall b, (b < length (heap w))%nat -> Some b <> buf_buffer (bs_response_storage bs) ->
             heap_get (heap w') b = heap_get (heap w) b) ->
  (forall b, buf_buffer (bs_response_storage bs) = Some b -> heap_get (heap w') b = None) ->
  buf_buffer (bs_request_storage bs') = buf_buffer (bs_request_storage bs) ->
  buf_buffer (bs_response_storage bs') = Some (length (heap w)) ->
  owns_storages h0 w' bs'.
Proof.
  intros (Hlen & Hq & Hr & Hapart & Hrest) Hl Hframe Hold Eq Er.
  unfold owns_storages, acquired_since, storages_apart in *.
  rewrite Eq, Er, Hl.
  split; [lia|]. split; [destruct (buf_buffer (bs_request_storage bs)); [lia|exact I]|].
  split; [lia|].
  split; [destruct (buf_buffer (bs_request_storage bs)); [lia|exact I]|].
  intros b Hbq Hbr.
  destruct (Nat.lt_ge_cases b (length (heap w))) as [Hlt|Hge].
  - destruct (option_eq_dec (Some b) (buf_buffer (bs_response_storage bs))) as [Heq|Hne].
    + rewrite (Hold b) by (symmetry; exact Heq).
      rewrite <- Heq in Hr. symmetry. apply heap_get_ge. lia.
    + rewrite Hframe by assumption. apply Hrest; assumption.
  - assert (b <> length (heap w)) by congruence.
    rewrite (heap_get_ge (heap w') b) by lia.
    symmetry. apply heap_get_ge. lia.
Qed.

(** Once the bootstrap is destroyed, the heap is as it was before the
    bootstrap acquired anything. *)
Lemma owns_storages_destroy `{Platform} h0 bs w :
  owns_storages h0 w bs ->
  returns (s_ws_bootstrap_destroy (Some bs)) w
    (fun _ w' => boot w' = None /\ trace w' = trace w ++ [EvBootstrapDestroy]
                 /\ buffer_storage_same h0 (heap w')).
Proof.
  intros (Hlen & Hq & Hr & Hapart & Hrest).
  eapply returns_mono; [apply destroy_leaves|].
  intros ? w' (Hboot & Htrace & Hl & Hnq & Hnr & Hframe).
  split; [exact Hboot|]. split; [exact Htrace|].
  intros b. unfold acquired_since in Hq, Hr.
  destruct (option_eq_dec (Some b) (buf_buffer (bs_request_storage bs))) as [Heq|Hneq].
  { rewrite (Hnq b) by (symmetry; exact Heq).
    rewrite <- Heq in Hq. symmetry. apply heap_get_ge. lia. }
  destruct (option_eq_dec (Some b) (buf_buffer (bs_response_storage bs))) as [Her|Hner].
  { rewrite (Hnr b) by (symmetry; exact Her).
    rewrite <- Her in Hr. symmetry. apply heap_get_ge. lia. }
  rewrite Hframe by assumption. apply Hrest; assumption.
Qed.

Ltac split_if :=
  match goal with
  | |- returns (if ?c then _ else _) _ _ => destruct c eqn:?
  end.


Lemma succeeds_with_returns {A} (m : M A) w (Q R : A -> world -> Prop) :
  succeeds m w Q -> returns m w R -> succeeds m w (fun a w' => Q a w' /\ R a w').
Proof.
  intros (a & w' & E & HQ) HR. exists a, w'. split; [exact E|]. split; [exact HQ|].
  apply HR, E.
Qed.

(** ** The handlers and the heap *)

Lemma storages_kept_accounted h0 w w' :
  buffer_storage_accounted h0 w -> storages_kept w w' -> buffer_storage_accounted h0 w'.
Proof.
  intros Hacc (Hheap & bs & bs' & Hb & Hb' & Eq & Er). unfold buffer_storage_accounted in *.
  rewrite Hb in Hacc. rewrite Hb'.
  eapply owns_storages_update; [exact Hacc|congruence|congruence| |];
    intros; rewrite Hheap; reflexivity.
Qed.

Lemma storages_kept_trans w1 w2 w3 :
  storages_kept w1 w2 -> storages_kept w2 w3 -> storages_kept w1 w3.
Proof.
  intros (Hh1 & bs1 & bs2 & Hb1 & Hb2 & Eq1 & Er1) (Hh2 & bs2' & bs3 & Hb2' & Hb3 & Eq2 & Er2).
  rewrite Hb2 in Hb2'. injection Hb2' as <-.
  split; [congruence|]. exists bs1, bs3. repeat split; congruence.
Qed.

Lemma cancel_setup_kept `{Platform} http_connection error_code w :
  returns (s_ws_bootstrap_cancel_setup_due_to_err http_connection error_code) w
    (fun _ w' => storages_kept w w').
Proof.
  intros r w' Heq.
  unfold s_ws_bootstrap_cancel_setup_due_to_err, bind, AWS_ASSERT, get_bootstrap,
    put_bootstrap, aws_http_connection_close, emit, modify, ret, fail in Heq.
  destruct (negb (error_code =? 0)); [|discriminate].
  destruct (boot w) as [bs|] eqn:Hboot; [|discriminate].
  destruct (bs_setup_error_code bs =? 0); inversion Heq; subst; clear Heq.
  - split; [reflexivity|]. exists bs, (set_bs_setup_error_code error_code bs).
    repeat split. exact Hboot.
  - split; [reflexivity|]. exists bs, bs. repeat split; exact Hboot.
Qed.

Lemma handshake_complete_error_kept `{Platform} stream http_connection error_code w :
  returns (handshake_complete_error stream http_connection error_code) w
    (fun _ w' => storages_kept w w').
Proof.
  unfold handshake_complete_error.
  eapply returns_bind with (R := fun _ w1 => w1 = w).
  { destruct (error_code =? 0); intros r w1 Heq; inversion Heq; reflexivity. }
  intros e w1 ->.
  eapply returns_bind; [apply cancel_setup_kept|].
  intros ? w2 (Hh & bs & bs' & Hb & Hb' & Eq & Er).
  intros r w' Heq. inversion Heq; subst. simpl.
  split; [exact Hh|]. exists bs, bs'. auto.
Qed.

Lemma on_http_setup_kept `{Platform} `{Collaborators} connection w :
  returns (s_ws_bootstrap_on_http_setup (Some connection) 0) w
    (fun _ w' => storages_kept w w').
Proof.
  unfold s_ws_bootstrap_on_http_setup.
  intros r w' Heq. unfold bind at 1, get_bootstrap in Heq.
  destruct (boot w) as [bs|] eqn:Hboot; [|discriminate].
  simpl in Heq.
  match type of Heq with
  | context [aws_http_stream_new_client_request ?o] =>
      destruct (aws_http_stream_new_client_request o) as [e|s]
  end.
  - unfold bind at 1, modify in Heq. unfold bind at 1, aws_last_error in Heq.
    destruct (cancel_setup_kept _ _ _ _ _ Heq) as (Hh & bs1 & bs' & Hb & Hb' & Eq & Er).
    simpl in Hh, Hb. split; [exact Hh|]. exists bs, bs'.
    rewrite Hboot in Hb. injection Hb as <-. auto.
  - inversion Heq; subst. split; [reflexivity|]. exists bs, bs. auto.
Qed.

Lemma on_handshake_complete_kept `{Platform} `{Collaborators} stream error_code w :
  returns (s_ws_bootstrap_on_handshake_complete stream error_code) w
    (fun _ w' => storages_kept w w').
Proof.
  unfold s_ws_bootstrap_on_handshake_complete.
  intros r w' Heq. unfold bind at 1, get_bootstrap in Heq.
  destruct (boot w) as [bs|] eqn:Hboot; [|discriminate].
  assert (Hvia : forall bs1 w1 e,
            heap w1 = heap w -> boot w1 = Some bs1 ->
            bs_request_storage bs1 = bs_request_storage bs ->
            bs_response_storage bs1 = bs_response_storage bs ->
            handshake_complete_error stream (aws_http_stream_get_connection stream) e w1
            = Ok r w' ->
            storages_kept w w').
  { intros bs1 w1 e Hh Hb Eq Er Hrun.
    destruct (handshake_complete_error_kept _ _ _ _ _ _ Hrun)
      as (Hh' & bs2 & bs' & Hb2 & Hb' & Eq' & Er').
    rewrite Hb in Hb2. injection Hb2 as <-.
    split; [congruence|]. exists bs, bs'. repeat split; congruence. }
  destruct (negb (error_code =? 0)).
  { refine (Hvia _ _ _ _ _ _ _ Heq); first [exact Hboot|reflexivity]. }
  unfold bind at 1, put_bootstrap, modify in Heq.
  match type of Heq with
  | (if ?c then _ else _) _ = _ => destruct c
  end.
  { unfold bind at 1, aws_raise_error, bind, modify, ret in Heq.
    refine (Hvia _ _ _ _ _ _ _ Heq); reflexivity. }
  match type of Heq with
  | context [aws_websocket_handler_new ?o] =>
      destruct (aws_websocket_handler_new o) as [e|websocket]
  end.
  - unfold bind at 1, modify in Heq. unfold bind at 1 in Heq.
    refine (Hvia _ _ _ _ _ _ _ Heq); reflexivity.
  - unfold bind, call_websocket_setup_callback, aws_http_stream_release, emit, modify in Heq.
    cbn in Heq. destruct (bs_websocket_setup_callback bs); [|discriminate].
    inversion Heq; subst. split; [reflexivity|].
    eexists bs, _. split; [exact Hboot|]. split; [reflexivity|]. split; reflexivity.
Qed.

(** Appending writes into the buffer's block, or moves the buffer to a new
    block at the end of the heap and releases the old one. *)
Lemma append_dynamic_leaves `{Platform} buf from w :
  returns (aws_byte_buf_append_dynamic buf from) w
    (fun r w' =>
       steady w w' /\
       ((buf_buffer (snd r) = buf_buffer buf /\ only_block (buf_buffer buf) w w')
        \/ (buf_buffer (snd r) = Some (length (heap w))
            /\ length (heap w') = S (length (heap w))
            /\ (forall b, (b < length (heap w))%nat -> Some b <> buf_buffer buf ->
                          heap_get (heap w') b = heap_get (heap w) b)
            /\ (forall b, buf_buffer buf = Some b -> heap_get (heap w') b = None)))).
Proof.
  unfold aws_byte_buf_append_dynamic. split_if.
  - intros r w' Heq. unfold bind at 1, get in Heq.
    destruct (load (heap w) _ _) as [old|]; [|discriminate].
    revert r w' Heq. change (returns
      (new_buffer <- aws_mem_acquire
                       (Z.max (buf_len buf + byte_len from) (buf_capacity buf + buf_capacity buf)) ;;
       match new_buffer with
       | None => ret (AWS_OP_ERR, buf)
       | Some nb =>
           memcpy_to (Some nb) 0 old ;;
           memcpy_to (Some nb) (buf_len buf) from ;;
           aws_byte_buf_clean_up buf ;;
           ret (AWS_OP_SUCCESS, {| buf_len := buf_len buf + byte_len from;
                                   buf_buffer := Some nb;
                                   buf_capacity :=
                                     Z.max (buf_len buf + byte_len from)
                                       (buf_capacity buf + buf_capacity buf) |})
       end) w
      (fun r w' =>
         steady w w' /\
         ((buf_buffer (snd r) = buf_buffer buf /\ only_block (buf_buffer buf) w w')
          \/ (buf_buffer (snd r) = Some (length (heap w))
              /\ length (heap w') = S (length (heap w))
              /\ (forall b, (b < length (heap w))%nat -> Some b <> buf_buffer buf ->
                            heap_get (heap w') b = heap_get (heap w) b)
              /\ (forall b, buf_buffer buf = Some b -> heap_get (heap w') b = None))))).
    eapply returns_bind; [apply aws_mem_acquire_leaves|].
    intros nb w1 (Hst1 & [(-> & Hh1)|(-> & Hh1)]).
    + apply returns_ret. split; [exact Hst1|]. left. split; [reflexivity|].
      split; [rewrite Hh1; reflexivity|intros; rewrite Hh1; reflexivity].
    + eapply returns_bind; [apply memcpy_to_leaves|].
      intros ? w2 (Hst2 & Hl2 & Hf2).
      eapply returns_bind; [apply memcpy_to_leaves|].
      intros ? w3 (Hst3 & Hl3 & Hf3).
      eapply returns_bind; [apply aws_byte_buf_clean_up_leaves|].
      intros ? w4 (Hst4 & (Hl4 & Hf4) & Hn4).
      apply returns_ret. simpl.
      split; [eapply steady_trans; [eapply steady_trans; [eapply steady_trans|]|];
              eassumption|].
      right. split; [reflexivity|].
      assert (Hlen1 : length (heap w1) = S (length (heap w))).
      { rewrite Hh1, length_app. simpl. lia. }
      split; [congruence|]. split; [|exact Hn4].
      intros b Hlt Hne.
      assert (Hnb : Some b <> Some (length (heap w))) by (intros [=]; lia).
      rewrite Hf4, Hf3, Hf2 by assumption.
      rewrite Hh1. apply heap_get_app_l, Hlt.
  - eapply returns_bind; [apply memcpy_to_leaves|].
    intros ? w1 (Hst & Honly). apply returns_ret. simpl.
    split; [exact Hst|]. left. split; [reflexivity|exact Honly].
Qed.

Lemma append_dynamic_owned `{Platform} h0 bs from w :
  owns_storages h0 w bs ->
  returns (aws_byte_buf_append_dynamic (bs_response_storage bs) from) w
    (fun r w' =>
       steady w w' /\
       forall bs', bs_request_storage bs' = bs_request_storage bs ->
                   bs_response_storage bs' = snd r ->
                   owns_storages h0 w' bs').
Proof.
  intros Howns. eapply returns_mono; [apply append_dynamic_leaves|].
  intros r w' (Hst & Hcases). split; [exact Hst|]. intros bs' Eq Er.
  destruct Hcases as [(Hb & Honly)|(Hb & Hl & Hf & Hn)].
  - eapply owns_storages_written_response;
      [exact Howns|rewrite Eq; reflexivity|rewrite Er; exact Hb|exact Honly].
  - eapply owns_storages_moved_response;
      [exact Howns|exact Hl|exact Hf|exact Hn|rewrite Eq; reflexivity|rewrite Er; exact Hb].
Qed.

Lemma push_back_leaves `{Platform} l val w :
  returns (aws_array_list_push_back l val) w (fun _ w' => steady w w' /\ heap w' = heap w).
Proof.
  unfold aws_array_list_push_back. split_if.
  - apply returns_ret. split; [apply steady_refl|reflexivity].
  - eapply returns_bind; [apply take_alloc_leaves|].
    intros ok w1 Hfacts. destruct ok; apply returns_ret; exact Hfacts.
Qed.

Lemma copy_response_headers_accounted `{Platform} h0 header_array :
  forall w,
    buffer_storage_accounted h0 w ->
    returns (copy_response_headers header_array) w (fun _ w' => buffer_storage_accounted h0 w').
Proof.
  induction header_array as [|h rest IH]; intros w Hacc.
  - apply returns_ret. exact Hacc.
  - cbn [copy_response_headers].
    intros r w' Heq. unfold bind at 1, get_bootstrap in Heq.
    destruct (boot w) as [bs|] eqn:Hboot; [|discriminate].
    unfold buffer_storage_accounted in Hacc. rewrite Hboot in Hacc.
    revert r w' Heq.
    eapply returns_bind; [apply (append_dynamic_owned h0 bs _ w Hacc)|].
    intros r1 w1 (_ & Howns1).
    intros r w' Heq. unfold bind at 1, put_bootstrap, modify in Heq.
    set (bs1 := set_bs_response_storage (snd r1) bs) in *.
    assert (Hacc1 : owns_storages h0 (set_boot (Some bs1) w1) bs1).
    { apply owns_storages_heap with (w := w1); [reflexivity|].
      apply Howns1; reflexivity. }
    destruct (negb (fst r1 =? 0)).
    { inversion Heq; subst. exact Hacc1. }
    unfold bind at 1, get_bootstrap in Heq. cbn [boot set_boot] in Heq.
    revert r w' Heq.
    eapply returns_bind; [apply (append_dynamic_owned h0 bs1 _ _ Hacc1)|].
    intros r2 w2 (_ & Howns2).
    intros r w' Heq. unfold bind at 1, put_bootstrap, modify in Heq.
    set (bs2 := set_bs_response_storage (snd r2) bs1) in *.
    assert (Hacc2 : owns_storages h0 (set_boot (Some bs2) w2) bs2).
    { apply owns_storages_heap with (w := w2); [reflexivity|].
      apply Howns2; reflexivity. }
    destruct (negb (fst r2 =? 0)).
    { inversion Heq; subst. exact Hacc2. }
    unfold bind at 1, get_bootstrap in Heq. cbn [boot set_boot] in Heq.
    revert r w' Heq.
    eapply returns_bind; [apply push_back_leaves|].
    intros r3 w3 (_ & Hh3).
    intros r w' Heq. unfold bind at 1, put_bootstrap, modify in Heq.
    set (bs3 := set_bs_response_headers (snd r3) bs2) in *.
    assert (Hacc3 : buffer_storage_accounted h0 (set_boot (Some bs3) w3)).
    { unfold buffer_storage_accounted. cbn [boot set_boot].
      eapply owns_storages_update with (w := set_boot (Some bs2) w2) (bs := bs2);
        [exact Hacc2|reflexivity|reflexivity| |];
        intros; cbn [heap set_boot]; rewrite Hh3; reflexivity. }
    destruct (negb (fst r3 =? 0)).
    { inversion Heq; subst. exact Hacc3. }
    exact (IH _ Hacc3 r w' Heq).
Qed.

Lemma on_response_headers_accounted `{Platform} h0 stream header_array w :
  buffer_storage_accounted h0 w ->
  returns (s_ws_bootstrap_on_handshake_response_headers stream header_array) w
    (fun _ w' => buffer_storage_accounted h0 w').
Proof.
  intros Hacc. unfold s_ws_bootstrap_on_handshake_response_headers.
  eapply returns_bind; [apply copy_response_headers_accounted, Hacc|].
  intros ok w1 Hacc1. destruct ok; [apply returns_ret; exact Hacc1|].
  intros r w' Heq. unfold bind at 1, aws_last_error in Heq.
  eapply storages_kept_accounted; [exact Hacc1|].
  exact (cancel_setup_kept _ _ _ _ _ Heq).
Qed.

Lemma on_http_shutdown_accounted `{Platform} h0 http_connection error_code w :
  buffer_storage_accounted h0 w ->
  returns (s_ws_bootstrap_on_http_shutdown http_connection error_code) w
    (fun _ w' => boot w' = None /\ buffer_storage_accounted h0 w').
Proof.
  intros Hacc. unfold s_ws_bootstrap_on_http_shutdown.
  intros r w' Heq. unfold bind at 1, get_bootstrap in Heq.
  destruct (boot w) as [bs|] eqn:Hboot; [|discriminate].
  unfold buffer_storage_accounted in Hacc. rewrite Hboot in Hacc.
  revert r w' Heq.
  eapply returns_bind with (R := fun _ w1 => heap w1 = heap w).
  { intros r w1 Heq.
    unfold AWS_ASSERT, call_websocket_setup_callback, bind, emit, modify, ret, fail in Heq.
    repeat match type of Heq with
           | context [if ?c then _ else _] => destruct c
           | context [match ?x with _ => _ end] => destruct x
           end;
      inversion Heq; subst; reflexivity. }
  intros ? w1 Hh1.
  eapply returns_bind with (R := fun _ w2 => heap w2 = heap w).
  { intros r w2 Heq. inversion Heq; subst. exact Hh1. }
  intros ? w2 Hh2.
  eapply returns_mono;
    [apply (owns_storages_destroy h0 bs w2), (owns_storages_heap h0 w w2 bs Hh2 Hacc)|].
  intros ? w' (Hnone & _ & Hsame). split; [exact Hnone|].
  unfold buffer_storage_accounted. rewrite Hnone. exact Hsame.
Qed.

Lemma on_http_setup_accounted `{Platform} `{Collaborators} h0 http_connection error_code w :
  buffer_storage_accounted h0 w ->
  returns (s_ws_bootstrap_on_http_setup http_connection error_code) w
    (fun _ w' => buffer_storage_accounted h0 w' /\ (error_code <> 0 -> boot w' = None)).
Proof.
  intros Hacc. destruct (Z.eq_dec error_code 0) as [->|Hne].
  - destruct http_connection as [connection|].
    + eapply returns_mono; [apply on_http_setup_kept|].
      intros ? w' Hkept. split; [|contradiction].
      eapply storages_kept_accounted; eassumption.
    + intros r w' Heq. unfold s_ws_bootstrap_on_http_setup, bind, get_bootstrap in Heq.
      destruct (boot w); discriminate.
  - unfold s_ws_bootstrap_on_http_setup.
    intros r w' Heq. unfold bind at 1, get_bootstrap in Heq.
    destruct (boot w) as [bs|] eqn:Hboot; [|discriminate].
    unfold buffer_storage_accounted in Hacc. rewrite Hboot in Hacc.
    unfold bind at 1, AWS_FATAL_ASSERT in Heq.
    destruct (Bool.eqb _ _); [|discriminate].
    cbn [ret] in Heq.
    apply Z.eqb_neq in Hne. rewrite Hne in Heq. cbn [negb] in Heq.
    unfold bind at 1, call_websocket_setup_callback in Heq.
    destruct (bs_websocket_setup_callback bs); [|discriminate].
    cbn [emit modify] in Heq.
    match type of Heq with
    | s_ws_bootstrap_destroy _ ?w1 = _ =>
        destruct (owns_storages_destroy h0 bs w1
                    (owns_storages_heap h0 w w1 bs eq_refl Hacc) _ _ Heq)
          as (Hnone & _ & Hsame)
    end.
    split; [|intros _; exact Hnone].
    unfold buffer_storage_accounted. rewrite Hnone. exact Hsame.
Qed.

Lemma dispatch_accounted `{Platform} `{Collaborators} h0 c w :
  buffer_storage_accounted h0 w -> returns (dispatch c) w (fun _ w' => buffer_storage_accounted h0 w').
Proof.
  intros Hacc. destruct c as [conn e|stream header_array|stream e|conn e]; simpl.
  - eapply returns_mono; [apply on_http_setup_accounted, Hacc|]. intros ? w' (Ha & _). exact Ha.
  - apply on_response_headers_accounted, Hacc.
  - eapply returns_mono; [apply on_handshake_complete_kept|].
    intros ? w' Hkept. eapply storages_kept_accounted; eassumption.
  - eapply returns_mono; [apply on_http_shutdown_accounted, Hacc|].
    intros ? w' (_ & Ha). exact Ha.
Qed.

Lemma run_accounted `{Platform} `{Collaborators} h0 cs :
  forall w, buffer_storage_accounted h0 w -> returns (run cs) w (fun _ w' => buffer_storage_accounted h0 w').
Proof.
  induction cs as [|c rest IH]; intros w Hacc; simpl.
  - apply returns_ret. exact Hacc.
  - eapply returns_bind; [apply dispatch_accounted, Hacc|].
    intros ? w1 Hacc1. apply IH, Hacc1.
Qed.

Lemma after_setup_ends_destroyed `{Platform} `{Collaborators} cs :
  after_setup cs = true ->
  forall w, returns (run cs) w (fun _ w' => boot w' = None).
Proof.
  induction cs as [|c rest IH]; intros Hafter w; [discriminate|].
  assert (Hshutdown : forall conn e w1,
            returns (s_ws_bootstrap_on_http_shutdown conn e) w1
              (fun _ w' => boot w' = None)).
  { intros conn e w1 r w' Heq.
    unfold s_ws_bootstrap_on_http_shutdown in Heq. unfold bind at 1, get_bootstrap in Heq.
    destruct (boot w1) as [bs|]; [|discriminate].
    unfold bind at 1 in Heq.
    match type of Heq with
    | match ?m with _ => _ end = _ => destruct m as [? w2|]; [|discriminate]
    end.
    unfold bind at 1, aws_http_connection_release, emit, modify in Heq.
    destruct (destroy_leaves _ _ _ _ Heq) as (Hnone & _). exact Hnone. }
  destruct c as [conn e|stream header_array|stream e|conn e].
  - discriminate.
  - assert (Hrest : after_setup rest = true).
    { simpl in Hafter. destruct rest; [discriminate|exact Hafter]. }
    simpl. eapply returns_bind with (R := fun _ _ => True); [intros ? ? _; exact I|].
    intros ? w1 _. apply IH, Hrest.
  - destruct rest as [|[| | |conn e'] [|]]; try discriminate.
    simpl. eapply returns_bind with (R := fun _ _ => True); [intros ? ? _; exact I|].
    intros ? w1 _.
    eapply returns_bind; [apply Hshutdown|].
    intros ? w2 Hnone. apply returns_ret. exact Hnone.
  - destruct rest; [|discriminate].
    simpl. eapply returns_bind; [apply Hshutdown|].
    intros ? w2 Hnone. apply returns_ret. exact Hnone.
Qed.

Lemma lifetime_ends_destroyed `{Platform} `{Collaborators} cs w :
  lifetime cs = true -> returns (run cs) w (fun _ w' => boot w' = None).
Proof.
  intros Hlife. destruct cs as [|[[conn|] e| | |] rest]; try discriminate.
  - simpl in Hlife. destruct e; try discriminate.
    simpl. eapply returns_bind with (R := fun _ _ => True); [intros ? ? _; exact I|].
    intros ? w1 _. apply after_setup_ends_destroyed, Hlife.
  - destruct rest; [|discriminate]. simpl in Hlife.
    assert (Hne : e <> 0) by (intros ->; discriminate).
    simpl. eapply returns_bind with (R := fun _ w1 => boot w1 = None).
    { unfold s_ws_bootstrap_on_http_setup.
      intros r w1 Heq. unfold bind at 1, get_bootstrap in Heq.
      destruct (boot w) as [bs|]; [|discriminate].
      unfold bind at 1, AWS_FATAL_ASSERT in Heq.
      destruct (Bool.eqb _ _); [|discriminate].
      cbn [ret] in Heq.
      apply Z.eqb_neq in Hne. rewrite Hne in Heq. cbn [negb] in Heq.
      unfold bind at 1, call_websocket_setup_callback in Heq.
      destruct (bs_websocket_setup_callback bs); [|discriminate].
      cbn [emit modify] in Heq.
      destruct (destroy_leaves _ _ _ _ Heq) as (Hnone & _). exact Hnone. }
    intros ? w1 Hnone. apply returns_ret. exact Hnone.
Qed.

(** ** What the handlers give back *)

Lemma ledger_refl w : ledger [] w w.
Proof. exists []. rewrite app_nil_r. repeat split. simpl. lia. Qed.

Lemma ledger_trans r1 r2 w1 w2 w3 :
  ledger r1 w1 w2 -> ledger r2 w2 w3 -> ledger (r1 ++ r2) w1 w3.
Proof.
  intros (evs1 & Ht1 & Hr1 & Hc1) (evs2 & Ht2 & Hr2 & Hc2).
  exists (evs1 ++ evs2). split; [rewrite Ht2, Ht1, app_assoc; reflexivity|].
  split; [rewrite List.filter_app, Hr1, Hr2; reflexivity|].
  unfold count_events in *. rewrite List.filter_app, length_app. lia.
Qed.

Lemma ledger_from r w w1 w' :
  trace w1 = trace w -> close_budget w1 = close_budget w ->
  ledger r w1 w' -> ledger r w w'.
Proof.
  intros Ht Hb (evs & Ht' & Hr & Hc). exists evs.
  rewrite <- Ht, <- Hb. auto.
Qed.

Lemma ledger_emit r e w w1 :
  ledger r w w1 -> is_connection_close e = false ->
  ledger (r ++ List.filter is_release [e]) w (set_trace (trace w1 ++ [e]) w1).
Proof.
  intros Hl He. eapply ledger_trans; [exact Hl|].
  exists [e]. split; [reflexivity|]. split; [reflexivity|].
  unfold count_events, close_budget. simpl. rewrite He. simpl. lia.
Qed.

Lemma ledger_emit_quiet e w :
  is_release e = false -> is_connection_close e = false ->
  ledger [] w (set_trace (trace w ++ [e]) w).
Proof.
  intros Hr Hc. exists [e]. split; [reflexivity|].
  unfold count_events, close_budget. simpl. rewrite Hr, Hc. split; [reflexivity|].
  simpl. lia.
Qed.

Lemma cancel_setup_ledger `{Platform} http_connection error_code w :
  returns (s_ws_bootstrap_cancel_setup_due_to_err http_connection error_code) w
    (fun _ w' => ledger [] w w').
Proof.
  intros r w' Heq.
  unfold s_ws_bootstrap_cancel_setup_due_to_err, bind, AWS_ASSERT, get_bootstrap,
    put_bootstrap, aws_http_connection_close, emit, modify, ret, fail in Heq.
  destruct (error_code =? 0) eqn:Hne; [discriminate|]. cbn [negb] in Heq.
  destruct (boot w) as [bs|] eqn:Hboot; [|discriminate].
  destruct (bs_setup_error_code bs =? 0) eqn:Hcode; inversion Heq; subst; clear Heq.
  - exists [EvConnectionClose http_connection].
    split; [reflexivity|]. split; [reflexivity|].
    unfold count_events, close_budget. cbn. rewrite Hboot, Hne, Hcode. simpl. lia.
  - apply ledger_refl.
Qed.

Lemma handshake_complete_error_ledger `{Platform} stream http_connection error_code w :
  returns (handshake_complete_error stream http_connection error_code) w
    (fun _ w' => ledger [EvStreamRelease stream] w w').
Proof.
  unfold handshake_complete_error.
  eapply returns_bind with (R := fun _ w1 => w1 = w).
  { destruct (error_code =? 0); intros r w1 Heq; inversion Heq; reflexivity. }
  intros e w1 ->.
  eapply returns_bind; [apply cancel_setup_ledger|].
  intros ? w2 Hl.
  intros r w' Heq. inversion Heq; subst.
  apply (ledger_emit [] (EvStreamRelease stream) w w2 Hl). reflexivity.
Qed.

Lemma on_handshake_complete_ledger `{Platform} `{Collaborators} stream error_code w :
  returns (s_ws_bootstrap_on_handshake_complete stream error_code) w
    (fun _ w' => ledger [EvStreamRelease stream] w w').
Proof.
  unfold s_ws_bootstrap_on_handshake_complete.
  intros r w' Heq. unfold bind at 1, get_bootstrap in Heq.
  destruct (boot w) as [bs|] eqn:Hboot; [|discriminate].
  assert (Hvia : forall w1 e,
            trace w1 = trace w -> close_budget w1 = close_budget w ->
            handshake_complete_error stream (aws_http_stream_get_connection stream) e w1
            = Ok r w' ->
            ledger [EvStreamRelease stream] w w').
  { intros w1 e Ht Hb Hrun. eapply ledger_from; [exact Ht|exact Hb|].
    exact (handshake_complete_error_ledger _ _ _ _ _ _ Hrun). }
  assert (Hbudget : forall bs1 w1,
            bs_setup_error_code bs1 = bs_setup_error_code bs ->
            boot w1 = Some bs1 -> close_budget w1 = close_budget w).
  { intros bs1 w1 Hcode Hb1. unfold close_budget. rewrite Hb1, Hboot, Hcode. reflexivity. }
  destruct (negb (error_code =? 0)).
  { refine (Hvia _ _ _ _ Heq); reflexivity. }
  unfold bind at 1, put_bootstrap, modify in Heq.
  match type of Heq with
  | (if ?c then _ else _) _ = _ => destruct c
  end.
  { unfold bind at 1, aws_raise_error, bind, modify, ret in Heq.
    refine (Hvia _ _ _ _ Heq); [reflexivity|].
    eapply Hbudget; [|reflexivity]. reflexivity. }
  match type of Heq with
  | context [aws_websocket_handler_new ?o] =>
      destruct (aws_websocket_handler_new o) as [e|websocket]
  end.
  - unfold bind at 1, modify in Heq. unfold bind at 1 in Heq.
    refine (Hvia _ _ _ _ Heq); [reflexivity|].
    eapply Hbudget; [|reflexivity]. reflexivity.
  - unfold bind, call_websocket_setup_callback, aws_http_stream_release, emit, modify in Heq.
    cbn in Heq. destruct (bs_websocket_setup_callback bs) as [fn|]; [|discriminate].
    inversion Heq; subst; clear Heq.
    eexists [_; _]. split; [cbn; rewrite <- app_assoc; reflexivity|].
    split; [reflexivity|].
    unfold count_events, close_budget. cbn. rewrite Hboot. simpl. lia.
Qed.

Lemma copy_response_headers_ledger `{Platform} header_array :
  forall w,
    returns (copy_response_headers header_array) w
      (fun _ w' => trace w' = trace w /\ close_budget w' = close_budget w).
Proof.
  induction header_array as [|h rest IH]; intros w.
  - apply returns_ret. split; reflexivity.
  - cbn [copy_response_headers].
    intros r w' Heq. unfold bind at 1, get_bootstrap in Heq.
    destruct (boot w) as [bs|] eqn:Hboot; [|discriminate].
    assert (Hbudget : forall bs1 w1,
              bs_setup_error_code bs1 = bs_setup_error_code bs ->
              close_budget (set_boot (Some bs1) w1) = close_budget w).
    { intros bs1 w1 Hcode. unfold close_budget. cbn. rewrite Hboot, Hcode. reflexivity. }
    revert r w' Heq.
    eapply returns_bind; [apply append_dynamic_leaves|].
    intros r1 w1 ((_ & _ & Ht1) & _).
    intros r w' Heq. unfold bind at 1, put_bootstrap, modify in Heq.
    destruct (negb (fst r1 =? 0)).
    { inversion Heq; subst. split; [exact Ht1|apply Hbudget; reflexivity]. }
    unfold bind at 1, get_bootstrap in Heq. cbn [boot set_boot] in Heq.
    revert r w' Heq.
    eapply returns_bind; [apply append_dynamic_leaves|].
    intros r2 w2 ((_ & _ & Ht2) & _).
    intros r w' Heq. unfold bind at 1, put_bootstrap, modify in Heq.
    destruct (negb (fst r2 =? 0)).
    { inversion Heq; subst. split; [cbn in *; congruence|apply Hbudget; reflexivity]. }
    unfold bind at 1, get_bootstrap in Heq. cbn [boot set_boot] in Heq.
    revert r w' Heq.
    eapply returns_bind; [apply push_back_leaves|].
    intros r3 w3 ((_ & _ & Ht3) & _).
    intros r w' Heq. unfold bind at 1, put_bootstrap, modify in Heq.
    destruct (negb (fst r3 =? 0)).
    { inversion Heq; subst. split; [cbn in *; congruence|apply Hbudget; reflexivity]. }
    destruct (IH _ _ _ Heq) as (Ht & Hb).
    split; [cbn in *; congruence|].
    rewrite Hb. apply Hbudget. reflexivity.
Qed.

Lemma on_response_headers_ledger `{Platform} stream header_array w :
  returns (s_ws_bootstrap_on_handshake_response_headers stream header_array) w
    (fun _ w' => ledger [] w w').
Proof.
  unfold s_ws_bootstrap_on_handshake_response_headers.
  eapply returns_bind; [apply copy_response_headers_ledger|].
  intros ok w1 (Ht1 & Hb1).
  destruct ok.
  - apply returns_ret. eapply ledger_from; [exact Ht1|exact Hb1|apply ledger_refl].
  - intros r w' Heq. unfold bind at 1, aws_last_error in Heq.
    eapply ledger_from; [exact Ht1|exact Hb1|].
    exact (cancel_setup_ledger _ _ _ _ _ Heq).
Qed.

Lemma destroy_ledger `{Platform} bs w :
  returns (s_ws_bootstrap_destroy (Some bs)) w
    (fun _ w' => ledger [EvBootstrapDestroy] w w').
Proof.
  eapply returns_mono; [apply destroy_leaves|].
  intros ? w' (Hnone & Ht & _). exists [EvBootstrapDestroy].
  split; [exact Ht|]. split; [reflexivity|].
  unfold count_events, close_budget. rewrite Hnone. simpl. lia.
Qed.

Lemma on_http_shutdown_ledger `{Platform} http_connection error_code w :
  returns (s_ws_bootstrap_on_http_shutdown http_connection error_code) w
    (fun _ w' => ledger [EvConnectionRelease http_connection; EvBootstrapDestroy] w w').
Proof.
  unfold s_ws_bootstrap_on_http_shutdown.
  intros r w' Heq. unfold bind at 1, get_bootstrap in Heq.
  destruct (boot w) as [bs|] eqn:Hboot; [|discriminate].
  revert r w' Heq.
  eapply returns_bind with (R := fun _ w1 => ledger [] w w1).
  { intros r w1 Heq.
    unfold AWS_ASSERT, call_websocket_setup_callback, bind, emit, modify, ret, fail in Heq.
    repeat match type of Heq with
           | context [if ?c then _ else _] => destruct c
           | context [match ?x with _ => _ end] => destruct x
           end;
      inversion Heq; subst; clear Heq;
      first [apply ledger_refl|apply ledger_emit_quiet; reflexivity]. }
  intros ? w1 Hl1.
  eapply returns_bind with (R := fun _ w2 => ledger [EvConnectionRelease http_connection] w w2).
  { intros r w2 Heq. inversion Heq; subst.
    apply (ledger_emit [] (EvConnectionRelease http_connection) w w1 Hl1). reflexivity. }
  intros ? w2 Hl2.
  eapply returns_mono; [apply destroy_ledger|].
  intros ? w' Hl3. apply (ledger_trans _ _ _ _ _ Hl2 Hl3).
Qed.

Lemma on_http_setup_ledger `{Platform} `{Collaborators} http_connection error_code w :
  returns (s_ws_bootstrap_on_http_setup http_connection error_code) w
    (fun _ w' => ledger (releases_of (OnHttpSetup http_connection error_code)) w w').
Proof.
  unfold s_ws_bootstrap_on_http_setup.
  intros r w' Heq. unfold bind at 1, get_bootstrap in Heq.
  destruct (boot w) as [bs|] eqn:Hboot; [|discriminate].
  unfold bind at 1, AWS_FATAL_ASSERT in Heq.
  destruct (error_code =? 0) eqn:He; destruct http_connection as [connection|];
    cbn in Heq; try discriminate.
  - match type of Heq with
    | context [aws_http_stream_new_client_request ?o] =>
        destruct (aws_http_stream_new_client_request o) as [e|s]
    end.
    + unfold bind at 1, modify in Heq. unfold bind at 1, aws_last_error in Heq.
      eapply ledger_from; [| |exact (cancel_setup_ledger _ _ _ _ _ Heq)]; reflexivity.
    + inversion Heq; subst. apply ledger_refl.
  - unfold bind at 1, call_websocket_setup_callback in Heq.
    destruct (bs_websocket_setup_callback bs); [|discriminate].
    cbn [emit modify] in Heq.
    eapply (ledger_trans [] [EvBootstrapDestroy]);
      [|exact (destroy_ledger _ _ _ _ Heq)].
    apply ledger_emit_quiet; reflexivity.
Qed.

Lemma run_ledger `{Platform} `{Collaborators} cs :
  forall w, returns (run cs) w (fun _ w' => ledger (releases cs) w w').
Proof.
  induction cs as [|c rest IH]; intros w; simpl.
  - apply returns_ret. apply ledger_refl.
  - eapply returns_bind with (R := fun _ w1 => ledger (releases_of c) w w1).
    + destruct c as [conn e|stream header_array|stream e|conn e]; simpl dispatch.
      * apply on_http_setup_ledger.
      * apply on_response_headers_ledger.
      * apply on_handshake_complete_ledger.
      * apply on_http_shutdown_ledger.
    + intros ? w1 Hl1. eapply returns_mono; [apply IH|].
      intros ? w' Hl2. apply (ledger_trans _ _ _ _ _ Hl1 Hl2).
Qed.



(** X10: no byte buffer storage outlives the bootstrap.  From a state in
    which the setup callback is pending and the only byte buffer storage
    acquired since the heap was [h0] is that of the two storages of the
    bootstrap, every lifetime of HTTP callbacks (with whatever header
    batches, however often the response storage had to move to a larger
    block, and whether setup succeeds or not) runs without a fault and
    ends with the bootstrap gone and byte buffer storage holding exactly
    the live blocks of [h0] again: the request storage, the response
    storage and every block the response storage left behind when it grew
    have been released.  (The request header array and the response
    header list are not byte buffer storage; of their release this says
    nothing.) *)
Theorem lifetime_releases_buffer_storage `{Platform} `{Collaborators}
    (h0 : list (option block)) (w : world) (fn : fn_ptr) (sh : option fn_ptr)
    (cs : list http_callback) :
  AWS_ERROR_OOM <> 0 ->
  AWS_ERROR_HTTP_WEBSOCKET_UPGRADE_FAILURE <> 0 ->
  collaborators_raise ->
  pending_with w fn sh ->
  buffer_storage_accounted h0 w ->
  lifetime cs = true ->
  succeeds (run cs) w (fun _ w' => boot w' = None /\ buffer_storage_same h0 (heap w')).
Proof.
  intros Hoom Hupgrade Hraise Hpending Hacc Hlife.
  eapply succeeds_mono;
    [apply (succeeds_with_returns _ _ _ _
              (succeeds_with_returns _ _ _ _
                 (lifetime_history w fn sh cs Hoom Hupgrade Hraise Hpending Hlife)
                 (lifetime_ends_destroyed cs w Hlife))
              (run_accounted h0 cs w Hacc))|].
  intros ? w' ((_ & Hnone) & Hacc'). split; [exact Hnone|].
  unfold buffer_storage_accounted in Hacc'. rewrite Hnone in Hacc'. exact Hacc'.
Qed.

Lemma lifetime_releases_buffer_storage_witness :
  succeeds
    (run (H := example_platform) (H0 := example_http)
       [OnHttpSetup (Some 5%nat) 0;
        OnResponseHeaders (example_stream 101) [example_short_header; example_long_header];
        OnHandshakeComplete (example_stream 101) 0;
        OnHttpShutdown 5%nat 0])
    example_connected_world
    (fun _ w' => boot w' = None /\ buffer_storage_same [] (heap w')).
Proof.
  apply (lifetime_releases_buffer_storage (H := example_platform) (H0 := example_http)
           [] example_connected_world 10%nat (Some 11%nat));
    [discriminate|discriminate|split; intros o e Heq; discriminate| | |reflexivity].
  - exists example_bootstrap. split; [example_bootstrap_ok|repeat split].
  - split; [vm_compute; lia|]. split; [vm_compute; lia|]. split; [vm_compute; lia|].
    split; [vm_compute; discriminate|].
    intros [|[|b]] Hq Hr; [contradiction Hq; reflexivity|contradiction Hr; reflexivity
                          |reflexivity].
Defined.

(** X11: what the bootstrap gives back over a lifetime.  Over every
    lifetime of HTTP callbacks from a state with the setup callback
    pending, the handlers run without a fault, and the releases they make
    are exactly, in order: the reference to the handshake stream, released
    by the completion handler whether the handshake succeeded or not; the
    reference to the connection and then the bootstrap itself, at the
    shutdown; the bootstrap alone when the connection was never set up.
    The bootstrap asks for the connection to be closed at most once. *)
Theorem lifetime_gives_back_once `{Platform} `{Collaborators}
    (w : world) (fn : fn_ptr) (sh : option fn_ptr) (cs : list http_callback) :
  AWS_ERROR_OOM <> 0 ->
  AWS_ERROR_HTTP_WEBSOCKET_UPGRADE_FAILURE <> 0 ->
  collaborators_raise ->
  pending_with w fn sh ->
  lifetime cs = true ->
  succeeds (run cs) w
    (fun _ w' =>
       exists evs,
         trace w' = trace w ++ evs
         /\ List.filter is_release evs = releases cs
         /\ (count_events is_connection_close evs <= 1)%nat).
Proof.
  intros Hoom Hupgrade Hraise Hpending Hlife.
  eapply succeeds_mono;
    [apply (succeeds_with_returns _ _ _ _
              (lifetime_history w fn sh cs Hoom Hupgrade Hraise Hpending Hlife)
              (run_ledger cs w))|].
  intros ? w' (_ & evs & Ht & Hr & Hc). exists evs.
  split; [exact Ht|]. split; [exact Hr|].
  assert (close_budget w <= 1)%nat.
  { unfold close_budget. destruct (boot w) as [bs|]; [destruct (_ =? _)|]; lia. }
  lia.
Qed.

Lemma lifetime_gives_back_once_witness :
  succeeds
    (run (H := example_platform) (H0 := example_http)
       [OnHttpSetup (Some 5%nat) 0;
        OnResponseHeaders (example_stream 101) [example_short_header];
        OnHandshakeComplete (example_stream 200) 0;
        OnHttpShutdown 5%nat 0])
    example_connected_world
    (fun _ w' =>
       exists evs,
         trace w' = trace example_connected_world ++ evs
         /\ List.filter is_release evs
            = [EvStreamRelease (example_stream 200); EvConnectionRelease 5%nat;
               EvBootstrapDestroy]
         /\ (count_events is_connection_close evs <= 1)%nat).
Proof.
  apply (lifetime_gives_back_once (H := example_platform) (H0 := example_http)
           example_connected_world 10%nat (Some 11%nat));
    [discriminate|discriminate|split; intros o e Heq; discriminate| |reflexivity].
  exists example_bootstrap. split; [example_bootstrap_ok|repeat split].
Defined.

Lemma response_headers_round_trip_without_growth_witness :
  succeeds
    (deliver_headers (H := example_platform) (example_stream 101)
       [[example_short_header]; [example_short_header; example_short_header]])
    example_connected_world
    (fun _ w' =>
       trace w' = trace example_connected_world /\ alloc_plan w' = [] /\
       exists bs',
         boot w' = Some bs' /\
         buf_buffer (bs_response_storage bs') = Some 1%nat /\
         buf_capacity (bs_response_storage bs')
         = buf_capacity (bs_response_storage example_bootstrap) /\
         buf_holds (heap w') (bs_response_storage bs')
           ([] ++ header_stream
                    (concat [[example_short_header];
                             [example_short_header; example_short_header]])) /\
         load_headers (heap w') (al_items (bs_response_headers bs'))
         = Some ([] ++ concat [[example_short_header];
                               [example_short_header; example_short_header]])).
Proof.
  apply (response_headers_round_trip_without_growth (H := example_platform)
           (example_stream 101)
           [[example_short_header]; [example_short_header; example_short_header]]
           example_connected_world example_bootstrap 1%nat [] []);
    [reflexivity|reflexivity|reflexivity
    |split; [reflexivity|split; [vm_compute; discriminate|reflexivity]]
    |reflexivity|vm_compute; discriminate].
Defined.

(** ** Operations that neither allocate nor raise *)

Lemma unfailing_refl w : unfailing w w.
Proof. split; reflexivity. Qed.

Lemma unfailing_trans w1 w2 w3 : unfailing w1 w2 -> unfailing w2 w3 -> unfailing w1 w3.
Proof. intros (He1 & Hp1) (He2 & Hp2). split; congruence. Qed.

Lemma memcpy_to_unfailing buffer off src w :
  returns (memcpy_to buffer off src) w (fun _ w' => unfailing w w').
Proof.
  intros r w' Heq. destruct buffer as [b|]; simpl in Heq.
  - destruct (heap_get (heap w) b); [|discriminate].
    destruct (_ && _); inversion Heq; subst; split; reflexivity.
  - destruct (_ =? _); inversion Heq; subst; split; reflexivity.
Qed.

Lemma aws_byte_buf_clean_up_unfailing buf w :
  returns (aws_byte_buf_clean_up buf) w (fun _ w' => unfailing w w').
Proof.
  intros r w' Heq. unfold aws_byte_buf_clean_up, aws_mem_release in Heq.
  destruct (buf_buffer buf) as [b|].
  - destruct (heap_get (heap w) b); inversion Heq; subst; split; reflexivity.
  - inversion Heq; subst. apply unfailing_refl.
Qed.

Lemma destroy_unfailing ws w :
  returns (s_ws_bootstrap_destroy ws) w (fun _ w' => unfailing w w').
Proof.
  destruct ws as [bs|]; simpl; [|apply returns_ret, unfailing_refl].
  eapply returns_bind; [apply aws_byte_buf_clean_up_unfailing|].
  intros ? w1 Hu1.
  eapply returns_bind; [apply aws_byte_buf_clean_up_unfailing|].
  intros ? w2 Hu2.
  intros r w' Heq. inversion Heq; subst.
  destruct Hu1 as (He1 & Hp1), Hu2 as (He2 & Hp2). split; simpl; congruence.
Qed.

Lemma append_dynamic_plan `{Platform} buf from w :
  alloc_plan w = [] ->
  returns (aws_byte_buf_append_dynamic buf from) w
    (fun r w' => fst r = AWS_OP_SUCCESS /\ alloc_plan w' = []).
Proof.
  intros Hplan. unfold aws_byte_buf_append_dynamic. split_if.
  - intros r w' Heq. unfold bind at 1, get in Heq.
    destruct (load (heap w) _ _) as [old|]; [|discriminate].
    revert r w' Heq.
    eapply returns_bind with (R := fun b w1 => b <> None /\ alloc_plan w1 = []).
    { intros b w1 Heq. unfold aws_mem_acquire, bind, take_alloc in Heq.
      rewrite Hplan in Heq. inversion Heq; subst. split; [discriminate|exact Hplan]. }
    intros [nb|] w1 (Hnb & Hplan1); [|contradiction]. clear Hnb.
    eapply returns_bind; [apply memcpy_to_unfailing|].
    intros ? w2 (_ & Hp2).
    eapply returns_bind; [apply memcpy_to_unfailing|].
    intros ? w3 (_ & Hp3).
    eapply returns_bind; [apply aws_byte_buf_clean_up_unfailing|].
    intros ? w4 (_ & Hp4).
    apply returns_ret. split; [reflexivity|].
    rewrite Hp4, Hp3, Hp2. exact Hplan1.
  - eapply returns_bind; [apply memcpy_to_unfailing|].
    intros ? w1 (_ & Hp1). apply returns_ret. split; [reflexivity|congruence].
Qed.

(** With an allocator that does not fail, an append succeeds, whether the
    buffer has to grow or not, and the buffer then holds what it held
    followed by what was appended. *)
Lemma append_dynamic_never_failing `{Platform} w buf content from :
  buf_holds (heap w) buf content ->
  alloc_plan w = [] ->
  succeeds (aws_byte_buf_append_dynamic buf from) w
    (fun r w' =>
       fst r = AWS_OP_SUCCESS /\ steady w w' /\ alloc_plan w' = []
       /\ buf_holds (heap w') (snd r) (content ++ from)).
Proof.
  intros Hholds Hplan.
  destruct (Z_le_gt_dec (buf_len buf + byte_len from) (buf_capacity buf)) as [Hfit|Hgrow].
  - eapply succeeds_mono; [apply (append_dynamic_fits w buf content from Hholds Hfit)|].
    intros r w' (-> & Hst & _ & _ & Hp & _ & Hh).
    split; [reflexivity|]. split; [exact Hst|]. split; [congruence|exact Hh].
  - eapply succeeds_mono;
      [apply (succeeds_with_returns _ _ _ _
                (append_dynamic_grows w buf content from Hholds ltac:(lia))
                (append_dynamic_plan buf from w Hplan))|].
    intros r w' ((Hst & _ & Hcases) & Hrc & Hp).
    split; [exact Hrc|]. split; [exact Hst|]. split; [exact Hp|].
    destruct Hcases as [(_ & Hh & _)|(Herr & _)]; [exact Hh|].
    rewrite Hrc in Herr. discriminate.
Qed.

Lemma copy_response_headers_accumulates `{Platform} header_array :
  forall w bs content,
    boot w = Some bs ->
    alloc_plan w = [] ->
    buf_holds (heap w) (bs_response_storage bs) content ->
    succeeds (copy_response_headers header_array) w
      (fun ok w' =>
         ok = true /\ trace w' = trace w /\ alloc_plan w' = [] /\
         exists bs',
           boot w' = Some bs' /\
           buf_holds (heap w') (bs_response_storage bs')
             (content ++ header_stream header_array) /\
           map record_lengths (al_items (bs_response_headers bs'))
           = map record_lengths (al_items (bs_response_headers bs))
             ++ map header_lengths header_array).
Proof.
  induction header_array as [|src rest IH]; intros w bs content Hboot Hplan Hholds.
  - simpl. apply succeeds_ret. rewrite !app_nil_r.
    repeat split; auto. exists bs. auto.
  - cbn [copy_response_headers].
    eapply succeeds_bind_eq; [unfold get_bootstrap; rewrite Hboot; reflexivity|].
    eapply succeeds_bind.
    { apply (append_dynamic_never_failing w _ content (hb_name src) Hholds Hplan). }
    intros [rc1 buf1] w1 (Hrc1 & (_ & Hb1 & Ht1) & Hplan1 & Hholds1).
    cbn [fst snd] in *. subst rc1.
    eapply succeeds_bind_eq; [reflexivity|].
    change (negb (AWS_OP_SUCCESS =? 0)) with false. cbv iota.
    eapply succeeds_bind_eq; [reflexivity|].
    cbn [bs_response_storage set_bs_response_storage].
    eapply succeeds_bind.
    { apply (append_dynamic_never_failing _ buf1 (content ++ hb_name src) (hb_value src));
        [exact Hholds1|exact Hplan1]. }
    intros [rc2 buf2] w2 (Hrc2 & (_ & Hb2 & Ht2) & Hplan2 & Hholds2).
    cbn [fst snd] in *. subst rc2.
    eapply succeeds_bind_eq; [reflexivity|].
    change (negb (AWS_OP_SUCCESS =? 0)) with false. cbv iota.
    eapply succeeds_bind_eq; [reflexivity|].
    set (dst := {| hdr_name := _; hdr_value := _ |}).
    set (bs2 := set_bs_response_storage _ (set_bs_response_storage _ bs)).
    set (w2' := set_boot (Some bs2) w2).
    destruct (push_back_never_failing w2' (bs_response_headers bs2) dst)
      as ([rc3 l3] & Hpush & Hrc3 & Hitems3).
    { exact Hplan2. }
    simpl in Hrc3, Hitems3. subst rc3.
    eapply succeeds_bind_eq; [exact Hpush|].
    eapply succeeds_bind_eq; [reflexivity|].
    change (negb (fst (AWS_OP_SUCCESS, l3) =? 0)) with false. cbv iota.
    eapply succeeds_mono.
    { apply (IH _ (set_bs_response_headers l3 bs2) ((content ++ hb_name src) ++ hb_value src));
        [reflexivity|exact Hplan2|exact Hholds2]. }
    intros ok w4 (Hok & Ht4 & Hplan4 & bs4 & Hboot4 & Hholds4 & Hlen4).
    split; [exact Hok|]. split; [simpl in *; congruence|]. split; [exact Hplan4|].
    exists bs4. split; [exact Hboot4|]. split.
    + simpl. rewrite <- ?app_assoc in Hholds4. rewrite <- ?app_assoc. exact Hholds4.
    + rewrite Hlen4. simpl. rewrite Hitems3, map_app. simpl.
      rewrite <- app_assoc. reflexivity.
Qed.

(** X12: the bytes of the response headers survive every growth of their
    storage.  With an allocator that does not fail, however many batches
    arrive and however often the response storage has to move to a larger
    block, the handlers run without a fault and call nothing, the storage
    holds what it held followed by the names and values of all the headers
    in arrival order, and the list has one more record per header, with the
    lengths of its name and value. *)
Theorem response_bytes_survive_growth `{Platform} (stream : aws_http_stream)
    (batches : list (list header_bytes)) :
  forall w bs content,
    boot w = Some bs ->
    alloc_plan w = [] ->
    buf_holds (heap w) (bs_response_storage bs) content ->
    succeeds (deliver_headers stream batches) w
      (fun _ w' =>
         trace w' = trace w /\ alloc_plan w' = [] /\
         exists bs',
           boot w' = Some bs' /\
           buf_holds (heap w') (bs_response_storage bs')
             (content ++ header_stream (concat batches)) /\
           map record_lengths (al_items (bs_response_headers bs'))
           = map record_lengths (al_items (bs_response_headers bs))
             ++ map header_lengths (concat batches)).
Proof.
  induction batches as [|batch rest IH]; intros w bs content Hboot Hplan Hholds.
  - simpl. apply succeeds_ret. rewrite !app_nil_r.
    repeat split; auto. exists bs. auto.
  - simpl.
    destruct (copy_response_headers_accumulates batch w bs content Hboot Hplan Hholds)
      as (ok & w1 & Hcopy & -> & Ht1 & Hplan1 & bs1 & Hboot1 & Hholds1 & Hlen1).
    eapply succeeds_bind_eq.
    { unfold s_ws_bootstrap_on_handshake_response_headers, bind. rewrite Hcopy.
      reflexivity. }
    eapply succeeds_mono; [apply (IH w1 bs1 _ Hboot1 Hplan1 Hholds1)|].
    intros ? w2 (Ht2 & Hplan2 & bs2 & Hboot2 & Hholds2 & Hlen2).
    split; [congruence|]. split; [exact Hplan2|].
    exists bs2. split; [exact Hboot2|]. split.
    + rewrite header_stream_app, app_assoc. exact Hholds2.
    + rewrite Hlen2, Hlen1, map_app, app_assoc. reflexivity.
Qed.

Lemma response_bytes_survive_growth_witness :
  succeeds
    (deliver_headers (H := example_platform) (example_stream 101)
       [[example_short_header]; [example_long_header; example_short_header]])
    example_connected_world
    (fun _ w' =>
       trace w' = trace example_connected_world /\ alloc_plan w' = [] /\
       exists bs',
         boot w' = Some bs' /\
         buf_holds (heap w') (bs_response_storage bs')
           ([] ++ header_stream
                    (concat [[example_short_header];
                             [example_long_header; example_short_header]])) /\
         map record_lengths (al_items (bs_response_headers bs'))
         = map record_lengths (al_items (bs_response_headers example_bootstrap))
           ++ map header_lengths
                (concat [[example_short_header];
                         [example_long_header; example_short_header]])).
Proof.
  apply (response_bytes_survive_growth (H := example_platform) (example_stream 101)
           [[example_short_header]; [example_long_header; example_short_header]]
           example_connected_world example_bootstrap []);
    [reflexivity|reflexivity
    |split; [reflexivity|split; [vm_compute; discriminate|reflexivity]]].
Defined.

(** ** What [aws_websocket_client_connect] leaves *)

Lemma take_alloc_raises `{Platform} w :
  returns take_alloc w
    (fun ok w' => steady w w' /\ (ok = false -> last_error w' = AWS_ERROR_OOM)).
Proof.
  intros ok w' Heq. unfold take_alloc in Heq.
  destruct (alloc_plan w) as [|[] rest]; inversion Heq; subst;
    (split; [repeat split|]); intros; try discriminate; reflexivity.
Qed.

Lemma aws_byte_buf_init_raises `{Platform} capacity w :
  returns (aws_byte_buf_init capacity) w
    (fun r w' => steady w w' /\ ((fst r =? 0) = false -> last_error w' = AWS_ERROR_OOM)).
Proof.
  unfold aws_byte_buf_init. split_if.
  - apply returns_ret. split; [apply steady_refl|]. simpl. discriminate.
  - unfold aws_mem_acquire.
    intros r w' Heq. unfold bind at 1, bind at 1 in Heq.
    destruct (take_alloc w) as [ok w1|] eqn:Halloc; [|discriminate].
    destruct (take_alloc_raises _ _ _ Halloc) as (Hst & Hoom).
    destruct ok; inversion Heq; subst; clear Heq; simpl.
    + split; [exact Hst|]. discriminate.
    + split; [exact Hst|]. intros _. apply Hoom. reflexivity.
Qed.

Lemma aws_array_list_init_dynamic_raises `{Platform} n w :
  returns (aws_array_list_init_dynamic n) w
    (fun r w' =>
       steady w w' /\ al_items (snd r) = []
       /\ ((fst r =? 0) = false -> last_error w' = AWS_ERROR_OOM)).
Proof.
  unfold aws_array_list_init_dynamic. split_if.
  - eapply returns_bind; [apply take_alloc_raises|].
    intros ok w1 (Hst & Hoom). destruct ok; apply returns_ret; simpl.
    + split; [exact Hst|]. split; [reflexivity|discriminate].
    + split; [exact Hst|]. split; [reflexivity|]. intros _. apply Hoom. reflexivity.
  - apply returns_ret. split; [apply steady_refl|]. split; [reflexivity|]. simpl. discriminate.
Qed.

Lemma connect_error_outcome `{Platform} ws w :
  returns (connect_error ws) w
    (fun rc w' =>
       rc = AWS_OP_ERR /\ last_error w' = last_error w
       /\ (boot w = None -> boot w' = None)).
Proof.
  unfold connect_error. intros rc w' Heq. unfold bind in Heq.
  destruct (s_ws_bootstrap_destroy ws w) as [[] w1|] eqn:Hd; [|discriminate].
  inversion Heq; subst. split; [reflexivity|].
  destruct (destroy_unfailing _ _ _ _ Hd) as (He & _). split; [exact He|].
  destruct ws as [bs|].
  - intros _. destruct (destroy_leaves _ _ _ _ Hd) as (Hnone & _). exact Hnone.
  - inversion Hd; subst. auto.
Qed.

Lemma connect_outcome `{Platform} `{Collaborators}
    (options : aws_websocket_client_connection_options) (w : world) :
  returns (aws_websocket_client_connect options) w
    (fun rc w' =>
       (rc = AWS_OP_SUCCESS
        /\ exists uri request_path request_headers request_storage
                  response_headers response_storage,
             co_uri options = Some uri
             /\ al_items response_headers = []
             /\ boot w' = Some (make_bootstrap options request_path request_headers
                                  (co_num_handhake_headers options) request_storage
                                  response_headers response_storage)
             /\ trace w' = trace w ++ [EvHttpClientConnect (http_options_of options uri)])
       \/ (rc = AWS_OP_ERR
           /\ (boot w = None -> boot w' = None)
           /\ connect_raised options w')).
Proof.
  set (Q := fun (rc : Z) (w' : world) =>
       (rc = AWS_OP_SUCCESS
        /\ exists uri request_path request_headers request_storage
                  response_headers response_storage,
             co_uri options = Some uri
             /\ al_items response_headers = []
             /\ boot w' = Some (make_bootstrap options request_path request_headers
                                  (co_num_handhake_headers options) request_storage
                                  response_headers response_storage)
             /\ trace w' = trace w ++ [EvHttpClientConnect (http_options_of options uri)])
       \/ (rc = AWS_OP_ERR
           /\ (boot w = None -> boot w' = None)
           /\ connect_raised options w')).
  assert (Hraise : forall w1, steady w w1 ->
            returns (aws_raise_error AWS_ERROR_INVALID_ARGUMENT) w1 Q).
  { intros w1 (_ & Hb & _) r w' Heq. inversion Heq; subst. right.
    split; [reflexivity|]. split; [simpl; congruence|]. left. reflexivity. }
  assert (Hoom : forall ws w1, steady w w1 -> last_error w1 = AWS_ERROR_OOM ->
            returns (connect_error ws) w1 Q).
  { intros ws w1 (_ & Hb & _) He. eapply returns_mono; [apply connect_error_outcome|].
    intros rc w' (-> & He' & Hnone). right. split; [reflexivity|].
    split; [rewrite Hb in Hnone; exact Hnone|]. right. left. congruence. }
  unfold aws_websocket_client_connect.
  eapply returns_bind with (R := fun _ w1 => w1 = w).
  { intros r w1 Heq. unfold aws_http_fatal_assert_library_initialized, bind, get in Heq.
    destruct (http_library_initialized w); inversion Heq; subst. reflexivity. }
  intros ? w1 ->.
  split_if; [apply Hraise, steady_refl|].
  split_if; [apply Hraise, steady_refl|].
  split_if; [apply Hraise, steady_refl|].
  destruct (co_uri options) as [uri|] eqn:Huri; [|apply returns_fail].
  destruct (co_handshake_header_array options) as [headers|] eqn:Hhs; [|apply returns_fail].
  eapply returns_bind; [apply take_alloc_raises|].
  intros ok1 w2 (Hst2 & Hoom2).
  destruct ok1; simpl negb; cbv iota; [|apply (Hoom None w2 Hst2), Hoom2; reflexivity].
  eapply returns_bind; [apply aws_byte_buf_init_raises|].
  intros r w3 (Hst3 & Hoom3). pose proof (steady_trans _ _ _ Hst2 Hst3) as Hs3.
  destruct (fst r =? 0) eqn:Hr; simpl negb; cbv iota;
    [|apply (Hoom _ w3 Hs3), Hoom3; reflexivity].
  eapply returns_bind; [apply write_from_whole_cursor_leaves|].
  intros wr w4 (Hst4 & _). pose proof (steady_trans _ _ _ Hs3 Hst4) as Hs4.
  eapply returns_bind; [apply take_alloc_raises|].
  intros ok2 w5 (Hst5 & Hoom5). pose proof (steady_trans _ _ _ Hs4 Hst5) as Hs5.
  destruct ok2; simpl negb; cbv iota; [|apply (Hoom _ w5 Hs5), Hoom5; reflexivity].
  eapply returns_bind; [apply copy_request_headers_leaves|].
  intros cp w6 (Hst6 & _). pose proof (steady_trans _ _ _ Hs5 Hst6) as Hs6.
  eapply returns_bind with (R := fun _ w7 => w7 = w6).
  { intros r7 w7 Heq. unfold AWS_ASSERT in Heq.
    destruct (snd cp); inversion Heq; subst. reflexivity. }
  intros ? w7 ->.
  eapply returns_bind; [apply aws_array_list_init_dynamic_raises|].
  intros rh w8 (Hst8 & Hitems & Hoom8). pose proof (steady_trans _ _ _ Hs6 Hst8) as Hs8.
  destruct (fst rh =? 0) eqn:Hrh; simpl negb; cbv iota;
    [|apply (Hoom _ w8 Hs8), Hoom8; reflexivity].
  eapply returns_bind; [apply aws_byte_buf_init_raises|].
  intros rs w9 (Hst9 & Hoom9). pose proof (steady_trans _ _ _ Hs8 Hst9) as Hs9.
  destruct (fst rs =? 0) eqn:Hrs; simpl negb; cbv iota;
    [|apply (Hoom _ w9 Hs9), Hoom9; reflexivity].
  destruct Hs9 as (_ & Hb9 & Ht9).
  intros rc w' Heq. unfold bind at 1, put_bootstrap, modify in Heq.
  unfold bind at 1, emit, modify in Heq.
  change (aws_http_client_connect _) with
    (aws_http_client_connect (http_options_of options uri)) in Heq.
  destruct (aws_http_client_connect (http_options_of options uri)) as [e|] eqn:Hconnect.
  - unfold bind at 1, modify in Heq.
    destruct (connect_error_outcome _ _ _ _ Heq) as (-> & He & _).
    right. split; [reflexivity|]. split.
    + intros _. unfold connect_error, bind in Heq.
      match type of Heq with
      | match s_ws_bootstrap_destroy (Some ?b) ?w10 with _ => _ end = _ =>
          destruct (s_ws_bootstrap_destroy (Some b) w10) as [[] w11|] eqn:Hd;
            [|discriminate]
      end.
      inversion Heq; subst.
      destruct (destroy_leaves _ _ _ _ Hd) as (Hnone & _). exact Hnone.
    + right. right. exists uri. split; [exact Huri|]. rewrite He. exact Hconnect.
  - inversion Heq; subst. left. split; [reflexivity|].
    exists uri. do 5 eexists. split; [reflexivity|].
    split; [exact Hitems|]. split; [reflexivity|].
    simpl. rewrite Ht9. unfold co_num_handhake_headers. reflexivity.
Qed.

Lemma take_alloc_plan `{Platform} w :
  alloc_plan w = [] ->
  returns take_alloc w (fun ok w' => ok = true /\ alloc_plan w' = []).
Proof.
  intros Hplan ok w' Heq. unfold take_alloc in Heq. rewrite Hplan in Heq.
  inversion Heq; subst. split; [reflexivity|exact Hplan].
Qed.

Lemma aws_byte_buf_init_plan `{Platform} capacity w :
  alloc_plan w = [] ->
  returns (aws_byte_buf_init capacity) w
    (fun r w' => (fst r =? 0) = true /\ alloc_plan w' = []).
Proof.
  intros Hplan. unfold aws_byte_buf_init. split_if.
  - apply returns_ret. split; [reflexivity|exact Hplan].
  - intros r w' Heq. unfold aws_mem_acquire, bind, take_alloc in Heq.
    rewrite Hplan in Heq. inversion Heq; subst. split; [reflexivity|exact Hplan].
Qed.

Lemma aws_array_list_init_dynamic_plan `{Platform} n w :
  alloc_plan w = [] ->
  returns (aws_array_list_init_dynamic n) w
    (fun r w' => (fst r =? 0) = true /\ alloc_plan w' = []).
Proof.
  intros Hplan. unfold aws_array_list_init_dynamic. split_if.
  - intros r w' Heq. unfold bind, take_alloc in Heq.
    rewrite Hplan in Heq. inversion Heq; subst. split; [reflexivity|exact Hplan].
  - apply returns_ret. split; [reflexivity|exact Hplan].
Qed.

(** With options that pass the checks, an allocator that does not fail
    and an HTTP layer that accepts the connection,
    [aws_websocket_client_connect] does not return an error. *)
Lemma connect_progress `{Platform} `{Collaborators}
    (options : aws_websocket_client_connection_options)
    (uri : aws_uri) (headers : list header_bytes) (w : world) :
  co_allocator options <> None ->
  co_bootstrap options <> None ->
  co_socket_options options <> None ->
  co_uri options = Some uri ->
  co_on_connection_setup options <> None ->
  (co_on_incoming_frame_begin options = None
   <-> co_on_incoming_frame_payload options <> None) ->
  co_handshake_header_array options = Some headers ->
  headers <> [] ->
  alloc_plan w = [] ->
  aws_http_client_connect (http_options_of options uri) = None ->
  returns (aws_websocket_client_connect options) w (fun rc _ => rc = AWS_OP_SUCCESS).
Proof.
  intros Halloc Hboot Hsock Huri Hsetup Hframes Hhs Hne Hplan Haccept.
  unfold aws_websocket_client_connect.
  eapply returns_bind with (R := fun _ w1 => w1 = w).
  { intros r w1 Heq. unfold aws_http_fatal_assert_library_initialized, bind, get in Heq.
    destruct (http_library_initialized w); inversion Heq; subst. reflexivity. }
  intros ? w1 ->.
  split_if.
  { exfalso. rewrite Huri in *.
    destruct (co_allocator options), (co_bootstrap options), (co_socket_options options),
      (co_on_connection_setup options); try contradiction; discriminate. }
  split_if.
  { exfalso.
    destruct (co_on_incoming_frame_begin options), (co_on_incoming_frame_payload options);
      simpl in *; try discriminate.
    - destruct Hframes as [_ Hf]. specialize (Hf ltac:(discriminate)). discriminate.
    - destruct Hframes as [Hf _]. apply (Hf eq_refl). reflexivity. }
  split_if.
  { exfalso. unfold co_num_handhake_headers in *. rewrite Hhs in *.
    destruct headers; [contradiction|discriminate]. }
  rewrite Huri, Hhs.
  eapply returns_bind; [apply take_alloc_plan, Hplan|].
  intros ok1 w2 (-> & Hp2). simpl negb. cbv iota.
  eapply returns_bind; [apply aws_byte_buf_init_plan, Hp2|].
  intros r w3 (Hr & Hp3). rewrite Hr. simpl negb. cbv iota.
  eapply returns_bind; [apply write_from_whole_cursor_leaves|].
  intros wr w4 (_ & _ & _ & _ & _ & Hp4). rewrite Hp3 in Hp4.
  eapply returns_bind; [apply take_alloc_plan, Hp4|].
  intros ok2 w5 (-> & Hp5). simpl negb. cbv iota.
  eapply returns_bind; [apply copy_request_headers_leaves|].
  intros cp w6 (_ & _ & _ & _ & _ & Hp6). rewrite Hp5 in Hp6.
  eapply returns_bind with (R := fun _ w7 => w7 = w6).
  { intros r7 w7 Heq. unfold AWS_ASSERT in Heq.
    destruct (snd cp); inversion Heq; subst. reflexivity. }
  intros ? w7 ->.
  eapply returns_bind; [apply aws_array_list_init_dynamic_plan, Hp6|].
  intros rh w8 (Hrh & Hp8). rewrite Hrh. simpl negb. cbv iota.
  eapply returns_bind; [apply aws_byte_buf_init_plan, Hp8|].
  intros rs w9 (Hrs & Hp9). rewrite Hrs. simpl negb. cbv iota.
  intros rc w' Heq. unfold bind at 1, put_bootstrap, modify in Heq.
  unfold bind at 1, emit, modify in Heq.
  change (aws_http_client_connect _) with
    (aws_http_client_connect (http_options_of options uri)) in Heq.
  rewrite Haccept in Heq. inversion Heq; subst. reflexivity.
Qed.

(** X13: a failed [aws_websocket_client_connect] is final.  For options
    with a URI and handshake headers whose bytes fit [size_t], called when
    no bootstrap exists, the call returns AWS_OP_SUCCESS or AWS_OP_ERR; when
    it returns AWS_OP_ERR no bootstrap is left behind (so no callback can
    follow), no user callback was called, and the error raised is
    AWS_ERROR_INVALID_ARGUMENT, AWS_ERROR_OOM or the error
    [aws_http_client_connect] raised. *)
Theorem connect_failure_is_final `{Platform} `{Collaborators}
    (options : aws_websocket_client_connection_options)
    (uri : aws_uri) (headers : list header_bytes) (w : world) :
  http_library_initialized w = true ->
  co_uri options = Some uri ->
  co_handshake_header_array options = Some headers ->
  byte_len (uri_path_and_query uri) + header_bytes_total headers <= SIZE_MAX ->
  boot w = None ->
  succeeds (aws_websocket_client_connect options) w
    (fun rc w' =>
       rc = AWS_OP_SUCCESS
       \/ (rc = AWS_OP_ERR /\ boot w' = None /\ connect_raised options w'
           /\ no_callback_since w w')).
Proof.
  intros Hinit Huri Hhs Hfit Hnone.
  eapply succeeds_mono;
    [apply (succeeds_with_returns _ _ _ _
              (succeeds_with_returns _ _ _ _
                 (connect_succeeds options uri headers w Hinit Huri Hhs Hfit)
                 (connect_outcome options w))
              (connect_trace options w))|].
  intros rc w' ((_ & Hout) & evs & Ht & Hevs).
  destruct Hout as [(-> & _)|(-> & Hb & Hraised)]; [left; reflexivity|right].
  split; [reflexivity|]. split; [exact (Hb Hnone)|]. split; [exact Hraised|].
  exists evs. split; [exact Ht|].
  destruct Hevs as [(_ & [->| ->])|(uri' & o & _ & _ & [(Hrc & _)|(_ & ->)])];
    try reflexivity.
  discriminate.
Qed.

Lemma connect_failure_is_final_witness :
  succeeds
    (aws_websocket_client_connect (H := example_platform) (H0 := example_http_refusing)
       (example_options (Some 12%nat) None None))
    initial_world
    (fun rc w' =>
       rc = AWS_OP_SUCCESS
       \/ (rc = AWS_OP_ERR /\ boot w' = None
           /\ connect_raised (H := example_platform) (H0 := example_http_refusing)
                (example_options (Some 12%nat) None None) w'
           /\ no_callback_since initial_world w')).
Proof.
  apply (connect_failure_is_final (H := example_platform) (H0 := example_http_refusing)
           (example_options (Some 12%nat) None None) example_uri example_headers
           initial_world);
    [reflexivity|reflexivity|reflexivity|vm_compute; discriminate|reflexivity].
Defined.

(** X14: what a successful [aws_websocket_client_connect] starts.  With
    options that pass the checks of the code (the five required options,
    exactly one of the begin and payload frame callbacks, at least one
    handshake header), header bytes that fit [size_t], an allocator that
    does not fail and an HTTP layer that accepts the connection, the call
    returns AWS_OP_SUCCESS; it has asked for exactly one HTTP connection,
    to the host of the URI, at the inferred port, with the caller's socket
    and TLS options and a window of 1024 bytes; and it leaves a bootstrap
    with the caller's callbacks and user data, no response status, no
    recorded error, no websocket and no captured response header. *)
Theorem connect_starts_handshake `{Platform} `{Collaborators}
    (options : aws_websocket_client_connection_options)
    (uri : aws_uri) (headers : list header_bytes) (w : world) :
  http_library_initialized w = true ->
  co_allocator options <> None ->
  co_bootstrap options <> None ->
  co_socket_options options <> None ->
  co_uri options = Some uri ->
  co_on_connection_setup options <> None ->
  (co_on_incoming_frame_begin options = None
   <-> co_on_incoming_frame_payload options <> None) ->
  co_handshake_header_array options = Some headers ->
  headers <> [] ->
  byte_len (uri_path_and_query uri) + header_bytes_total headers <= SIZE_MAX ->
  alloc_plan w = [] ->
  aws_http_client_connect (http_options_of options uri) = None ->
  succeeds (aws_websocket_client_connect options) w
    (fun rc w' =>
       rc = AWS_OP_SUCCESS
       /\ trace w' = trace w ++ [EvHttpClientConnect (http_options_of options uri)]
       /\ exists bs,
            boot w' = Some bs
            /\ bs_websocket_setup_callback bs = co_on_connection_setup options
            /\ bs_websocket_shutdown_callback bs = co_on_connection_shutdown options
            /\ bs_user_data bs = co_user_data options
            /\ bs_response_status bs = AWS_HTTP_STATUS_UNKNOWN
            /\ bs_setup_error_code bs = 0
            /\ bs_websocket bs = None
            /\ al_items (bs_response_headers bs) = []).
Proof.
  intros Hinit Halloc Hboot Hsock Huri Hsetup Hframes Hhs Hne Hfit Hplan Haccept.
  eapply succeeds_mono;
    [apply (succeeds_with_returns _ _ _ _
              (succeeds_with_returns _ _ _ _
                 (connect_succeeds options uri headers w Hinit Huri Hhs Hfit)
                 (connect_outcome options w))
              (connect_progress options uri headers w Halloc Hboot Hsock Huri Hsetup
                 Hframes Hhs Hne Hplan Haccept))|].
  intros rc w' ((_ & Hout) & ->). split; [reflexivity|].
  destruct Hout as [(_ & uri' & rp & rh & rs & al & rsp & Huri' & Hitems & Hb & Ht)
                   |(Herr & _)]; [|discriminate].
  rewrite Huri in Huri'. injection Huri' as <-.
  split; [exact Ht|]. eexists. split; [exact Hb|].
  repeat split. exact Hitems.
Qed.

Lemma connect_starts_handshake_witness :
  succeeds
    (aws_websocket_client_connect (H := example_platform) (H0 := example_http)
       (example_options (Some 12%nat) None None))
    initial_world
    (fun rc w' =>
       rc = AWS_OP_SUCCESS
       /\ trace w' = trace initial_world
                     ++ [EvHttpClientConnect
                           (http_options_of (example_options (Some 12%nat) None None)
                              example_uri)]
       /\ exists bs,
            boot w' = Some bs
            /\ bs_websocket_setup_callback bs = Some 10%nat
            /\ bs_websocket_shutdown_callback bs = Some 11%nat
            /\ bs_user_data bs = 42
            /\ bs_response_status bs = -1
            /\ bs_setup_error_code bs = 0
            /\ bs_websocket bs = None
            /\ al_items (bs_response_headers bs) = []).
Proof.
  apply (connect_starts_handshake (H := example_platform) (H0 := example_http)
           (example_options (Some 12%nat) None None) example_uri example_headers
           initial_world);
    [reflexivity|discriminate|discriminate|discriminate|reflexivity|discriminate
    |split; [discriminate|intros Hc; contradiction Hc; reflexivity]|reflexivity
    |discriminate|vm_compute; discriminate|reflexivity|reflexivity].
Defined.

(** X15: what the caller asked for reaches the websocket.  After a
    successful [aws_websocket_client_connect] with options [options], when
    the connection is set up, the handshake stream is created and the
    stream completes without error with status 101, the websocket handler
    is asked for with the allocator, window size, user data and frame
    callbacks of [options]; when that gives [websocket], the setup
    callback of [options] is called once, with [websocket], error 0,
    status 101, no headers (none arrived) and the caller's user data, and
    the stream is released. *)
Theorem connect_options_reach_websocket `{Platform} `{Collaborators}
    (options : aws_websocket_client_connection_options) (w w1 : world)
    (fn : fn_ptr) (http_connection : aws_http_connection)
    (stream : aws_http_stream) (websocket : aws_websocket) :
  aws_websocket_client_connect options w = Ok AWS_OP_SUCCESS w1 ->
  co_on_connection_setup options = Some fn ->
  (forall o, exists s, aws_http_stream_new_client_request o = inr s) ->
  incoming_response_status stream = AWS_HTTP_STATUS_101_SWITCHING_PROTOCOLS ->
  aws_websocket_handler_new (websocket_options_of options stream) = inr websocket ->
  succeeds
    (run [OnHttpSetup (Some http_connection) 0; OnHandshakeComplete stream 0]) w1
    (fun _ w' =>
       trace w' = trace w1
                  ++ [EvSetupCallback fn (Some websocket) 0
                        AWS_HTTP_STATUS_101_SWITCHING_PROTOCOLS [] (co_user_data options);
                      EvStreamRelease stream]).
Proof.
  intros Hconnect Hfn Hstream Hstatus Hnew.
  destruct (connect_outcome options w _ _ Hconnect)
    as [(_ & uri & rp & rh & rs & al & rsp & _ & Hitems & Hboot & _)|(Herr & _)];
    [|discriminate].
  set (bs := make_bootstrap options rp rh (co_num_handhake_headers options) rs al rsp) in *.
  assert (Hsetup : s_ws_bootstrap_on_http_setup (Some http_connection) 0 w1 = Ok tt w1).
  { unfold s_ws_bootstrap_on_http_setup, bind, get_bootstrap. rewrite Hboot. simpl.
    match goal with
    | |- context [aws_http_stream_new_client_request ?o] =>
        destruct (Hstream o) as (s & ->)
    end.
    reflexivity. }
  destruct (handshake_success_core w1 bs fn stream websocket Hboot Hfn Hstatus)
    as (w2 & Hcomplete & Ht2 & _).
  { rewrite <- Hnew. reflexivity. }
  simpl. eapply succeeds_bind_eq; [exact Hsetup|].
  eapply succeeds_bind_eq; [exact Hcomplete|].
  apply succeeds_ret. rewrite Ht2. subst bs. simpl. rewrite Hitems. reflexivity.
Qed.

Lemma connect_options_reach_websocket_witness :
  succeeds
    (run (H := example_platform) (H0 := example_http_strict)
       [OnHttpSetup (Some 5%nat) 0; OnHandshakeComplete (example_stream 101) 0])
    example_connected_world
    (fun _ w' =>
       trace w' = trace example_connected_world
                  ++ [EvSetupCallback 10%nat (Some 9%nat) 0 101 [] 42;
                      EvStreamRelease (example_stream 101)]).
Proof.
  apply (connect_options_reach_websocket (H := example_platform) (H0 := example_http_strict)
           (example_options (Some 12%nat) None None) initial_world example_connected_world
           10%nat 5%nat (example_stream 101) 9%nat);
    [reflexivity|reflexivity|intros o; eexists; reflexivity|reflexivity|reflexivity].
Defined.

(** X16: running out of memory while capturing response headers.  With
    the setup callback pending and no error recorded, when the name of the
    first header of a batch does not fit the response storage and the
    allocator fails, [s_ws_bootstrap_on_handshake_response_headers] captures
    nothing of the batch, calls no user callback and asks for the
    connection of the stream to be closed; the shutdown that follows
    (itself without error) calls the setup callback with no websocket and
    AWS_ERROR_OOM, with the status and the headers captured before, then
    releases the connection and the bootstrap. *)
Theorem header_out_of_memory_reported_at_shutdown `{Platform} `{Collaborators}
    (w : world) (bs : aws_websocket_client_bootstrap) (fn : fn_ptr)
    (stream : aws_http_stream) (header : header_bytes) (more : list header_bytes)
    (plan : list bool) (http_connection : aws_http_connection) :
  AWS_ERROR_OOM <> 0 ->
  bootstrap_ok w bs ->
  bs_websocket_setup_callback bs = Some fn ->
  bs_websocket bs = None ->
  bs_setup_error_code bs = 0 ->
  buf_capacity (bs_response_storage bs) - buf_len (bs_response_storage bs)
  < byte_len (hb_name header) ->
  alloc_plan w = false :: plan ->
  succeeds
    (run [OnResponseHeaders stream (header :: more); OnHttpShutdown http_connection 0]) w
    (fun _ w' =>
       boot w' = None
       /\ trace w' = trace w
                     ++ [EvConnectionClose (owning_connection stream);
                         EvSetupCallback fn None AWS_ERROR_OOM (bs_response_status bs)
                           (al_items (bs_response_headers bs)) (bs_user_data bs);
                         EvConnectionRelease http_connection;
                         EvBootstrapDestroy]).
Proof.
  intros Hoom Hok Hfn Hws Hcode Hgrow Hplan.
  pose proof Hok as (Hboot & _ & (content & Hholds) & _).
  set (bs1 := set_bs_response_storage (bs_response_storage bs) bs).
  set (bs2 := set_bs_setup_error_code AWS_ERROR_OOM bs1).
  set (w1 := set_boot (Some bs1) (set_last_error AWS_ERROR_OOM (set_alloc_plan plan w))).
  set (w2 := set_trace (trace w ++ [EvConnectionClose (owning_connection stream)])
               (set_boot (Some bs2) w1)).
  assert (Hcopy : copy_response_headers (header :: more) w = Ok false w1).
  { cbn [copy_response_headers]. unfold bind at 1, get_bootstrap. rewrite Hboot.
    unfold bind at 1.
    assert (Happend : aws_byte_buf_append_dynamic (bs_response_storage bs) (hb_name header) w
                      = Ok (AWS_OP_ERR, bs_response_storage bs)
                          (set_last_error AWS_ERROR_OOM (set_alloc_plan plan w))).
    { unfold aws_byte_buf_append_dynamic.
      apply Z.ltb_lt in Hgrow. rewrite Hgrow.
      unfold bind at 1, get. rewrite (load_whole _ _ _ Hholds).
      unfold bind, aws_mem_acquire, bind, take_alloc. rewrite Hplan. reflexivity. }
    rewrite Happend. reflexivity. }
  assert (Hhandler : s_ws_bootstrap_on_handshake_response_headers stream (header :: more) w
                     = Ok tt w2).
  { unfold s_ws_bootstrap_on_handshake_response_headers, bind at 1. rewrite Hcopy.
    unfold bind at 1, aws_last_error. cbn [last_error w1 set_boot set_last_error].
    rewrite (cancel_setup_eq w1 bs1 _ AWS_ERROR_OOM eq_refl Hoom).
    cbn [bs_setup_error_code bs1 set_bs_response_storage]. rewrite Hcode. reflexivity. }
  assert (Hok2 : bootstrap_ok w2 bs2).
  { eapply bootstrap_ok_update; [exact Hok|reflexivity|reflexivity|reflexivity|reflexivity]. }
  simpl. eapply succeeds_bind_eq; [exact Hhandler|].
  eapply succeeds_bind.
  { apply (on_http_shutdown_succeeds w2 bs2 http_connection 0 Hok2).
    - intros _. exact Hws.
    - intros Hnone. simpl in Hnone. rewrite Hfn in Hnone. discriminate. }
  intros ? w3 (Hb3 & Ht3). apply succeeds_ret. split; [exact Hb3|].
  rewrite Ht3. unfold shutdown_calls. simpl. rewrite Hfn. simpl.
  destruct (Z.eqb_spec AWS_ERROR_OOM 0) as [Hz|_]; [contradiction|].
  rewrite <- app_assoc. reflexivity.
Qed.

Lemma header_out_of_memory_reported_at_shutdown_witness :
  succeeds
    (run (H := example_platform) (H0 := example_http)
       [OnResponseHeaders (example_stream 101)
          [{| hb_name := List.repeat "x"%byte 800; hb_value := list_byte_of_string "v" |};
           example_short_header];
        OnHttpShutdown 5%nat 0])
    (set_alloc_plan [false] example_connected_world)
    (fun _ w' =>
       boot w' = None
       /\ trace w' = trace (set_alloc_plan [false] example_connected_world)
                     ++ [EvConnectionClose 5%nat;
                         EvSetupCallback 10%nat None 1 (-1) [] 42;
                         EvConnectionRelease 5%nat;
                         EvBootstrapDestroy]).
Proof.
  apply (header_out_of_memory_reported_at_shutdown (H := example_platform)
           (H0 := example_http)
           (set_alloc_plan [false] example_connected_world)
           example_bootstrap 10%nat (example_stream 101)
           {| hb_name := List.repeat "x"%byte 800; hb_value := list_byte_of_string "v" |}
           [example_short_header] [] 5%nat);
    [discriminate|example_bootstrap_ok|reflexivity|reflexivity|reflexivity
    |vm_compute; reflexivity|reflexivity].
Defined.

(** * The request storage and the width of [size_t] *)








